(** * alpaca_trade_api.stream2: a shallow embedding of the streaming client

    The module [alpaca_trade_api/stream2.py] defines two classes:
    [_StreamConn], one websocket connection with its authentication
    handshake, its receive loop, its reconnect loop and its handler
    registry, and [StreamConn], which owns up to three connections and
    routes channel names to them.

    The embedding is a state-and-exception monad over the fields of a
    [_StreamConn] object and a scripted environment.  Every [await] on the
    socket asks the environment for its outcome; the environment is a
    script (one list per kind of call), so that a run is a function of the
    initial object and of the script.  What the program does to the outside
    is recorded in a trace of events. *)

From Stdlib Require Import String Ascii ZArith List Bool Lia.
From stdpp Require Import base gmap sets list strings.
Import ListNotations.

Local Open Scope string_scope.
Local Open Scope Z_scope.

(** ** Python values *)

(** The values [json.loads] produces.  A float is carried as the decimal
    literal [m * 10^e]; the client never computes on it. *)
#[warnings="-register-all"]
Inductive json : Type :=
| JNull
| JBool (b : bool)
| JInt (z : Z)
| JFloat (m e : Z)
| JStr (s : string)
| JList (l : list json)
| JObj (kv : list (string * json)).

(** Python exceptions the module raises or lets through.  [ValueError] is
    raised at two places of the source: a rejected authentication
    ([_connect]) and a handler that is not a coroutine function
    ([register]). *)
Inductive value_error : Type :=
| InvalidCredentials (msg : json)
| NotACoroutine.

Inductive exn : Type :=
| WebSocketException (why : string)
| ValueError (v : value_error)
| ConnectionError (why : string)
| TypeError (why : string)
| AttributeError (why : string)
| KeyError (key : string)
| JSONDecodeError
| UnicodeDecodeError
| ReError (pattern : string)
| OSError (why : string)
| UserError (tag : string).

(** [except websockets.WebSocketException] catches that class only. *)
Definition is_WebSocketException (e : exn) : bool :=
  match e with
  | WebSocketException _ => true
  | _ => false
  end.

(** *** Dictionaries

    A Python [dict] keeps its keys in insertion order; assigning to a key
    that is present keeps the key's position. *)
Section Dict.
Context {V : Type}.

Fixpoint dict_get (k : string) (d : list (string * V)) : option V :=
  match d with
  | [] => None
  | (k', v) :: d' => if String.eqb k k' then Some v else dict_get k d'
  end.

Definition dict_mem (k : string) (d : list (string * V)) : bool :=
  match dict_get k d with
  | Some _ => true
  | None => false
  end.

Fixpoint dict_set (k : string) (v : V) (d : list (string * V))
  : list (string * V) :=
  match d with
  | [] => [(k, v)]
  | (k', v') :: d' =>
      if String.eqb k k' then (k, v) :: d' else (k', v') :: dict_set k v d'
  end.

Fixpoint dict_del (k : string) (d : list (string * V)) : list (string * V) :=
  match d with
  | [] => []
  | (k', v') :: d' =>
      if String.eqb k k' then d' else (k', v') :: dict_del k d'
  end.

Definition dict_keys (d : list (string * V)) : list string := map fst d.
End Dict.

(** The argument of [subscribe]: the callers pass a list, [_ensure_ws]
    passes the set [self._streams] itself. *)
Inductive channels : Type :=
| PyList (l : list string)
| PySet (s : gset string).

Definition py_len (c : channels) : nat :=
  match c with
  | PyList l => length l
  | PySet s => size s
  end.

(** [set(channels)] *)
Definition py_set (c : channels) : gset string :=
  match c with
  | PyList l => list_to_set l
  | PySet s => s
  end.

(** [json.dumps] of the value of [channels]: a list is serialised as an
    array, a set is refused by the encoder ([TypeError: Object of type set
    is not JSON serializable]). *)
Definition json_of_channels (c : channels) : exn + json :=
  match c with
  | PyList l => inr (JList (map JStr l))
  | PySet _ => inl (TypeError "Object of type set is not JSON serializable")
  end.

(** [msg.get(k, default)] on a parsed message: only a [dict] has [get]. *)
Definition json_get (msg : json) (k : string) (default : json) : exn + json :=
  match msg with
  | JObj kv =>
      match dict_get k kv with
      | Some v => inr v
      | None => inr default
      end
  | _ => inl (AttributeError "get")
  end.

(** [msg[k]] on a parsed message that is a [dict]. *)
Definition json_item (msg : json) (k : string) : exn + json :=
  match msg with
  | JObj kv =>
      match dict_get k kv with
      | Some v => inr v
      | None => inl (KeyError k)
      end
  | _ => inl (TypeError "subscript")
  end.

(** [v != s] for a string literal [s]. *)
Definition json_ne_str (v : json) (s : string) : bool :=
  match v with
  | JStr s' => negb (String.eqb s' s)
  | _ => true
  end.

(** ** Entities, handlers and the library the module imports *)

(** What [_cast] builds.  [Account] and [Entity] wrap the raw body;
    [Trade], [Quote] and [Agg] wrap the dictionary of renamed fields. *)
Inductive entity : Type :=
| Account (raw : json)
| Trade (fields : list (string * json))
| Quote (fields : list (string * json))
| Agg (fields : list (string * json))
| Entity (raw : json).

(** A caller's handler: a function object (named, so that it can be the key
    of [_handler_symbols]), whether [asyncio.iscoroutinefunction] accepts
    it, and what awaiting it on a channel and an entity does: return, or
    raise.

    The code hands the handler the connection itself
    ([handler(self, channel, ent)]).  A handler that calls a method of
    that connection is not described here: [h_raises h channel ent = None]
    stands for a call that returns and leaves the connection alone, and
    [Some e] for one that raises [e] and leaves it alone.  The properties
    that depend on what an invoked handler does name these outcomes in a
    hypothesis; the others are stated for the runs in which no handler is
    invoked (see [no_invocation]), where the handlers play no part. *)
Record handler : Type := {
  h_name : string;
  h_coroutine : bool;
  h_raises : string -> entity -> option exn
}.

(** The parts of the imported modules the code depends on and that are not
    part of this file: the regular-expression engine ([re.compile] and
    [Pattern.match], which matches at the start of the string) and the
    three field tables of [polygon.entity]. *)
Class Library : Type := {
  re_valid : string -> bool;
  re_match : string -> string -> bool;
  trade_mapping : list (string * string);
  quote_mapping : list (string * string);
  agg_mapping : list (string * string)
}.

(** ** The connection object and its environment *)

Record _StreamConn : Type := {
  _key_id : string;
  _secret_key : string;
  _base_url : string;
  _endpoint : string;
  _handlers : list (string * handler);
  _handler_symbols : list (string * option (list string));
  _streams : gset string;
  _ws : option nat;
  _retry : Z;
  _retry_wait : Z;
  _retries : Z;
  _consume_task : option nat
}.

(** A frame as [recv] returns it: a [str] with what [json.loads] makes of
    it ([None]: it raises), or [bytes] with what [decode('utf-8')] and then
    [json.loads] make of them. *)
Inductive frame : Type :=
| Str (loads : option json)
| Bytes (decode : option (option json)).

(** The two coroutines the module hands to [asyncio.ensure_future]. *)
Inductive coroutine : Type :=
| ConsumeMsg
| EnsureWs.

Inductive event : Type :=
| EvConnect (endpoint : string)
| EvSend (ws : nat) (payload : json)
| EvRecv (ws : nat)
| EvClose (ws : nat)
| EvSleep (seconds : Z)
| EvWarn (e : exn)
| EvSpawn (task : nat) (c : coroutine)
| EvCancel (task : nat)
| EvInvoke (h : string) (channel : string) (ent : entity).

(** The environment: the outcomes of the coming [websockets.connect],
    [send], [recv] and [close] calls ([None] is a normal return), the next
    fresh socket and task numbers, the tasks scheduled and not yet started,
    and the trace so far (oldest event first). *)
Record world : Type := {
  w_connect : list (option exn);
  w_send : list (option exn);
  w_recv : list (exn + frame);
  w_close : list (option exn);
  w_next_ws : nat;
  w_next_task : nat;
  w_tasks : list (nat * coroutine);
  w_trace : list event
}.

Record sys : Type := {
  self : _StreamConn;
  env : world
}.

(** ** The monad

    A computation ends by returning, by raising, or it stays suspended on
    an [await] the environment never completes ([Pending]).  [NoFuel] is
    the recursion bound of the model; no run that is given the fuel of
    [enough_fuel] reaches it, and more fuel does not change a run. *)
Inductive outcome (A : Type) : Type :=
| Ret (a : A)
| Raise (e : exn)
| Pending
| NoFuel.
Arguments Ret {A} a.
Arguments Raise {A} e.
Arguments Pending {A}.
Arguments NoFuel {A}.

Definition M (A : Type) : Type := sys -> outcome A * sys.

Definition ret {A} (a : A) : M A := fun s => (Ret a, s).

Definition bind {A B} (m : M A) (k : A -> M B) : M B :=
  fun s =>
    match m s with
    | (Ret a, s') => k a s'
    | (Raise e, s') => (Raise e, s')
    | (Pending, s') => (Pending, s')
    | (NoFuel, s') => (NoFuel, s')
    end.

Definition raise {A} (e : exn) : M A := fun s => (Raise e, s).

Definition no_fuel {A} : M A := fun s => (NoFuel, s).

(** [try: m except C: h] where [catches] decides membership in [C]. *)
Definition try_except {A} (m : M A) (catches : exn -> bool) (h : exn -> M A)
  : M A :=
  fun s =>
    match m s with
    | (Raise e, s') => if catches e then h e s' else (Raise e, s')
    | r => r
    end.

Definition lift {A} (r : exn + A) : M A :=
  match r with
  | inl e => raise e
  | inr a => ret a
  end.

Declare Scope py_scope.
Delimit Scope py_scope with py.
Notation "x <- m ;; k" := (bind m (fun x => k))
  (at level 100, m at next level, right associativity) : py_scope.
Notation "m ;; k" := (bind m (fun _ => k))
  (at level 100, right associativity) : py_scope.
Local Open Scope py_scope.

Definition get_self : M _StreamConn := fun s => (Ret (self s), s).

Definition set_self (f : _StreamConn -> _StreamConn) : M unit :=
  fun s => (Ret tt, {| self := f (self s); env := env s |}).

Definition set_env (f : world -> world) : M unit :=
  fun s => (Ret tt, {| self := self s; env := f (env s) |}).

(** The environment after [evs] more events. *)
Definition traced (evs : list event) (w : world) : world :=
  {| w_connect := w_connect w; w_send := w_send w; w_recv := w_recv w;
     w_close := w_close w; w_next_ws := w_next_ws w;
     w_next_task := w_next_task w; w_tasks := w_tasks w;
     w_trace := (w_trace w ++ evs)%list |}.

Definition emit (e : event) : M unit := set_env (traced [e]).

(** Field updates of the object and of the environment. *)
Definition set_handlers (h : list (string * handler)) (c : _StreamConn) :=
  {| _key_id := _key_id c; _secret_key := _secret_key c;
     _base_url := _base_url c; _endpoint := _endpoint c;
     _handlers := h; _handler_symbols := _handler_symbols c;
     _streams := _streams c; _ws := _ws c; _retry := _retry c;
     _retry_wait := _retry_wait c; _retries := _retries c;
     _consume_task := _consume_task c |}.

Definition set_handler_symbols (hs : list (string * option (list string)))
  (c : _StreamConn) :=
  {| _key_id := _key_id c; _secret_key := _secret_key c;
     _base_url := _base_url c; _endpoint := _endpoint c;
     _handlers := _handlers c; _handler_symbols := hs;
     _streams := _streams c; _ws := _ws c; _retry := _retry c;
     _retry_wait := _retry_wait c; _retries := _retries c;
     _consume_task := _consume_task c |}.

Definition set_streams (x : gset string) (c : _StreamConn) :=
  {| _key_id := _key_id c; _secret_key := _secret_key c;
     _base_url := _base_url c; _endpoint := _endpoint c;
     _handlers := _handlers c; _handler_symbols := _handler_symbols c;
     _streams := x; _ws := _ws c; _retry := _retry c;
     _retry_wait := _retry_wait c; _retries := _retries c;
     _consume_task := _consume_task c |}.

Definition set_ws (x : option nat) (c : _StreamConn) :=
  {| _key_id := _key_id c; _secret_key := _secret_key c;
     _base_url := _base_url c; _endpoint := _endpoint c;
     _handlers := _handlers c; _handler_symbols := _handler_symbols c;
     _streams := _streams c; _ws := x; _retry := _retry c;
     _retry_wait := _retry_wait c; _retries := _retries c;
     _consume_task := _consume_task c |}.

Definition set_retries (x : Z) (c : _StreamConn) :=
  {| _key_id := _key_id c; _secret_key := _secret_key c;
     _base_url := _base_url c; _endpoint := _endpoint c;
     _handlers := _handlers c; _handler_symbols := _handler_symbols c;
     _streams := _streams c; _ws := _ws c; _retry := _retry c;
     _retry_wait := _retry_wait c; _retries := x;
     _consume_task := _consume_task c |}.

Definition set_consume_task (x : option nat) (c : _StreamConn) :=
  {| _key_id := _key_id c; _secret_key := _secret_key c;
     _base_url := _base_url c; _endpoint := _endpoint c;
     _handlers := _handlers c; _handler_symbols := _handler_symbols c;
     _streams := _streams c; _ws := _ws c; _retry := _retry c;
     _retry_wait := _retry_wait c; _retries := _retries c;
     _consume_task := x |}.

Definition with_connect (l : list (option exn)) (w : world) :=
  {| w_connect := l; w_send := w_send w; w_recv := w_recv w;
     w_close := w_close w; w_next_ws := w_next_ws w;
     w_next_task := w_next_task w; w_tasks := w_tasks w;
     w_trace := w_trace w |}.

Definition with_send (l : list (option exn)) (w : world) :=
  {| w_connect := w_connect w; w_send := l; w_recv := w_recv w;
     w_close := w_close w; w_next_ws := w_next_ws w;
     w_next_task := w_next_task w; w_tasks := w_tasks w;
     w_trace := w_trace w |}.

Definition with_recv (l : list (exn + frame)) (w : world) :=
  {| w_connect := w_connect w; w_send := w_send w; w_recv := l;
     w_close := w_close w; w_next_ws := w_next_ws w;
     w_next_task := w_next_task w; w_tasks := w_tasks w;
     w_trace := w_trace w |}.

Definition with_close (l : list (option exn)) (w : world) :=
  {| w_connect := w_connect w; w_send := w_send w; w_recv := w_recv w;
     w_close := l; w_next_ws := w_next_ws w;
     w_next_task := w_next_task w; w_tasks := w_tasks w;
     w_trace := w_trace w |}.

Definition with_next_ws (n : nat) (w : world) :=
  {| w_connect := w_connect w; w_send := w_send w; w_recv := w_recv w;
     w_close := w_close w; w_next_ws := n;
     w_next_task := w_next_task w; w_tasks := w_tasks w;
     w_trace := w_trace w |}.

Definition with_tasks (n : nat) (l : list (nat * coroutine)) (w : world) :=
  {| w_connect := w_connect w; w_send := w_send w; w_recv := w_recv w;
     w_close := w_close w; w_next_ws := w_next_ws w;
     w_next_task := n; w_tasks := l;
     w_trace := w_trace w |}.

(** ** The calls into the environment *)

(** An [await] whose outcome is the head of a script; the script is
    consumed.  With nothing left, the call never completes. *)
Definition await {A R} (script : world -> list A)
  (rest : list A -> world -> world) (k : A -> M R) : M R :=
  fun s =>
    match script (env s) with
    | [] => (Pending, s)
    | a :: l => k a {| self := self s; env := rest l (env s) |}
    end.

Definition completes (o : option exn) : M unit :=
  match o with
  | Some e => raise e
  | None => ret tt
  end.

(** [await websockets.connect(endpoint)] *)
Definition websockets_connect (endpoint : string) : M nat :=
  emit (EvConnect endpoint) ;;
  await w_connect with_connect (fun o =>
    completes o ;;
    s <- (fun s => (Ret (w_next_ws (env s)), s)) ;;
    set_env (with_next_ws (S s)) ;;
    ret s).

(** [await ws.send(payload)]; on [None] the attribute lookup fails. *)
Definition ws_send (ws : option nat) (payload : exn + json) : M unit :=
  match ws with
  | None => raise (AttributeError "send")
  | Some n =>
      p <- lift payload ;;
      emit (EvSend n p) ;;
      await w_send with_send completes
  end.

(** [await ws.recv()] *)
Definition ws_recv (ws : option nat) : M frame :=
  match ws with
  | None => raise (AttributeError "recv")
  | Some n =>
      emit (EvRecv n) ;;
      await w_recv with_recv lift
  end.

(** [await ws.close()] *)
Definition ws_close (n : nat) : M unit :=
  emit (EvClose n) ;;
  await w_close with_close completes.

(** [await asyncio.sleep(seconds)] *)
Definition asyncio_sleep (seconds : Z) : M unit := emit (EvSleep seconds).

(** [logging.warn(e)] *)
Definition logging_warn (e : exn) : M unit := emit (EvWarn e).

(** [asyncio.ensure_future(coro)]: the task is scheduled, not run. *)
Definition ensure_future (c : coroutine) : M nat :=
  t <- (fun s => (Ret (w_next_task (env s)), s)) ;;
  set_env (fun w => with_tasks (S t) (w_tasks w ++ [(t, c)])%list w) ;;
  emit (EvSpawn t c) ;;
  ret t.

(** [task.cancel()]: a task that has not started never runs.  A coroutine
    that cancels the task it runs in goes on to its next suspension;
    whether the cancellation is delivered there is decided by the event
    loop and by the socket library, and is not modelled: the call is
    recorded. *)
Definition task_cancel (t : nat) : M unit :=
  set_env (fun w =>
    with_tasks (w_next_task w)
      (List.filter (fun tc => negb (Nat.eqb (fst tc) t)) (w_tasks w)) w) ;;
  emit (EvCancel t).

(** ** class _StreamConn *)

(** [re.sub(r'^http', 'ws', base_url)] *)
Definition ws_url (base_url : string) : string :=
  if String.prefix "http" base_url
  then "ws" ++ String.substring 4 (String.length base_url - 4) base_url
  else base_url.

(** [__init__]; [retry] and [retry_wait] are the integers read from
    [APCA_RETRY_MAX] and [APCA_RETRY_WAIT] (3 when unset). *)
Definition __init__ (key_id secret_key base_url : string)
  (retry retry_wait : Z) : _StreamConn :=
  {| _key_id := key_id; _secret_key := secret_key;
     _base_url := ws_url base_url;
     _endpoint := ws_url base_url ++ "/stream";
     _handlers := []; _handler_symbols := [];
     _streams := ∅; _ws := None;
     _retry := retry; _retry_wait := retry_wait; _retries := 0;
     _consume_task := None |}.

(** [if isinstance(r, bytes): r = r.decode('utf-8')] then
    [msg = json.loads(r)] *)
Definition loads (r : frame) : exn + json :=
  match r with
  | Str (Some msg) => inr msg
  | Str None => inl JSONDecodeError
  | Bytes None => inl UnicodeDecodeError
  | Bytes (Some (Some msg)) => inr msg
  | Bytes (Some None) => inl JSONDecodeError
  end.

Section Conn.
Context `{Library}.

(** [{mapping[k]: v for k, v in msg.items() if k in mapping}]: one item
    of the comprehension, and the comprehension. *)
Definition rename_step (mapping : list (string * string))
  (acc : list (string * json)) (kv : string * json)
  : list (string * json) :=
  match dict_get (fst kv) mapping with
  | Some k' => dict_set k' (snd kv) acc
  | None => acc
  end.

Definition rename (mapping : list (string * string))
  (items : list (string * json)) : list (string * json) :=
  fold_left (rename_step mapping) items [].

(** [msg.items()] *)
Definition items (msg : json) : exn + list (string * json) :=
  match msg with
  | JObj kv => inr kv
  | _ => inl (AttributeError "items")
  end.

Definition _cast (channel : string) (msg : json) : exn + entity :=
  if String.eqb channel "account_updates" then inr (Account msg)
  else if String.prefix "T." channel then
    match items msg with
    | inr kv => inr (Trade (rename trade_mapping kv))
    | inl e => inl e
    end
  else if String.prefix "Q." channel then
    match items msg with
    | inr kv => inr (Quote (rename quote_mapping kv))
    | inl e => inl e
    end
  else if String.prefix "A." channel || String.prefix "AM." channel then
    match items msg with
    | inr kv => inr (Agg (rename agg_mapping kv))
    | inl e => inl e
    end
  else inr (Entity msg).

(** [await handler(self, channel, ent)] *)
Definition call_handler (h : handler) (channel : string) (ent : entity)
  : M unit :=
  emit (EvInvoke (h_name h) channel ent) ;;
  match h_raises h channel ent with
  | Some e => raise e
  | None => ret tt
  end.

(** The body of [_dispatch], over the items of [self._handlers]. *)
Fixpoint dispatch_items (hs : list (string * handler)) (channel : string)
  (msg : json) : M unit :=
  match hs with
  | [] => ret tt
  | (pat, h) :: hs' =>
      (if re_match pat channel then
         data <- lift (json_item msg "data") ;;
         ent <- lift (_cast channel data) ;;
         call_handler h channel ent
       else ret tt) ;;
      dispatch_items hs' channel msg
  end.

Definition _dispatch (channel : string) (msg : json) : M unit :=
  c <- get_self ;;
  dispatch_items (_handlers c) channel msg.

(** The request [_connect] serialises with [json.dumps]. *)
Definition authenticate_request (c : _StreamConn) : json :=
  JObj [("action", JStr "authenticate");
        ("data", JObj [("key_id", JStr (_key_id c));
                       ("secret_key", JStr (_secret_key c))])].

Definition _connect : M unit :=
  c <- get_self ;;
  ws <- websockets_connect (_endpoint c) ;;
  ws_send (Some ws) (inr (authenticate_request c)) ;;
  r <- ws_recv (Some ws) ;;
  msg <- lift (loads r) ;;
  data <- lift (json_get msg "data" (JObj [])) ;;
  status <- lift (json_get data "status" JNull) ;;
  (if json_ne_str status "authorized"
   then raise (ValueError (InvalidCredentials msg))
   else set_self (set_retries 0)) ;;
  set_self (set_ws (Some ws)) ;;
  _dispatch "authorized" msg ;;
  t <- ensure_future ConsumeMsg ;;
  set_self (set_consume_task (Some t)).

Definition close : M unit :=
  c <- get_self ;;
  match _consume_task c with
  | Some t => task_cancel t
  | None => ret tt
  end ;;
  match _ws c with
  | Some ws => ws_close ws ;; set_self (set_ws None)
  | None => ret tt
  end.

(** [pass] *)
Definition unsubscribe (chans : channels) : M unit := ret tt.

(** The request [subscribe] serialises with [json.dumps]. *)
Definition listen_request (chans : channels) : exn + json :=
  match json_of_channels chans with
  | inr l => inr (JObj [("action", JStr "listen");
                        ("data", JObj [("streams", l)])])
  | inl e => inl e
  end.

(** One turn of the [while] loop of [_ensure_ws]: the [try] block, which
    ends in [break] (the result [true]), and the [except] clause, after
    which the loop goes on (the result [false]).  [resubscribe] is the
    method [self.subscribe]. *)
Definition attempt (resubscribe : channels -> M unit) : M bool :=
  try_except
    (_connect ;;
     c <- get_self ;;
     (if bool_decide (_streams c ≠ ∅)
      then resubscribe (PySet (_streams c))
      else ret tt) ;;
     ret true)
    is_WebSocketException
    (fun wse =>
       logging_warn wse ;;
       set_self (set_ws None) ;;
       set_self (fun c => set_retries (_retries c + 1) c) ;;
       c <- get_self ;;
       asyncio_sleep (_retry_wait c * _retry c) ;;
       ret false).

(** [_ensure_ws] and [subscribe] call each other, and the [while] loop of
    [_ensure_ws] runs as long as the environment lets it; the three are
    defined by recursion on a bound, see [enough_fuel]. *)
Fixpoint _ensure_ws (fuel : nat) : M unit :=
  match fuel with
  | O => no_fuel
  | S fuel' =>
      c <- get_self ;;
      match _ws c with
      | Some _ => ret tt
      | None => while_retries fuel'
      end
  end

(** [while self._retries <= self._retry: ... else: raise ...] *)
with while_retries (fuel : nat) : M unit :=
  match fuel with
  | O => no_fuel
  | S fuel' =>
      c <- get_self ;;
      if _retries c <=? _retry c then
        break <- attempt (subscribe fuel') ;;
        if (break : bool) then ret tt else while_retries fuel'
      else raise (ConnectionError "Max Retries Exceeded")
  end

with subscribe (fuel : nat) (chans : channels) : M unit :=
  match fuel with
  | O => no_fuel
  | S fuel' =>
      if (0 <? py_len chans)%nat then
        _ensure_ws fuel' ;;
        set_self (fun c => set_streams (_streams c ∪ py_set chans) c) ;;
        c <- get_self ;;
        ws_send (_ws c) (listen_request chans)
      else ret tt
  end.

(** [if stream is not None: await self._dispatch(stream, msg)]; a
    [stream] that is not a string makes [pat.match] raise at the first
    registered pattern. *)
Definition dispatch_stream (stream msg : json) : M unit :=
  match stream with
  | JNull => ret tt
  | JStr channel => _dispatch channel msg
  | _ =>
      c <- get_self ;;
      match _handlers c with
      | [] => ret tt
      | _ :: _ => raise (TypeError "expected string or bytes-like object")
      end
  end.

(** [while True:] of [_consume_msg] *)
Fixpoint consume_loop (fuel : nat) (ws : option nat) : M unit :=
  match fuel with
  | O => no_fuel
  | S fuel' =>
      r <- ws_recv ws ;;
      msg <- lift (loads r) ;;
      stream <- lift (json_get msg "stream" JNull) ;;
      dispatch_stream stream msg ;;
      consume_loop fuel' ws
  end.

Definition _consume_msg (fuel : nat) : M unit :=
  c <- get_self ;;
  try_except (consume_loop fuel (_ws c)) is_WebSocketException
    (fun wse =>
       logging_warn wse ;;
       close ;;
       _ <- ensure_future EnsureWs ;;
       ret tt).

Definition register (channel_pat : string) (func : handler)
  (symbols : option (list string)) : M unit :=
  (if h_coroutine func then ret tt else raise (ValueError NotACoroutine)) ;;
  (if re_valid channel_pat then ret tt else raise (ReError channel_pat)) ;;
  set_self (fun c =>
    set_handlers (dict_set channel_pat func (_handlers c)) c) ;;
  set_self (fun c =>
    set_handler_symbols
      (dict_set (h_name func) symbols (_handler_symbols c)) c).

Definition deregister (channel_pat : string) : M unit :=
  (if re_valid channel_pat then ret tt else raise (ReError channel_pat)) ;;
  c <- get_self ;;
  match dict_get channel_pat (_handlers c) with
  | None => raise (KeyError channel_pat)
  | Some func =>
      set_self (set_handler_symbols
                  (dict_del (h_name func) (_handler_symbols c))) ;;
      set_self (fun c =>
        set_handlers (dict_del channel_pat (_handlers c)) c)
  end.

(** The event loop starts the oldest scheduled task; the outcome is the
    task's (an exception stays in the task).  The task is run to its end:
    tasks that interleave at their suspension points are not modelled. *)
Definition run_task (fuel : nat) : M unit :=
  fun s =>
    match w_tasks (env s) with
    | [] => (Ret tt, s)
    | (_, c) :: rest =>
        let s' := {| self := self s;
                     env := with_tasks (w_next_task (env s)) rest (env s) |} in
        match c with
        | ConsumeMsg => _consume_msg fuel s'
        | EnsureWs => _ensure_ws fuel s'
        end
    end.

(** The bound that is enough: a turn of the reconnect loop takes three
nested calls and consumes a connection outcome, a turn of the receive
loop consumes a frame (see [ensure_ws_total] and [consume_msg_total]). *)
Definition enough_fuel (s : sys) : nat :=
(3 * length (w_connect (env s)) + length (w_recv (env s)) + 4)%nat.
End Conn.

(** ** class StreamConn: the routing of channel names *)

Inductive destination : Type :=
| Trading
| Data
| Polygon.

(** The [if]/[elif]/[else] of the loop in [StreamConn.subscribe]. *)
Definition classify (c : string) : destination :=
  if String.prefix "Q." c || String.prefix "T." c
     || String.prefix "A." c || String.prefix "AM." c
  then Polygon
  else if String.eqb c "trade_updates" || String.eqb c "account_updates"
  then Trading
  else Data.

(** The three lists [trading_channels], [data_channels] and
    [polygon_channels] the loop builds by [append]. *)
Definition partition_channels (cs : list string)
  : list string * list string * list string :=
  fold_left
    (fun acc c =>
       let '(trading, data, polygon) := acc in
       match classify c with
       | Polygon => (trading, data, (polygon ++ [c])%list)
       | Trading => ((trading ++ [c])%list, data, polygon)
       | Data => (trading, (data ++ [c])%list, polygon)
       end)
    cs ([], [], []).

(** [polygon_channels] of [StreamConn.unsubscribe] *)
Definition unsubscribe_channels (cs : list string) : list string :=
  List.filter
    (fun c => String.prefix "Q." c || String.prefix "T." c
              || String.prefix "A." c || String.prefix "AM." c)
    cs.

(** ** What a trace shows *)

(** The seconds of the [asyncio.sleep] calls, in order. *)
Fixpoint sleeps (t : list event) : list Z :=
  match t with
  | [] => []
  | EvSleep n :: t' => n :: sleeps t'
  | _ :: t' => sleeps t'
  end.

(** The number of [websockets.connect] calls. *)
Fixpoint attempts (t : list event) : nat :=
  match t with
  | [] => O
  | EvConnect _ :: t' => S (attempts t')
  | _ :: t' => attempts t'
  end.

(** The names of the handlers invoked, in order. *)
Fixpoint invoked (t : list event) : list string :=
  match t with
  | [] => []
  | EvInvoke h _ _ :: t' => h :: invoked t'
  | _ :: t' => invoked t'
  end.

(** The payloads handed to [send], in order. *)
Fixpoint sent (t : list event) : list json :=
  match t with
  | [] => []
  | EvSend _ p :: t' => p :: sent t'
  | _ :: t' => sent t'
  end.

(** The tasks handed to [asyncio.ensure_future], in order. *)
Fixpoint spawned (t : list event) : list coroutine :=
  match t with
  | [] => []
  | EvSpawn _ c :: t' => c :: spawned t'
  | _ :: t' => spawned t'
  end.

(** A request is a subscribe request when its action is [listen]. *)
Definition is_listen (p : json) : bool :=
  match p with
  | JObj kv =>
      match dict_get "action" kv with
      | Some (JStr a) => String.eqb a "listen"
      | _ => false
      end
  | _ => false
  end.

(** The event of one handler invocation. *)
Definition invocation (channel : string) (ent : entity)
  (ph : string * handler) : event :=
  EvInvoke (h_name (snd ph)) channel ent.

(** The handlers of a registry whose pattern matches a channel, in the
    order of the registry. *)
Definition matching `{Library} (hs : list (string * handler))
  (channel : string) : list (string * handler) :=
  List.filter (fun ph => re_match (fst ph) channel) hs.

(** ** Measures of a run *)

(** The outcomes the environment still holds for [websockets.connect] and
    for [recv]. *)
Definition connects (s : sys) : nat := length (w_connect (env s)).

Definition frames (s : sys) : nat := length (w_recv (env s)).

(** A computation is steady at a state when it ends within its bound and
    consumes outcomes only. *)
Definition steady_at {A} (m : M A) (s : sys) : Prop :=
  fst (m s) <> NoFuel /\
  (connects (snd (m s)) <= connects s)%nat /\
  (frames (snd (m s)) <= frames s)%nat.

(** ** Callers *)


(** ** A sample library

    A small regular-expression matcher (literal characters, [\c], [.] and
    a postfix [*] on one character) and sample field tables, to run the
    model on concrete inputs. *)
Module Sample.
Inductive token : Type :=
| TLit (a : ascii)
| TAny
| TStar.

Fixpoint tokens (p : list ascii) : list token :=
  match p with
  | [] => []
  | "\"%char :: a :: p' => TLit a :: tokens p'
  | "."%char :: p' => TAny :: tokens p'
  | "*"%char :: p' => TStar :: tokens p'
  | a :: p' => TLit a :: tokens p'
  end.

Fixpoint starred (t : list token) : list (token * bool) :=
  match t with
  | [] => []
  | a :: TStar :: t' => (a, true) :: starred t'
  | a :: t' => (a, false) :: starred t'
  end.

Definition accepts (t : token) (a : ascii) : bool :=
  match t with
  | TLit b => Ascii.eqb a b
  | TAny => negb (Ascii.eqb a "010"%char)
  | TStar => false
  end.

(** [Pattern.match]: the pattern matches a prefix of the string. *)
Fixpoint matches (p : list (token * bool)) (s : list ascii) : bool :=
  match p with
  | [] => true
  | (t, false) :: p' =>
      match s with
      | a :: s' => accepts t a && matches p' s'
      | [] => false
      end
  | (t, true) :: p' =>
      (fix star (s : list ascii) : bool :=
         matches p' s ||
         match s with
         | a :: s' => accepts t a && star s'
         | [] => false
         end) s
  end.

Definition valid (p : string) : bool :=
  match tokens (list_ascii_of_string p) with
  | TStar :: _ => false
  | _ => true
  end.

Definition re (p s : string) : bool :=
  matches (starred (tokens (list_ascii_of_string p)))
    (list_ascii_of_string s).

#[local] Instance library : Library := {|
  re_valid := valid;
  re_match := re;
  trade_mapping := [("sym", "symbol"); ("c", "conditions");
                    ("x", "exchange"); ("p", "price"); ("s", "size");
                    ("t", "timestamp")];
  quote_mapping := [("sym", "symbol"); ("bp", "bidprice");
                    ("ap", "askprice"); ("bs", "bidsize");
                    ("as", "asksize"); ("t", "timestamp")];
  agg_mapping := [("sym", "symbol"); ("o", "open"); ("c", "close");
                  ("h", "high"); ("l", "low"); ("v", "volume")]
|}.

(** A handler that returns, and one that raises. *)
Definition quiet (name : string) : handler :=
  {| h_name := name; h_coroutine := true; h_raises := fun _ _ => None |}.

Definition failing (name : string) : handler :=
  {| h_name := name; h_coroutine := true;
     h_raises := fun _ _ => Some (UserError name) |}.

(** The reply frames of an accepted and of a rejected authentication. *)
Definition authorized : json :=
  JObj [("stream", JStr "authorization");
        ("data", JObj [("status", JStr "authorized");
                       ("action", JStr "authenticate")])].

Definition unauthorized : json :=
  JObj [("stream", JStr "authorization");
        ("data", JObj [("status", JStr "unauthorized");
                       ("action", JStr "authenticate")])].

Definition world0 : world :=
  {| w_connect := []; w_send := []; w_recv := []; w_close := [];
     w_next_ws := 0; w_next_task := 0; w_tasks := []; w_trace := [] |}.

Definition conn0 : _StreamConn :=
  __init__ "key" "secret" "https://api.alpaca.markets" 3 3.

(** Every connection attempt fails in the transport. *)
Definition refused : world :=
  with_connect
    [Some (WebSocketException "handshake 1");
     Some (WebSocketException "handshake 2");
     Some (WebSocketException "handshake 3");
     Some (WebSocketException "handshake 4");
     Some (WebSocketException "handshake 5")]
    world0.

(** The first handshake is rejected; a second one would be accepted. *)
Definition rejected_once : world :=
  with_connect [None; None]
    (with_send [None; None; None]
       (with_recv [inr (Str (Some unauthorized));
                   inr (Str (Some authorized))]
          world0)).

(** The handshake is accepted, the socket then drops in the receive
    loop, and the next handshake is accepted again. *)
Definition dropped : world :=
  with_connect [None; None]
    (with_send [None; None; None; None]
       (with_recv [inr (Str (Some authorized));
                   inl (WebSocketException "connection is closed");
                   inr (Str (Some authorized))]
          (with_close [None] world0))).

(** A trade message. *)
Definition trade : json :=
  JObj [("stream", JStr "T.AAPL");
        ("data", JObj [("p", JFloat 1005 (-1)); ("s", JInt 10);
                       ("zz", JStr "unknown")])].

(** A caller subscribes, the receive task runs until the socket drops,
    and the reconnect task it scheduled runs. *)
Definition subscribe_drop_reconnect (cs : list string) : M unit :=
  subscribe 8 (PyList cs) ;;
  run_task 8 ;;
  run_task 8.

(** The same with an [unsubscribe] of the channels before the drop. *)
Definition subscribe_unsubscribe_drop_reconnect (cs : list string)
  : M unit :=
  subscribe 8 (PyList cs) ;;
  unsubscribe (PyList cs) ;;
  run_task 8 ;;
  run_task 8.
End Sample.

(** ** Further observations *)

(** The sockets handed to [close], in order. *)
Fixpoint closed (t : list event) : list nat :=
  match t with
  | [] => []
  | EvClose ws :: t' => ws :: closed t'
  | _ :: t' => closed t'
  end.

(** Two states of an object that differ at most in the fields of the
    connection: [_ws], [_retries] and [_consume_task]. *)
Definition same_settings (c c' : _StreamConn) : Prop :=
  _key_id c' = _key_id c /\
  _secret_key c' = _secret_key c /\
  _base_url c' = _base_url c /\
  _endpoint c' = _endpoint c /\
  _handlers c' = _handlers c /\
  _handler_symbols c' = _handler_symbols c /\
  _retry c' = _retry c /\
  _retry_wait c' = _retry_wait c.

Definition same_subscriptions (c c' : _StreamConn) : Prop :=
  same_settings c c' /\ _streams c' = _streams c.

(** The same, with [_streams] as it was or grown by [chans]. *)
Definition grown_by (chans : gset string) (c c' : _StreamConn) : Prop :=
  same_settings c c' /\
  (_streams c' = _streams c \/ _streams c' = _streams c ∪ chans).

(** A computation respects a relation on the object at a state. *)
Definition respects (R : _StreamConn -> _StreamConn -> Prop) {A}
  (m : M A) (s : sys) : Prop :=
  R (self s) (self (snd (m s))).

(** A computation that leaves the object as it is, whatever its outcome. *)
Definition env_only {A} (m : M A) : Prop :=
  forall s, self (snd (m s)) = self s.

(** A run in which no handler is invoked: the trace, which only grows,
    shows no new invocation.  Up to the first invocation of a handler the
    code depends on no handler, so that such a run is the same for every
    handler, whatever a handler would do with the connection. *)
Definition no_invocation {A} (m : M A) (s : sys) : Prop :=
  invoked (w_trace (env (snd (m s)))) = invoked (w_trace (env s)).

(** Events that are invocations of handlers only show nothing else. *)
Definition handlers_only (evs : list event) : Prop :=
  attempts evs = O /\ sleeps evs = [] /\ spawned evs = [] /\
  sent evs = [] /\ closed evs = [].


(** ** The decorators *)

(** [on(channel_pat, symbols)(func)] registers [func] and returns it. *)
Definition on `{Library} (channel_pat : string)
  (symbols : option (list string)) (func : handler) : M handler :=
  register channel_pat func symbols ;;
  ret func.

(** ** class StreamConn

    The object owns two [_StreamConn] objects, [trading_ws] and
    [data_ws], and a connection of the [polygon] package.  That package
    is not part of this file: its connections are a parameter, with the
    attribute [_handlers] the code reads and assigns, and the methods the
    code calls; a method returns normally ([None]) or raises, and may
    change the connection.  In a condition ([if self.polygon:]) a
    connection counts as true. *)
Class PolygonLibrary : Type := {
  polygon_conn : Type;
  polygon_StreamConn : string -> polygon_conn;
  polygon_handlers : polygon_conn -> list (string * handler);
  polygon_assign :
    list (string * handler) -> list (string * option (list string)) ->
    polygon_conn -> polygon_conn;
  polygon_connect : polygon_conn -> option exn * polygon_conn;
  polygon_subscribe : list string -> polygon_conn -> option exn * polygon_conn;
  polygon_unsubscribe :
    list string -> polygon_conn -> option exn * polygon_conn;
  polygon_close : polygon_conn -> option exn * polygon_conn;
  polygon_register :
    string -> handler -> option (list string) -> polygon_conn ->
    option exn * polygon_conn;
  polygon_deregister : string -> polygon_conn -> option exn * polygon_conn
}.

(** ['staging' in _base_url] *)
Fixpoint contains (sub s : string) : bool :=
  String.prefix sub s ||
  match s with
  | EmptyString => false
  | String _ s' => contains sub s'
  end.

Abbreviation conn_init := __init__ (only parsing).
Abbreviation conn_connect := _connect (only parsing).
Abbreviation conn_subscribe := subscribe (only parsing).
Abbreviation conn_close := close (only parsing).
Abbreviation conn_register := register (only parsing).
Abbreviation conn_deregister := deregister (only parsing).

Module StreamConn.
Section Methods.
Context `{Library} `{PolygonLibrary}.

(** The fields; [handlers] and [handler_symbols] are the attributes
    [_handlers] and [_handler_symbols] of the object. *)
Record t : Type := {
  trading_ws : option _StreamConn;
  data_ws : option _StreamConn;
  polygon : option polygon_conn;
  handlers : list (string * handler);
  handler_symbols : list (string * option (list string))
}.

(** The object and the environment its two connections share. *)
Record state : Type := {
  this : t;
  loop : world
}.

Definition MM (A : Type) : Type := state -> outcome A * state.

Definition mret {A} (a : A) : MM A := fun s => (Ret a, s).

Definition mbind {A B} (m : MM A) (k : A -> MM B) : MM B :=
  fun s =>
    match m s with
    | (Ret a, s') => k a s'
    | (Raise e, s') => (Raise e, s')
    | (Pending, s') => (Pending, s')
    | (NoFuel, s') => (NoFuel, s')
    end.

Definition mraise {A} (e : exn) : MM A := fun s => (Raise e, s).

Definition get_this : MM t := fun s => (Ret (this s), s).

Definition set_this (f : t -> t) : MM unit :=
  fun s => (Ret tt, {| this := f (this s); loop := loop s |}).

Definition set_trading_ws (c : option _StreamConn) (o : t) : t :=
  {| trading_ws := c; data_ws := data_ws o; polygon := polygon o;
     handlers := handlers o; handler_symbols := handler_symbols o |}.

Definition set_data_ws (c : option _StreamConn) (o : t) : t :=
  {| trading_ws := trading_ws o; data_ws := c; polygon := polygon o;
     handlers := handlers o; handler_symbols := handler_symbols o |}.

Definition set_polygon (p : option polygon_conn) (o : t) : t :=
  {| trading_ws := trading_ws o; data_ws := data_ws o; polygon := p;
     handlers := handlers o; handler_symbols := handler_symbols o |}.

Definition set_registry (hs : list (string * handler))
  (sy : list (string * option (list string))) (o : t) : t :=
  {| trading_ws := trading_ws o; data_ws := data_ws o; polygon := polygon o;
     handlers := hs; handler_symbols := sy |}.

(** The two attributes that hold a [_StreamConn]. *)
Inductive attribute : Type :=
| Trading_ws
| Data_ws.

Definition get_conn (a : attribute) (o : t) : option _StreamConn :=
  match a with
  | Trading_ws => trading_ws o
  | Data_ws => data_ws o
  end.

Definition set_conn (a : attribute) (c : option _StreamConn) (o : t) : t :=
  match a with
  | Trading_ws => set_trading_ws c o
  | Data_ws => set_data_ws c o
  end.

(** A method of the connection in attribute [a], run on the shared
    environment; on [None] the attribute lookup fails. *)
Definition call {A} (a : attribute) (method : string) (m : M A) : MM A :=
  fun s =>
    match get_conn a (this s) with
    | None => (Raise (AttributeError method), s)
    | Some c =>
        let r := m {| self := c; env := loop s |} in
        (fst r,
         {| this := set_conn a (Some (self (snd r))) (this s);
            loop := env (snd r) |})
    end.

(** A method of the polygon connection. *)
Definition call_polygon (method : string)
  (m : polygon_conn -> option exn * polygon_conn) : MM unit :=
  fun s =>
    match polygon (this s) with
    | None => (Raise (AttributeError method), s)
    | Some p =>
        let r := m p in
        (match fst r with
         | Some e => Raise e
         | None => Ret tt
         end,
         {| this := set_polygon (Some (snd r)) (this s); loop := loop s |})
    end.

Declare Scope mux_scope.
Delimit Scope mux_scope with mux.
Notation "x <- m ;; k" := (mbind m (fun x => k))
  (at level 100, m at next level, right associativity) : mux_scope.
Notation "m ;; k" := (mbind m (fun _ => k))
  (at level 100, right associativity) : mux_scope.
Local Open Scope mux_scope.

(** [_key_id + '-staging' if 'staging' in _base_url else '']: the
    conditional expression binds weaker than [+]. *)
Definition polygon_key (key_id base_url : string) : string :=
  if contains "staging" base_url then (key_id ++ "-staging")%string
  else ""%string.

(** [__init__], on the credentials and URLs it has resolved. *)
Definition __init__ (key_id secret_key base_url data_url : string)
  (retry retry_wait : Z) : t :=
  {| trading_ws := Some (conn_init key_id secret_key base_url retry retry_wait);
     data_ws := Some (conn_init key_id secret_key data_url retry retry_wait);
     polygon := Some (polygon_StreamConn (polygon_key key_id base_url));
     handlers := [];
     handler_symbols := [] |}.

(** [_ensure_ws(conn)] for a [_StreamConn]: a connection that holds
    handlers is left alone; otherwise it receives a copy of the registry
    and is connected. *)
Definition _ensure_ws (a : attribute) : MM unit :=
  o <- get_this ;;
  match get_conn a o with
  | None => mraise (AttributeError "_handlers")
  | Some c =>
      match _handlers c with
      | _ :: _ => mret tt
      | [] =>
          set_this
            (set_conn a
               (Some (set_handler_symbols (handler_symbols o)
                        (set_handlers (handlers o) c)))) ;;
          call a "_connect" conn_connect
      end
  end.

(** [_ensure_ws(self.polygon)] *)
Definition _ensure_polygon : MM unit :=
  o <- get_this ;;
  match polygon o with
  | None => mraise (AttributeError "_handlers")
  | Some p =>
      match polygon_handlers p with
      | _ :: _ => mret tt
      | [] =>
          set_this
            (set_polygon
               (Some (polygon_assign (handlers o) (handler_symbols o) p))) ;;
          call_polygon "connect" polygon_connect
      end
  end.

Definition subscribe (fuel : nat) (channels : list string) : MM unit :=
  let '(trading_channels, data_channels, polygon_channels) :=
    partition_channels channels in
  match trading_channels with
  | _ :: _ =>
      _ensure_ws Trading_ws ;;
      call Trading_ws "subscribe"
        (conn_subscribe fuel (PyList trading_channels))
  | [] => mret tt
  end ;;
  match data_channels with
  | _ :: _ =>
      _ensure_ws Data_ws ;;
      call Data_ws "subscribe" (conn_subscribe fuel (PyList data_channels))
  | [] => mret tt
  end ;;
  match polygon_channels with
  | _ :: _ =>
      _ensure_polygon ;;
      call_polygon "subscribe" (polygon_subscribe polygon_channels)
  | [] => mret tt
  end.

Definition unsubscribe (channels : list string) : MM unit :=
  match unsubscribe_channels channels with
  | _ :: _ as polygon_channels =>
      call_polygon "unsubscribe" (polygon_unsubscribe polygon_channels)
  | [] => mret tt
  end.

Definition close : MM unit :=
  o <- get_this ;;
  match trading_ws o with
  | Some _ =>
      call Trading_ws "close" conn_close ;;
      set_this (set_trading_ws None)
  | None => mret tt
  end ;;
  o <- get_this ;;
  match data_ws o with
  | Some _ =>
      call Data_ws "close" conn_close ;;
      set_this (set_data_ws None)
  | None => mret tt
  end ;;
  o <- get_this ;;
  match polygon o with
  | Some _ =>
      call_polygon "close" polygon_close ;;
      set_this (set_polygon None)
  | None => mret tt
  end.

(** [if self.trading_ws: self.trading_ws.m(...)] *)
Definition when_conn (a : attribute) (method : string) (m : M unit)
  : MM unit :=
  o <- get_this ;;
  match get_conn a o with
  | Some _ => call a method m
  | None => mret tt
  end.

Definition when_polygon (method : string)
  (m : polygon_conn -> option exn * polygon_conn) : MM unit :=
  o <- get_this ;;
  match polygon o with
  | Some _ => call_polygon method m
  | None => mret tt
  end.

Definition register (channel_pat : string) (func : handler)
  (symbols : option (list string)) : MM unit :=
  (if h_coroutine func then mret tt
   else mraise (ValueError NotACoroutine)) ;;
  (if re_valid channel_pat then mret tt
   else mraise (ReError channel_pat)) ;;
  set_this (fun o =>
    set_registry (dict_set channel_pat func (handlers o))
      (dict_set (h_name func) symbols (handler_symbols o)) o) ;;
  when_conn Trading_ws "register"
    (conn_register channel_pat func symbols) ;;
  when_conn Data_ws "register" (conn_register channel_pat func symbols) ;;
  when_polygon "register" (polygon_register channel_pat func symbols).

Definition deregister (channel_pat : string) : MM unit :=
  (if re_valid channel_pat then mret tt
   else mraise (ReError channel_pat)) ;;
  o <- get_this ;;
  match dict_get channel_pat (handlers o) with
  | None => mraise (KeyError channel_pat)
  | Some func =>
      set_this
        (set_registry (dict_del channel_pat (handlers o))
           (dict_del (h_name func) (handler_symbols o))) ;;
      when_conn Trading_ws "deregister" (conn_deregister channel_pat) ;;
      when_conn Data_ws "deregister" (conn_deregister channel_pat) ;;
      when_polygon "deregister" (polygon_deregister channel_pat)
  end.

(** [on(channel_pat, symbols)(func)] *)
Definition on (channel_pat : string) (symbols : option (list string))
  (func : handler) : MM handler :=
  register channel_pat func symbols ;;
  mret func.

(** The registry of the object and the registries of its two
    connections hold the same entries. *)
Definition synced (o : t) : Prop :=
  forall a c, get_conn a o = Some c ->
    _handlers c = handlers o /\ _handler_symbols c = handler_symbols o.

(** A run of a method of the object in which no handler is invoked. *)
Definition no_invocation {A} (m : MM A) (s : state) : Prop :=
  invoked (w_trace (loop (snd (m s)))) = invoked (w_trace (loop s)).
End Methods.
End StreamConn.

(** ** A sample polygon connection

    A connection that records the calls made to it and accepts them
    all. *)
Module SamplePolygon.
Record conn : Type := {
  p_handlers : list (string * handler);
  p_calls : list string
}.

Definition called (name : string) (p : conn) : option exn * conn :=
  (None, {| p_handlers := p_handlers p;
            p_calls := (p_calls p ++ [name])%list |}).

#[local] Instance library : PolygonLibrary := {|
  polygon_conn := conn;
  polygon_StreamConn := fun _ => {| p_handlers := []; p_calls := [] |};
  polygon_handlers := p_handlers;
  polygon_assign := fun hs _ p =>
    {| p_handlers := hs; p_calls := p_calls p |};
  polygon_connect := called "connect";
  polygon_subscribe := fun _ => called "subscribe";
  polygon_unsubscribe := fun _ => called "unsubscribe";
  polygon_close := called "close";
  polygon_register := fun pat func _ p =>
    (None, {| p_handlers := dict_set pat func (p_handlers p);
              p_calls := (p_calls p ++ ["register"])%list |});
  polygon_deregister := fun pat p =>
    (None, {| p_handlers := dict_del pat (p_handlers p);
              p_calls := (p_calls p ++ ["deregister"])%list |})
|}.
End SamplePolygon.

(** ** Sample objects *)
Module SampleMux.
#[local] Existing Instance Sample.library.
#[local] Existing Instance SamplePolygon.library.

(** A new object. *)
Definition fresh : StreamConn.t :=
  StreamConn.__init__ "key" "secret" "https://api.alpaca.markets"
    "https://data.alpaca.markets" 3 3.

(** An object with one handler registered and both connections
    connected, on sockets 0 and 1. *)
Definition registry : list (string * handler) :=
  [(".*", Sample.quiet "any")].

Definition symbols : list (string * option (list string)) :=
  [("any", None)].

Definition connected (ws : nat) (c : _StreamConn) : _StreamConn :=
  set_ws (Some ws) (set_handler_symbols symbols (set_handlers registry c)).

Definition running : StreamConn.t :=
  {| StreamConn.trading_ws :=
       option_map (connected 0) (StreamConn.trading_ws fresh);
     StreamConn.data_ws :=
       option_map (connected 1) (StreamConn.data_ws fresh);
     StreamConn.polygon := StreamConn.polygon fresh;
     StreamConn.handlers := registry;
     StreamConn.handler_symbols := symbols |}.
End SampleMux.

(** ** Sample runs without a handler of the handshake *)
Module SampleQuiet.
#[local] Existing Instance Sample.library.
#[local] Existing Instance SamplePolygon.library.

(** A connection with a handler for the trades: no pattern of its
    registry matches [authorized]. *)
Definition trades_only : _StreamConn :=
  set_handler_symbols [("trades", None)]
    (set_handlers [("T\..*", Sample.quiet "trades")] Sample.conn0).

(** The handshake is accepted, a trade arrives on a channel without a
    handler, and the socket then drops. *)
Definition accepted : world :=
  with_connect [None]
    (with_send [None; None]
       (with_recv [inr (Str (Some Sample.authorized));
                   inr (Str (Some (JObj [("stream", JStr "Q.AAPL")])));
                   inl (WebSocketException "connection is closed")]
          (with_close [None] Sample.world0))).

(** A message arrives on a channel without a handler, and the socket
    then drops. *)
Definition arriving : world :=
  with_recv [inr (Str (Some (JObj [("stream", JStr "Q.AAPL")])));
             inl (WebSocketException "connection is closed")]
    (with_close [None] Sample.world0).

(** An object with that registry whose connections are not connected. *)
Definition waiting : StreamConn.t :=
  {| StreamConn.trading_ws := Some trades_only;
     StreamConn.data_ws :=
       Some (set_handler_symbols [("trades", None)]
               (set_handlers [("T\..*", Sample.quiet "trades")]
                  (__init__ "key" "secret" "https://data.alpaca.markets"
                     3 3)));
     StreamConn.polygon := StreamConn.polygon SampleMux.fresh;
     StreamConn.handlers := [("T\..*", Sample.quiet "trades")];
     StreamConn.handler_symbols := [("trades", None)] |}.
End SampleQuiet.

(** * Properties *)

Local Open Scope list_scope.

(** ** The channel classifier *)

Lemma prefix_cons (a : ascii) (p s : string) :
  String.prefix (String a p) s = true ->
  exists s', s = String a s' /\ String.prefix p s' = true.
Proof.
  destruct s as [|b s']; simpl; [discriminate|].
  destruct (Ascii.ascii_dec a b) as [->|]; [|discriminate].
  intros Hp. exists s'. split; [reflexivity|exact Hp].
Qed.

(** A feed channel is never one of the two account channels. *)
Lemma feed_prefix_not_named (c : string) :
  String.prefix "Q." c || String.prefix "T." c
  || String.prefix "A." c || String.prefix "AM." c = true ->
  String.eqb c "trade_updates" = false /\
  String.eqb c "account_updates" = false.
Proof.
  intros Hp.
  repeat (apply orb_true_iff in Hp; destruct Hp as [Hp|Hp]);
    apply prefix_cons in Hp; destruct Hp as (c1 & -> & Hp);
    apply prefix_cons in Hp; destruct Hp as (c2 & -> & Hp);
    split; reflexivity.
Qed.

(** The three lists of [StreamConn.subscribe] are the channels of each
    destination, in the order of the argument. *)
Lemma partition_channels_spec (cs : list string) :
  partition_channels cs =
  (List.filter (fun c => match classify c with Trading => true | _ => false end) cs,
   List.filter (fun c => match classify c with Data => true | _ => false end) cs,
   List.filter (fun c => match classify c with Polygon => true | _ => false end) cs).
Proof.
  unfold partition_channels.
  enough (Hgen : forall t d p,
    fold_left
      (fun acc c =>
         let '(trading, data, polygon) := acc in
         match classify c with
         | Polygon => (trading, data, polygon ++ [c])
         | Trading => (trading ++ [c], data, polygon)
         | Data => (trading, data ++ [c], polygon)
         end) cs (t, d, p) =
    (t ++ List.filter (fun c => match classify c with Trading => true | _ => false end) cs,
     d ++ List.filter (fun c => match classify c with Data => true | _ => false end) cs,
     p ++ List.filter (fun c => match classify c with Polygon => true | _ => false end) cs))
    by apply (Hgen [] [] []).
  induction cs as [|c cs IH]; intros t d p; simpl.
  - rewrite !app_nil_r. reflexivity.
  - destruct (classify c); rewrite IH, <- ?app_assoc; reflexivity.
Qed.

(** The branch of the loop is a total and deterministic function of the
    channel name: every name has exactly one destination, which is the
    polygon feed exactly for the names that start with [Q.], [T.], [A.]
    or [AM.], the trading connection exactly for the two names
    [trade_updates] and [account_updates], and the data connection for
    every other name. *)
Lemma classify_total (c : string) :
  (exists ! d, classify c = d) /\
  (classify c = Polygon <->
     String.prefix "Q." c = true \/ String.prefix "T." c = true \/
     String.prefix "A." c = true \/ String.prefix "AM." c = true) /\
  (classify c = Trading <-> c = "trade_updates" \/ c = "account_updates") /\
  (classify c = Data <->
     String.prefix "Q." c = false /\ String.prefix "T." c = false /\
     String.prefix "A." c = false /\ String.prefix "AM." c = false /\
     c <> "trade_updates" /\ c <> "account_updates").
Proof.
  split; [exists (classify c); split; [reflexivity|intros d Hd; exact Hd]|].
  pose proof (feed_prefix_not_named c) as Hfeed.
  unfold classify.
  destruct (String.prefix "Q." c) eqn:HQ, (String.prefix "T." c) eqn:HT,
    (String.prefix "A." c) eqn:HA, (String.prefix "AM." c) eqn:HAM;
    simpl in *;
    try (destruct (Hfeed eq_refl) as [Ht Ha];
         apply String.eqb_neq in Ht; apply String.eqb_neq in Ha;
         repeat split; intros; try discriminate; try tauto;
         intuition congruence).
  clear Hfeed.
  destruct (String.eqb c "trade_updates") eqn:Ht;
    destruct (String.eqb c "account_updates") eqn:Ha; simpl;
    rewrite ?String.eqb_eq, ?String.eqb_neq in *;
    repeat split; intros; try discriminate; try tauto;
    intuition congruence.
Qed.

(** ** Dictionaries *)

Section DictFacts.
Context {V : Type}.
Implicit Types (d : list (string * V)) (k : string) (v : V).

Lemma dict_get_set_eq k v d : dict_get k (dict_set k v d) = Some v.
Proof.
  induction d as [|[k' v'] d IH]; simpl.
  - rewrite String.eqb_refl. reflexivity.
  - destruct (String.eqb k k') eqn:E; simpl; rewrite ?String.eqb_refl, ?E;
      [reflexivity|exact IH].
Qed.

Lemma dict_get_set_ne k k' v d :
  k <> k' -> dict_get k' (dict_set k v d) = dict_get k' d.
Proof.
  intros Hne. induction d as [|[k0 v0] d IH]; simpl.
  - apply not_eq_sym, String.eqb_neq in Hne. rewrite Hne. reflexivity.
  - destruct (String.eqb k k0) eqn:E; simpl.
    + apply String.eqb_eq in E; subst k0.
      apply not_eq_sym, String.eqb_neq in Hne. rewrite Hne. reflexivity.
    + rewrite IH. reflexivity.
Qed.


(** Assigning to a key that is present keeps the order of the keys. *)
Lemma dict_keys_set_present k v d :
  In k (dict_keys d) -> dict_keys (dict_set k v d) = dict_keys d.
Proof.
  induction d as [|[k' v'] d IH]; simpl; intros Hk; [tauto|].
  destruct (String.eqb k k') eqn:E; simpl.
  - apply String.eqb_eq in E. congruence.
  - apply String.eqb_neq in E. rewrite IH; [reflexivity|].
    destruct Hk as [Hk|Hk]; [congruence|exact Hk].
Qed.
End DictFacts.

(** ** The entity caster *)

Section RenameFacts.
Implicit Types (mapping : list (string * string))
  (kv acc : list (string * json)).

(** A field of the result holds the value of a raw key the table
    renames to it. *)
Lemma rename_sound mapping kv acc k' v :
  dict_get k' (fold_left (rename_step mapping) kv acc) = Some v ->
  dict_get k' acc = Some v \/
  exists k, dict_get k mapping = Some k' /\ In (k, v) kv.
Proof.
  revert acc. induction kv as [|[k0 v0] kv IH]; simpl; intros acc Hg.
  - left. exact Hg.
  - apply IH in Hg. destruct Hg as [Hg|(k & Hk & Hin)].
    + unfold rename_step in Hg. simpl in Hg.
      destruct (dict_get k0 mapping) as [k1|] eqn:Hm; [|left; exact Hg].
      destruct (String.eqb_spec k1 k') as [->|Hne].
      * rewrite dict_get_set_eq in Hg. injection Hg as <-.
        right. exists k0. split; [exact Hm|left; reflexivity].
      * rewrite dict_get_set_ne in Hg by exact Hne. left. exact Hg.
    + right. exists k. split; [exact Hk|right; exact Hin].
Qed.

Lemma rename_keeps mapping kv acc k' :
  dict_mem k' acc = true ->
  dict_mem k' (fold_left (rename_step mapping) kv acc) = true.
Proof.
  revert acc. induction kv as [|[k0 v0] kv IH]; simpl; intros acc Hm;
    [exact Hm|].
  apply IH. unfold rename_step. simpl.
  destruct (dict_get k0 mapping) as [k1|]; [|exact Hm].
  unfold dict_mem in *.
  destruct (String.eqb_spec k1 k') as [->|Hne].
  - rewrite dict_get_set_eq. reflexivity.
  - rewrite dict_get_set_ne by exact Hne. exact Hm.
Qed.

(** A raw key of the table populates the field it is renamed to. *)
Lemma rename_populates mapping kv acc k v k' :
  In (k, v) kv -> dict_get k mapping = Some k' ->
  dict_mem k' (fold_left (rename_step mapping) kv acc) = true.
Proof.
  revert acc. induction kv as [|[k0 v0] kv IH]; simpl; intros acc Hin Hk;
    [tauto|].
  destruct Hin as [Heq|Hin].
  - injection Heq as -> ->. apply rename_keeps.
    unfold rename_step, dict_mem. simpl. rewrite Hk, dict_get_set_eq.
    reflexivity.
  - apply IH; assumption.
Qed.

(** A field no raw key is renamed to stays as it was. *)
Lemma rename_unset mapping kv acc k' :
  (forall k v, In (k, v) kv -> dict_get k mapping <> Some k') ->
  dict_get k' (fold_left (rename_step mapping) kv acc) = dict_get k' acc.
Proof.
  revert acc. induction kv as [|[k0 v0] kv IH]; simpl; intros acc Hno;
    [reflexivity|].
  rewrite IH by (intros k v Hin; apply (Hno k v); right; exact Hin).
  unfold rename_step. simpl.
  destruct (dict_get k0 mapping) as [k1|] eqn:Hm; [|reflexivity].
  apply dict_get_set_ne. intros ->.
  apply (Hno k0 v0); [left; reflexivity|exact Hm].
Qed.
End RenameFacts.

Lemma trade_channel_not_account (channel : string) :
  String.prefix "T." channel = true ->
  String.eqb channel "account_updates" = false.
Proof.
  intros Hp. apply feed_prefix_not_named. rewrite Hp.
  rewrite orb_true_r. reflexivity.
Qed.

(** C8: on a channel whose name starts with [T.], casting a raw body (a
    dictionary) never raises and produces a [Trade] whose fields are the
    comprehension over the trade table: every field holds the value of a
    raw key that the table renames to it, every raw key of the table
    populates its renamed field, raw keys the table does not have are
    dropped, and a field no raw key is renamed to is unset. *)
Theorem cast_trade `{Library} (channel : string) (kv : list (string * json)) :
  String.prefix "T." channel = true ->
  exists fields,
    _cast channel (JObj kv) = inr (Trade fields) /\
    fields = rename trade_mapping kv /\
    (forall k' v, dict_get k' fields = Some v ->
       exists k, dict_get k trade_mapping = Some k' /\ In (k, v) kv) /\
    (forall k v k', In (k, v) kv -> dict_get k trade_mapping = Some k' ->
       dict_mem k' fields = true) /\
    (forall k', (forall k v, In (k, v) kv ->
                   dict_get k trade_mapping <> Some k') ->
       dict_get k' fields = None).
Proof.
  intros Hp. exists (rename trade_mapping kv).
  split; [|split; [reflexivity|]].
  - unfold _cast. rewrite (trade_channel_not_account channel Hp), Hp.
    reflexivity.
  - unfold rename.
    split; [|split].
    + intros k' v Hg. apply rename_sound in Hg.
      destruct Hg as [Hg|Hg]; [discriminate|exact Hg].
    + intros k v k' Hin Hk. eapply rename_populates; eassumption.
    + intros k' Hno. rewrite rename_unset by exact Hno. reflexivity.
Qed.

(** ** close *)

Ltac unfold_monad :=
  unfold bind, ret, raise, lift, get_self, set_self, set_env, emit, await,
    completes, try_except, no_fuel in *.

(** C10: in every state and whatever the socket answers, [close] leaves
    [_streams], [_handlers] and [_handler_symbols] as they were; the only
    field of the object it can change is [_ws], which it sets to [None]. *)
Theorem close_frame (s : sys) :
  let s' := snd (close s) in
  _streams (self s') = _streams (self s) /\
  _handlers (self s') = _handlers (self s) /\
  _handler_symbols (self s') = _handler_symbols (self s) /\
  (self s' = self s \/ self s' = set_ws None (self s)).
Proof.
  destruct s as [c w]. unfold close, task_cancel, ws_close. unfold_monad.
  simpl.
  destruct (_consume_task c) as [t|], (_ws c) as [ws|]; simpl;
    try (destruct (w_close w) as [|[e|] l]; simpl);
    repeat split; auto.
Qed.

(** ** Traces *)

Section TraceFacts.
Implicit Types (a b : list event).

Lemma sleeps_app a b : sleeps (a ++ b) = sleeps a ++ sleeps b.
Proof.
  induction a as [|e a IH]; simpl; [reflexivity|].
  destruct e; simpl; rewrite IH; reflexivity.
Qed.

Lemma attempts_app a b : attempts (a ++ b) = (attempts a + attempts b)%nat.
Proof.
  induction a as [|e a IH]; simpl; [reflexivity|].
  destruct e; simpl; rewrite IH; reflexivity.
Qed.

Lemma invoked_app a b : invoked (a ++ b) = invoked a ++ invoked b.
Proof.
  induction a as [|e a IH]; simpl; [reflexivity|].
  destruct e; simpl; rewrite IH; reflexivity.
Qed.

Lemma sent_app a b : sent (a ++ b) = sent a ++ sent b.
Proof.
  induction a as [|e a IH]; simpl; [reflexivity|].
  destruct e; simpl; rewrite IH; reflexivity.
Qed.

Lemma spawned_app a b : spawned (a ++ b) = spawned a ++ spawned b.
Proof.
  induction a as [|e a IH]; simpl; [reflexivity|].
  destruct e; simpl; rewrite IH; reflexivity.
Qed.

Lemma traced_nil (w : world) : traced [] w = w.
Proof. destruct w. unfold traced. simpl. rewrite app_nil_r. reflexivity. Qed.

Lemma traced_traced a b (w : world) :
  traced b (traced a w) = traced (a ++ b) w.
Proof. unfold traced. simpl. rewrite app_assoc. reflexivity. Qed.

Lemma sys_eta (s : sys) : {| self := self s; env := env s |} = s.
Proof. destruct s. reflexivity. Qed.
End TraceFacts.

(** ** The authentication handshake *)

Section Connect.
Context `{Library}.

(** The run of [_connect] on a reply that is not an authorization: the
    socket is opened, the request sent, the reply read, and the call
    raises with the object untouched. *)
Lemma connect_rejected_run (s : sys) cs ss rs f msg data status :
  w_connect (env s) = None :: cs ->
  w_send (env s) = None :: ss ->
  w_recv (env s) = inr f :: rs ->
  loads f = inr msg ->
  json_get msg "data" (JObj []) = inr data ->
  json_get data "status" JNull = inr status ->
  json_ne_str status "authorized" = true ->
  _connect s =
    (Raise (ValueError (InvalidCredentials msg)),
     {| self := self s;
        env :=
          traced [EvRecv (w_next_ws (env s))]
            (with_recv rs
               (traced [EvSend (w_next_ws (env s))
                          (authenticate_request (self s))]
                  (with_send ss
                     (with_next_ws (S (w_next_ws (env s)))
                        (with_connect cs
                           (traced [EvConnect (_endpoint (self s))]
                              (env s))))))) |}).
Proof.
  intros Hc Hs Hr Hl Hd Hst Hne.
  destruct s as [c w]. simpl in *.
  unfold _connect, websockets_connect, ws_send, ws_recv. unfold_monad.
  repeat (simpl; first [rewrite Hc|rewrite Hs|rewrite Hr|rewrite Hl
                       |rewrite Hd|rewrite Hst|rewrite Hne]).
  reflexivity.
Qed.

(** C3: when the reply frame read by [_connect] carries a [data.status]
    that is not [authorized], [_connect] raises the [ValueError] of
    invalid credentials and the object is as it was before the call: [_ws]
    is not set, [_retries] is not reset, [_consume_task] is not set and no
    receive task is scheduled, and no handler of the registry is invoked
    (the [authorized] event is not dispatched). *)
Theorem connect_rejected (s : sys) cs ss rs f msg data status :
  w_connect (env s) = None :: cs ->
  w_send (env s) = None :: ss ->
  w_recv (env s) = inr f :: rs ->
  loads f = inr msg ->
  json_get msg "data" (JObj []) = inr data ->
  json_get data "status" JNull = inr status ->
  json_ne_str status "authorized" = true ->
  let r := _connect s in
  fst r = Raise (ValueError (InvalidCredentials msg)) /\
  self (snd r) = self s /\
  (_ws (self s) = None -> _ws (self (snd r)) = None) /\
  _retries (self (snd r)) = _retries (self s) /\
  _consume_task (self (snd r)) = _consume_task (self s) /\
  w_tasks (env (snd r)) = w_tasks (env s) /\
  spawned (w_trace (env (snd r))) = spawned (w_trace (env s)) /\
  invoked (w_trace (env (snd r))) = invoked (w_trace (env s)).
Proof.
  intros Hc Hs Hr Hl Hd Hst Hne r. subst r.
  rewrite (connect_rejected_run s cs ss rs f msg data status)
    by assumption.
  simpl. repeat split; try tauto.
  - rewrite !spawned_app. simpl. rewrite !app_nil_r. reflexivity.
  - rewrite !invoked_app. simpl. rewrite !app_nil_r. reflexivity.
Qed.
End Connect.

(** ** Dispatch *)

Section Dispatch.
Context `{Library}.

(** When no matching handler raises, the dispatch of one message invokes
    the handlers of all matching patterns, each once, in the order of the
    registry, and changes nothing but the trace. *)
Lemma dispatch_items_ok hs channel msg data ent (s : sys) :
  json_item msg "data" = inr data ->
  _cast channel data = inr ent ->
  (forall ph, In ph (matching hs channel) ->
     h_raises (snd ph) channel ent = None) ->
  dispatch_items hs channel msg s =
    (Ret tt,
     {| self := self s;
        env := traced (map (invocation channel ent) (matching hs channel))
                 (env s) |}).
Proof.
  intros Hd Hc. revert s.
  induction hs as [|[pat h] hs IH]; intros s Hok; simpl.
  - rewrite traced_nil, sys_eta. reflexivity.
  - unfold matching in *. simpl in *.
    destruct (re_match pat channel) eqn:Hm.
    + assert (Hh : h_raises h channel ent = None)
        by (apply (Hok (pat, h)); left; reflexivity).
      unfold call_handler. unfold_monad. rewrite Hd. simpl.
      rewrite Hc. simpl. rewrite Hh.
      rewrite IH by (intros ph Hin; apply Hok; right; exact Hin).
      simpl. rewrite traced_traced. reflexivity.
    + unfold_monad. apply IH. exact Hok.
Qed.

(** When a matching handler raises, the handlers registered after it are
    not invoked and the exception leaves the dispatch. *)
Lemma dispatch_items_raise pre pat h post channel msg data ent e (s : sys) :
  json_item msg "data" = inr data ->
  _cast channel data = inr ent ->
  (forall ph, In ph (matching pre channel) ->
     h_raises (snd ph) channel ent = None) ->
  re_match pat channel = true ->
  h_raises h channel ent = Some e ->
  dispatch_items (pre ++ (pat, h) :: post) channel msg s =
    (Raise e,
     {| self := self s;
        env := traced (map (invocation channel ent) (matching pre channel)
                       ++ [EvInvoke (h_name h) channel ent])
                 (env s) |}).
Proof.
  intros Hd Hc Hok Hm He. revert s.
  induction pre as [|[pat' h'] pre IH]; intros s; simpl.
  - unfold call_handler. unfold_monad. rewrite Hm, Hd. simpl.
    rewrite Hc. simpl. rewrite He. reflexivity.
  - unfold matching in *. simpl in *.
    destruct (re_match pat' channel) eqn:Hm'.
    + assert (Hh : h_raises h' channel ent = None)
        by (apply (Hok (pat', h')); left; reflexivity).
      unfold call_handler. unfold_monad. rewrite Hd. simpl.
      rewrite Hc. simpl. rewrite Hh.
      rewrite IH by (intros ph Hin; apply Hok; right; exact Hin).
      simpl. rewrite traced_traced. reflexivity.
    + unfold_monad. apply IH. exact Hok.
Qed.

(** *** Registration *)

Lemma register_run channel_pat func symbols (s : sys) :
  h_coroutine func = true ->
  re_valid channel_pat = true ->
  register channel_pat func symbols s =
    (Ret tt,
     {| self :=
          set_handler_symbols
            (dict_set (h_name func) symbols (_handler_symbols (self s)))
            (set_handlers
               (dict_set channel_pat func (_handlers (self s))) (self s));
        env := env s |}).
Proof.
  intros Hco Hre. unfold register. unfold_monad. rewrite Hco, Hre.
  reflexivity.
Qed.

(** Registering a pattern that is present replaces its handler and keeps
    the position of the pattern in the registry. *)
Lemma register_again_keeps_order channel_pat func symbols (s : sys) :
  h_coroutine func = true ->
  re_valid channel_pat = true ->
  In channel_pat (dict_keys (_handlers (self s))) ->
  let s' := snd (register channel_pat func symbols s) in
  dict_keys (_handlers (self s')) = dict_keys (_handlers (self s)) /\
  dict_get channel_pat (_handlers (self s')) = Some func.
Proof.
  intros Hco Hre Hin. rewrite register_run by assumption. simpl.
  split; [apply dict_keys_set_present; exact Hin|apply dict_get_set_eq].
Qed.




(** C5, as the code has it: an exception raised by a matched handler ends
    the dispatch of the message.  The matched handlers registered before
    it were invoked, it was invoked, no handler registered after it is
    invoked, and the exception is raised to the caller of [_dispatch]. *)
Theorem dispatch_stops_at_failure (s : sys) pre pat h post
  channel msg data ent e :
  _handlers (self s) = pre ++ (pat, h) :: post ->
  json_item msg "data" = inr data ->
  _cast channel data = inr ent ->
  (forall ph, In ph (matching pre channel) ->
     h_raises (snd ph) channel ent = None) ->
  re_match pat channel = true ->
  h_raises h channel ent = Some e ->
  let r := _dispatch channel msg s in
  fst r = Raise e /\
  self (snd r) = self s /\
  w_trace (env (snd r)) =
    w_trace (env s) ++
    map (invocation channel ent) (matching pre channel) ++
    [EvInvoke (h_name h) channel ent].
Proof.
  intros Hhs Hd Hc Hok Hm He r. subst r.
  unfold _dispatch. unfold_monad. rewrite Hhs.
  rewrite (dispatch_items_raise pre pat h post channel msg data ent e s)
    by assumption.
  simpl. repeat split.
Qed.
End Dispatch.

(** ** The reconnect loop *)

Section Reconnect.
Context `{Library}.

Lemma ensure_ws_S fuel (s : sys) :
  _ensure_ws (S fuel) s =
  match _ws (self s) with
  | Some _ => (Ret tt, s)
  | None => while_retries fuel s
  end.
Proof. simpl. unfold_monad. destruct (_ws (self s)); reflexivity. Qed.

Lemma while_retries_S fuel (s : sys) :
  while_retries (S fuel) s =
  if _retries (self s) <=? _retry (self s) then
    match attempt (subscribe fuel) s with
    | (Ret true, s') => (Ret tt, s')
    | (Ret false, s') => while_retries fuel s'
    | (Raise e, s') => (Raise e, s')
    | (Pending, s') => (Pending, s')
    | (NoFuel, s') => (NoFuel, s')
    end
  else (Raise (ConnectionError "Max Retries Exceeded"), s).
Proof.
  simpl. unfold_monad.
  destruct (_retries (self s) <=? _retry (self s)); [|reflexivity].
  destruct (attempt (subscribe fuel) s) as [[[|]| | |] s']; reflexivity.
Qed.

Lemma attempt_transport_failure resubscribe (s : sys) why cs :
  w_connect (env s) = Some (WebSocketException why) :: cs ->
  attempt resubscribe s =
    (Ret false,
     {| self := set_retries (_retries (self s) + 1) (set_ws None (self s));
        env := traced [EvConnect (_endpoint (self s));
                       EvWarn (WebSocketException why);
                       EvSleep (_retry_wait (self s) * _retry (self s))]
                 (with_connect cs (env s)) |}).
Proof.
  intros Hc. destruct s as [c w]. simpl in *.
  unfold attempt, _connect, websockets_connect, logging_warn, asyncio_sleep.
  unfold_monad. simpl. rewrite Hc. simpl.
  unfold traced, with_connect. simpl. rewrite <- !app_assoc. reflexivity.
Qed.

Lemma while_retries_all_fail (es : list string) :
  forall fuel (s : sys) rest,
  w_connect (env s) =
    map (fun why => Some (WebSocketException why)) es ++ rest ->
  _retries (self s) + Z.of_nat (length es) = _retry (self s) + 1 ->
  (length es < fuel)%nat ->
  exists c',
    while_retries fuel s =
      (Raise (ConnectionError "Max Retries Exceeded"),
       {| self := c';
          env := traced
                   (flat_map
                      (fun why =>
                         [EvConnect (_endpoint (self s));
                          EvWarn (WebSocketException why);
                          EvSleep (_retry_wait (self s) * _retry (self s))])
                      es)
                   (with_connect rest (env s)) |}) /\
    _retries c' = _retry (self s) + 1 /\
    _streams c' = _streams (self s) /\
    _handlers c' = _handlers (self s).
Proof.
  induction es as [|why es IH]; intros fuel s rest Hc Hr Hf;
    (destruct fuel as [|fuel]; [simpl in Hf; lia|]);
    rewrite while_retries_S; simpl in *.
  - replace (_retries (self s) <=? _retry (self s)) with false
      by (symmetry; apply Z.leb_gt; lia).
    exists (self s). rewrite traced_nil. subst rest.
    destruct s as [c w]; destruct w; simpl in *. repeat split; lia.
  - replace (_retries (self s) <=? _retry (self s)) with true
      by (symmetry; apply Z.leb_le; lia).
    rewrite (attempt_transport_failure _ s why _ Hc).
    match goal with
    | |- context [while_retries fuel ?st] =>
        destruct (IH fuel st rest) as (c' & Hrun & Hret & Hst & Hhs);
        [reflexivity|simpl; lia|lia|]
    end.
    exists c'. rewrite Hrun. simpl in *. repeat split; try assumption.
    unfold traced, with_connect. simpl. rewrite <- !app_assoc. reflexivity.
Qed.

Lemma json_item_get msg k v default :
  json_item msg k = inr v -> json_get msg k default = inr v.
Proof.
  destruct msg; simpl; try discriminate.
  destruct (dict_get k kv); [tauto|discriminate].
Qed.

Lemma connect_authorized_run (s : sys) cs ss rs f msg data :
  w_connect (env s) = None :: cs ->
  w_send (env s) = None :: ss ->
  w_recv (env s) = inr f :: rs ->
  loads f = inr msg ->
  json_item msg "data" = inr data ->
  json_get data "status" JNull = inr (JStr "authorized") ->
  (forall ph, In ph (matching (_handlers (self s)) "authorized") ->
     h_raises (snd ph) "authorized" (Entity data) = None) ->
  _connect s =
    (Ret tt,
     {| self := set_consume_task (Some (w_next_task (env s)))
                  (set_ws (Some (w_next_ws (env s)))
                     (set_retries 0 (self s)));
        env :=
          traced [EvSpawn (w_next_task (env s)) ConsumeMsg]
            (with_tasks (S (w_next_task (env s)))
               (w_tasks (env s) ++ [(w_next_task (env s), ConsumeMsg)])
               (traced
                  (map (invocation "authorized" (Entity data))
                     (matching (_handlers (self s)) "authorized"))
                  (traced [EvRecv (w_next_ws (env s))]
                     (with_recv rs
                        (traced [EvSend (w_next_ws (env s))
                                   (authenticate_request (self s))]
                           (with_send ss
                              (with_next_ws (S (w_next_ws (env s)))
                                 (with_connect cs
                                    (traced [EvConnect (_endpoint (self s))]
                                       (env s)))))))))) |}).
Proof.
  intros Hc Hs Hr Hl Hd Hst Hok.
  pose proof (json_item_get msg "data" data (JObj []) Hd) as Hg.
  destruct s as [c w]. simpl in *.
  unfold _connect, websockets_connect, ws_send, ws_recv, ensure_future,
    _dispatch.
  unfold_monad.
  repeat (simpl; first [rewrite Hc|rewrite Hs|rewrite Hr|rewrite Hl
                       |rewrite Hg|rewrite Hst]).
  simpl.
  erewrite dispatch_items_ok; [|exact Hd|reflexivity|exact Hok].
  reflexivity.
Qed.

Lemma attempt_auth_rejected resubscribe (s : sys) cs ss rs f msg data status :
  w_connect (env s) = None :: cs ->
  w_send (env s) = None :: ss ->
  w_recv (env s) = inr f :: rs ->
  loads f = inr msg ->
  json_get msg "data" (JObj []) = inr data ->
  json_get data "status" JNull = inr status ->
  json_ne_str status "authorized" = true ->
  attempt resubscribe s =
    (Raise (ValueError (InvalidCredentials msg)),
     {| self := self s;
        env :=
          traced [EvRecv (w_next_ws (env s))]
            (with_recv rs
               (traced [EvSend (w_next_ws (env s))
                          (authenticate_request (self s))]
                  (with_send ss
                     (with_next_ws (S (w_next_ws (env s)))
                        (with_connect cs
                           (traced [EvConnect (_endpoint (self s))]
                              (env s))))))) |}).
Proof.
  intros Hc Hs Hr Hl Hd Hst Hne.
  unfold attempt, try_except, bind.
  rewrite (connect_rejected_run s cs ss rs f msg data status)
    by assumption.
  reflexivity.
Qed.


End Reconnect.

(** ** The bound of the recursion *)

Ltac measure :=
  unfold steady_at, connects, frames in *; simpl in *;
  repeat split; try discriminate; try lia.

Section Steady.
Context `{Library}.

Lemma steady_ret {A} (a : A) s : steady_at (ret a) s.
Proof. measure. Qed.

Lemma steady_raise {A} e s : steady_at (@raise A e) s.
Proof. measure. Qed.

Lemma steady_lift {A} (r : exn + A) s : steady_at (lift r) s.
Proof. destruct r; [apply steady_raise|apply steady_ret]. Qed.

Lemma steady_set_self f s : steady_at (set_self f) s.
Proof. measure. Qed.

Lemma steady_emit e s : steady_at (emit e) s.
Proof. measure. Qed.

Lemma steady_bind {A B} (m : M A) (k : A -> M B) s :
  steady_at m s ->
  (forall a, fst (m s) = Ret a -> steady_at (k a) (snd (m s))) ->
  steady_at (bind m k) s.
Proof.
  unfold steady_at, bind. intros (Hm & Hc & Hf) Hk.
  destruct (m s) as [[a| e | |] s1]; simpl in *;
    try (measure; fail); try tauto.
  destruct (Hk a eq_refl) as (Hk1 & Hk2 & Hk3).
  repeat split; [exact Hk1|measure|measure].
Qed.

Lemma steady_try_except {A} (m : M A) catches (h : exn -> M A) s :
  steady_at m s ->
  (forall e, fst (m s) = Raise e -> steady_at (h e) (snd (m s))) ->
  steady_at (try_except m catches h) s.
Proof.
  unfold steady_at, try_except. intros (Hm & Hc & Hf) Hh.
  destruct (m s) as [[a| e | |] s1]; simpl in *;
    try (measure; fail); try tauto.
  destruct (catches e); [|measure].
  destruct (Hh e eq_refl) as (Hk1 & Hk2 & Hk3).
  repeat split; [exact Hk1|measure|measure].
Qed.

Lemma steady_completes o s : steady_at (completes o) s.
Proof. destruct o; [apply steady_raise|apply steady_ret]. Qed.

Lemma steady_ws_send ws payload s : steady_at (ws_send ws payload) s.
Proof.
  unfold ws_send. destruct ws as [n|]; [|apply steady_raise].
  apply steady_bind; [apply steady_lift|]. intros p _.
  apply steady_bind; [apply steady_emit|]. intros _ _.
  unfold steady_at, await.
  destruct (w_send (env (snd (emit (EvSend n p) (snd (lift payload s))))))
    as [|o l]; simpl; [measure|].
  destruct o; measure.
Qed.

Lemma steady_ws_recv ws s :
  steady_at (ws_recv ws) s /\
  (forall r, fst (ws_recv ws s) = Ret r ->
     (frames (snd (ws_recv ws s)) < frames s)%nat).
Proof.
  unfold ws_recv. destruct ws as [n|]; [|measure].
  unfold bind, emit, set_env, await, steady_at, connects, frames. simpl.
  destruct (w_recv (env s)) as [|[e|f] l] eqn:Hr; measure;
    rewrite ?Hr; simpl; lia.
Qed.

Lemma steady_ws_close n s : steady_at (ws_close n) s.
Proof.
  unfold ws_close, bind, emit, set_env, await, steady_at, connects, frames.
  simpl. destruct (w_close (env s)) as [|[e|] l]; measure.
Qed.

Lemma steady_websockets_connect endpoint s :
  steady_at (websockets_connect endpoint) s /\
  (fst (websockets_connect endpoint s) <> Pending ->
   (connects (snd (websockets_connect endpoint s)) < connects s)%nat).
Proof.
  unfold websockets_connect, bind, emit, set_env, await, steady_at,
    connects, frames.
  simpl. destruct (w_connect (env s)) as [|[e|] l] eqn:Hc; measure;
    try tauto; rewrite ?Hc; simpl; lia.
Qed.

Lemma steady_ensure_future c s : steady_at (ensure_future c) s.
Proof. measure. Qed.

Lemma steady_task_cancel t s : steady_at (task_cancel t) s.
Proof. measure. Qed.

Lemma steady_get_self s : steady_at get_self s.
Proof. measure. Qed.

Ltac steady_with extra :=
  repeat first
    [ extra
    | apply steady_ret | apply steady_raise | apply steady_lift
    | apply steady_set_self | apply steady_emit | apply steady_completes
    | apply steady_ws_send | apply steady_ws_close
    | apply steady_ensure_future | apply steady_task_cancel
    | apply (proj1 (steady_ws_recv _ _))
    | apply (proj1 (steady_websockets_connect _ _))
    | apply steady_get_self
    | assumption
    | (apply steady_bind; [|intros ? _])
    | match goal with
      | |- steady_at (if ?b then _ else _) _ => destruct b
      | |- steady_at (match ?x with _ => _ end) _ => destruct x
      end ].

Ltac steady := steady_with fail.

Lemma steady_call_handler h channel ent s :
  steady_at (call_handler h channel ent) s.
Proof. unfold call_handler. steady. Qed.

Lemma steady_dispatch_items hs channel msg :
  forall s, steady_at (dispatch_items hs channel msg) s.
Proof.
  induction hs as [|[pat h] hs IH]; intros s; simpl; [steady|].
  apply steady_bind; [|intros _ _; apply IH].
  destruct (re_match pat channel); [|steady].
  steady; apply steady_call_handler.
Qed.

Lemma steady_dispatch channel msg s : steady_at (_dispatch channel msg) s.
Proof.
  unfold _dispatch. apply steady_bind; [apply steady_get_self|].
  intros c _. apply steady_dispatch_items.
Qed.

Lemma steady_dispatch_stream stream msg s :
  steady_at (dispatch_stream stream msg) s.
Proof.
  unfold dispatch_stream.
  destruct stream; try (steady; fail); try apply steady_dispatch.
  all: apply steady_bind; [apply steady_get_self|]; intros c _;
    destruct (_handlers c); steady.
Qed.

Lemma steady_close s : steady_at close s.
Proof.
  unfold close. apply steady_bind; [apply steady_get_self|]. intros c _.
  apply steady_bind.
  - destruct (_consume_task c); steady.
  - intros _ _. destruct (_ws c); steady.
Qed.

Ltac steady_all :=
  steady_with
    ltac:(first [ apply steady_dispatch | apply steady_dispatch_stream
                | apply steady_close | apply steady_call_handler ]).

(** An outcome of [_connect] other than [Pending] has consumed a
    connection outcome. *)
Lemma steady_connect s :
  steady_at _connect s /\
  (fst (_connect s) <> Pending ->
   (connects (snd (_connect s)) < connects s)%nat).
Proof.
  unfold _connect.
  change (bind get_self ?k s) with (k (self s) s). cbv beta.
  destruct (steady_websockets_connect (_endpoint (self s)) s)
    as (Hs & Hlt).
  match goal with
  | |- context [bind (websockets_connect ?ep) ?k] =>
      assert (Hk : forall ws,
                fst (websockets_connect ep s) = Ret ws ->
                steady_at (k ws) (snd (websockets_connect ep s)))
  end.
  { intros ws _. steady_all. }
  pose proof (steady_bind _ _ s Hs Hk) as Hb.
  split; [exact Hb|].
  unfold steady_at, bind in *.
  destruct (websockets_connect (_endpoint (self s)) s) as [[ws|e| |] s1];
    simpl in *; try tauto; try (intros _; apply Hlt; discriminate).
  intros _. destruct (Hk ws eq_refl) as (_ & Hc & _).
  assert (connects s1 < connects s)%nat by (apply Hlt; discriminate).
  lia.
Qed.

Lemma consumes_bind {A B} (m : M A) (k : A -> M B) s :
  steady_at m s ->
  (fst (m s) <> Pending -> (connects (snd (m s)) < connects s)%nat) ->
  (forall a, fst (m s) = Ret a -> steady_at (k a) (snd (m s))) ->
  steady_at (bind m k) s /\
  (fst (bind m k s) <> Pending ->
   (connects (snd (bind m k s)) < connects s)%nat).
Proof.
  intros Hs Hlt Hk. split; [apply steady_bind; assumption|].
  unfold steady_at, bind in *.
  destruct (m s) as [[a|e| |] s1]; simpl in *; try tauto;
    try (intros _; apply Hlt; discriminate).
  intros _. destruct (Hk a eq_refl) as (_ & Hc & _).
  assert (connects s1 < connects s)%nat by (apply Hlt; discriminate).
  lia.
Qed.

(** A turn of the reconnect loop that ends has consumed a connection
    outcome. *)
Lemma attempt_consumes (k : channels -> M unit) s :
  (forall chans s1, (connects s1 < connects s)%nat ->
     steady_at (k chans) s1) ->
  steady_at (attempt k) s /\
  (fst (attempt k s) <> Pending ->
   (connects (snd (attempt k s)) < connects s)%nat).
Proof.
  intros Hk. unfold attempt.
  destruct (steady_connect s) as (Hs & Hlt).
  match goal with
  | |- context [try_except (bind _connect ?rest) _ ?handler] =>
      destruct (consumes_bind _connect rest s Hs Hlt) as (Hb & Hblt);
      [|assert (Hh : forall e, steady_at (handler e)
                       (snd (bind _connect rest s)))]
  end.
  - intros [] Hret.
    assert (connects (snd (_connect s)) < connects s)%nat
      by (apply Hlt; rewrite Hret; discriminate).
    apply steady_bind; [apply steady_get_self|]. intros c _.
    apply steady_bind; [|intros; apply steady_ret].
    destruct (bool_decide (_streams c <> ∅)); [|apply steady_ret].
    apply Hk. exact H0.
  - intros e. unfold logging_warn, asyncio_sleep. steady.
  - split; [apply steady_try_except; [exact Hb|intros e _; apply Hh]|].
    unfold steady_at, try_except in *.
    match goal with
    | |- context [bind _connect ?rest s] =>
        destruct (bind _connect rest s) as [[a|e| |] s1] eqn:Hrun
    end; simpl in *; try tauto;
      try (intros _; apply Hblt; discriminate).
    destruct (is_WebSocketException e);
      [|intros _; apply Hblt; discriminate].
    intros _. destruct (Hh e) as (_ & Hc & _).
    assert (connects s1 < connects s)%nat by (apply Hblt; discriminate).
    unfold logging_warn, asyncio_sleep, connects in *. simpl in *. lia.
Qed.

Lemma fuel_suffices fuel :
  (forall s, (3 * connects s + 2 <= fuel)%nat ->
     steady_at (_ensure_ws fuel) s) /\
  (forall s, (3 * connects s + 1 <= fuel)%nat ->
     steady_at (while_retries fuel) s) /\
  (forall s chans, (3 * connects s + 3 <= fuel)%nat ->
     steady_at (subscribe fuel chans) s).
Proof.
  induction fuel as [|fuel (IHe & IHw & IHs)];
    [repeat split; intros; lia|].
  split; [|split].
  - intros s Hf. unfold steady_at. rewrite ensure_ws_S.
    destruct (_ws (self s)); [measure|]. apply IHw. lia.
  - intros s Hf. unfold steady_at. rewrite while_retries_S.
    destruct (_retries (self s) <=? _retry (self s)); [|measure].
    destruct (attempt_consumes (subscribe fuel) s) as ((Ha & Hc & Hr) & Hlt).
    { intros chans s1 Hs1. apply IHs. lia. }
    destruct (attempt (subscribe fuel) s) as [[[|]|e| |] s1]; simpl in *;
      try (measure; fail); try tauto.
    assert (Hs1 : (connects s1 < connects s)%nat)
      by (apply Hlt; discriminate).
    destruct (IHw s1) as (Hw1 & Hw2 & Hw3); [lia|].
    repeat split; [exact Hw1|lia|lia].
  - intros s chans Hf. simpl.
    destruct (0 <? py_len chans)%nat; [|apply steady_ret].
    apply steady_bind; [apply IHe; lia|]. intros _ _. steady.
Qed.

Lemma consume_loop_suffices fuel :
  forall ws s, (frames s + 1 <= fuel)%nat ->
    steady_at (consume_loop fuel ws) s.
Proof.
  induction fuel as [|fuel IH]; intros ws s Hf; [lia|]. simpl.
  destruct (steady_ws_recv ws s) as (Hs & Hlt).
  apply steady_bind; [exact Hs|]. intros r Hr. specialize (Hlt r Hr).
  set (s1 := snd (ws_recv ws s)) in *.
  pose proof (steady_lift (loads r) s1) as Hl.
  apply steady_bind; [exact Hl|]. intros msg _.
  destruct Hl as (_ & _ & Hl).
  set (s2 := snd (lift (loads r) s1)) in *.
  pose proof (steady_lift (json_get msg "stream" JNull) s2) as Hg.
  apply steady_bind; [exact Hg|]. intros stream _.
  destruct Hg as (_ & _ & Hg).
  set (s3 := snd (lift (json_get msg "stream" JNull) s2)) in *.
  pose proof (steady_dispatch_stream stream msg s3) as Hd.
  apply steady_bind; [exact Hd|]. intros _ _.
  destruct Hd as (_ & _ & Hd).
  apply IH. lia.
Qed.

Lemma consume_msg_suffices fuel s :
  (frames s + 1 <= fuel)%nat -> steady_at (_consume_msg fuel) s.
Proof.
  intros Hf. unfold _consume_msg.
  apply steady_bind; [apply steady_get_self|]. intros c _.
  apply steady_try_except; [apply consume_loop_suffices; exact Hf|].
  intros e _. unfold logging_warn. steady_all.
Qed.

(** No run of the reconnect loop, of [subscribe] or of the receive loop
    that is given [enough_fuel] reaches the bound. *)
Theorem ensure_ws_total fuel s :
  (enough_fuel s <= fuel)%nat -> fst (_ensure_ws fuel s) <> NoFuel.
Proof.
  intros Hf. apply (proj1 (fuel_suffices fuel)).
  unfold enough_fuel, connects in *. lia.
Qed.

Theorem subscribe_total fuel chans s :
  (enough_fuel s <= fuel)%nat -> fst (subscribe fuel chans s) <> NoFuel.
Proof.
  intros Hf. apply (proj2 (proj2 (fuel_suffices fuel))).
  unfold enough_fuel, connects in *. lia.
Qed.

Theorem consume_msg_total fuel s :
  (enough_fuel s <= fuel)%nat -> fst (_consume_msg fuel s) <> NoFuel.
Proof.
  intros Hf. apply consume_msg_suffices.
  unfold enough_fuel, frames in *. lia.
Qed.

Lemma subscribe_S fuel chans (s : sys) :
  subscribe (S fuel) chans s =
  if (0 <? py_len chans)%nat then
    match _ensure_ws fuel s with
    | (Ret _, s') =>
        (set_self (fun c => set_streams (_streams c ∪ py_set chans) c) ;;
         c <- get_self ;;
         ws_send (_ws c) (listen_request chans)) s'
    | (Raise e, s') => (Raise e, s')
    | (Pending, s') => (Pending, s')
    | (NoFuel, s') => (NoFuel, s')
    end
  else (Ret tt, s).
Proof.
  simpl. destruct (0 <? py_len chans)%nat; [|reflexivity].
  unfold bind at 1. destruct (_ensure_ws fuel s) as [[[]|e| |] s1];
    reflexivity.
Qed.

(** More fuel does not change a run that ends within its bound. *)
Lemma attempt_more_fuel (k1 k2 : channels -> M unit) s :
  (forall chans s', fst (k2 chans s') <> NoFuel ->
     k1 chans s' = k2 chans s') ->
  fst (attempt k2 s) <> NoFuel ->
  attempt k1 s = attempt k2 s.
Proof.
  intros Hk. unfold attempt, try_except, bind.
  destruct (_connect s) as [[[]|e| |] s1]; try reflexivity.
  unfold get_self.
  destruct (bool_decide (_streams (self s1) <> ∅)); [|reflexivity].
  intros Hne.
  rewrite Hk; [reflexivity|].
  destruct (k2 (PySet (_streams (self s1))) s1) as [[[]|e| |] s2];
    simpl in *; try discriminate. tauto.
Qed.

Lemma more_fuel fuel :
  (forall s, fst (_ensure_ws fuel s) <> NoFuel ->
     _ensure_ws (S fuel) s = _ensure_ws fuel s) /\
  (forall s, fst (while_retries fuel s) <> NoFuel ->
     while_retries (S fuel) s = while_retries fuel s) /\
  (forall chans s, fst (subscribe fuel chans s) <> NoFuel ->
     subscribe (S fuel) chans s = subscribe fuel chans s).
Proof.
  induction fuel as [|fuel (IHe & IHw & IHs)].
  - repeat split; intros; simpl in *; tauto.
  - split; [|split].
    + intros s. rewrite !ensure_ws_S.
      destruct (_ws (self s)); [reflexivity|apply IHw].
    + intros s. rewrite (while_retries_S (S fuel)), (while_retries_S fuel).
      destruct (_retries (self s) <=? _retry (self s)); [|reflexivity].
      intros Hne.
      rewrite (attempt_more_fuel (subscribe (S fuel)) (subscribe fuel) s).
      * destruct (attempt (subscribe fuel) s) as [[[|]|e| |] s1];
          try reflexivity.
        apply IHw. exact Hne.
      * intros chans s'. apply IHs.
      * destruct (attempt (subscribe fuel) s) as [[[|]|e| |] s1];
          simpl in *; try discriminate. tauto.
    + intros chans s. rewrite (subscribe_S (S fuel)), (subscribe_S fuel).
      destruct (0 <? py_len chans)%nat; [|reflexivity].
      intros Hne. rewrite IHe; [reflexivity|].
      destruct (_ensure_ws fuel s) as [[[]|e| |] s1]; simpl in *;
        try discriminate. tauto.
Qed.

(** With [enough_fuel] or more, [_ensure_ws] is one and the same run. *)
Theorem ensure_ws_fuel fuel s :
  (enough_fuel s <= fuel)%nat ->
  _ensure_ws fuel s = _ensure_ws (enough_fuel s) s.
Proof.
  intros Hf.
  replace fuel with (fuel - enough_fuel s + enough_fuel s)%nat by lia.
  induction (fuel - enough_fuel s)%nat as [|n IH]; [reflexivity|].
  change (S n + enough_fuel s)%nat with (S (n + enough_fuel s)).
  rewrite (proj1 (more_fuel (n + enough_fuel s))); [exact IH|].
  apply ensure_ws_total. lia.
Qed.
End Steady.

Section ReconnectClaims.
Context `{Library}.

(** C1, as the code has it: with [_retry = 3] and [_retry_wait = 3], when
    the first four connection attempts fail in the transport,
    [_ensure_ws] makes exactly four attempts and raises
    [ConnectionError("Max Retries Exceeded")]; it sleeps after each of
    the four failures, and every sleep lasts [_retry_wait * _retry = 9]
    seconds, not [_retry_wait] times the number of the attempt. *)
Theorem ensure_ws_sleeps_constant (s : sys) why1 why2 why3 why4 rest :
  _ws (self s) = None ->
  _retries (self s) = 0 ->
  _retry (self s) = 3 ->
  _retry_wait (self s) = 3 ->
  w_connect (env s) =
    Some (WebSocketException why1) :: Some (WebSocketException why2) ::
    Some (WebSocketException why3) :: Some (WebSocketException why4) ::
    rest ->
  let r := _ensure_ws (enough_fuel s) s in
  fst r = Raise (ConnectionError "Max Retries Exceeded") /\
  attempts (w_trace (env (snd r))) = (attempts (w_trace (env s)) + 4)%nat /\
  sleeps (w_trace (env (snd r))) = sleeps (w_trace (env s)) ++ [9; 9; 9; 9] /\
  sleeps (w_trace (env (snd r))) <> sleeps (w_trace (env s)) ++ [3; 6; 9].
Proof.
  intros Hws Hr Hmax Hwait Hc r. subst r.
  assert (Hfuel : exists fuel, enough_fuel s = S fuel /\ (4 < fuel)%nat).
  { unfold enough_fuel. rewrite Hc. simpl. eexists. split; [reflexivity|lia]. }
  destruct Hfuel as (fuel & -> & Hfuel).
  rewrite ensure_ws_S, Hws.
  destruct (while_retries_all_fail [why1; why2; why3; why4] fuel s rest)
    as (c' & Hrun & _); [exact Hc|simpl; lia|simpl; lia|].
  rewrite Hrun. simpl. rewrite Hmax, Hwait.
  rewrite attempts_app, sleeps_app. simpl.
  repeat split.
  intros Heq. apply app_inv_head in Heq. discriminate.
Qed.

(** C4, as the code has it: when a [_connect] made by [_ensure_ws] is
    rejected by the server, the [ValueError] is not caught by the
    [except websockets.WebSocketException] clause: it leaves
    [_ensure_ws] at once.  The object is unchanged, so that [_retries] is
    not incremented; there is no sleep and no further connection
    attempt. *)
Theorem ensure_ws_auth_failure_propagates fuel (s : sys)
  cs ss rs f msg data status :
  _ws (self s) = None ->
  _retries (self s) <= _retry (self s) ->
  w_connect (env s) = None :: cs ->
  w_send (env s) = None :: ss ->
  w_recv (env s) = inr f :: rs ->
  loads f = inr msg ->
  json_get msg "data" (JObj []) = inr data ->
  json_get data "status" JNull = inr status ->
  json_ne_str status "authorized" = true ->
  (2 <= fuel)%nat ->
  let r := _ensure_ws fuel s in
  fst r = Raise (ValueError (InvalidCredentials msg)) /\
  self (snd r) = self s /\
  _retries (self (snd r)) = _retries (self s) /\
  sleeps (w_trace (env (snd r))) = sleeps (w_trace (env s)) /\
  attempts (w_trace (env (snd r))) = S (attempts (w_trace (env s))) /\
  w_connect (env (snd r)) = cs.
Proof.
  intros Hws Hr Hc Hs Hrv Hl Hd Hst Hne Hfuel r. subst r.
  destruct fuel as [|[|fuel]]; try lia.
  rewrite ensure_ws_S, Hws, while_retries_S.
  replace (_retries (self s) <=? _retry (self s)) with true
    by (symmetry; apply Z.leb_le; exact Hr).
  rewrite (attempt_auth_rejected _ s cs ss rs f msg data status)
    by assumption.
  simpl. rewrite !sleeps_app, !attempts_app. simpl.
  rewrite !app_nil_r. repeat split. lia.
Qed.

(** [unsubscribe] does nothing, in every state and for every argument. *)
Lemma unsubscribe_run (chans : channels) (s : sys) :
  unsubscribe chans s = (Ret tt, s).
Proof. reflexivity. Qed.
End ReconnectClaims.

(** ** Runs on the sample library *)

Section Runs.
#[local] Existing Instance Sample.library.

(** C2, as the code has it: after [subscribe(["X", "Y"])], a transport
    failure in the receive loop and an accepted reconnection, the
    subscription set still holds both channels (it survived [close]),
    but the replay [self.subscribe(self._streams)] hands the set itself
    to [json.dumps], which raises [TypeError]: the reconnect task ends
    with that exception and the only subscribe request ever sent is the
    caller's own. *)
Theorem reconnect_replay_raises :
  let s := {| self := Sample.conn0; env := Sample.dropped |} in
  let r := Sample.subscribe_drop_reconnect ["X"; "Y"] s in
  fst r = Raise (TypeError "Object of type set is not JSON serializable") /\
  _streams (self (snd r)) = {["X"; "Y"]} /\
  spawned (w_trace (env (snd r))) = [ConsumeMsg; EnsureWs; ConsumeMsg] /\
  sent (w_trace (env (snd r))) =
    [authenticate_request Sample.conn0;
     JObj [("action", JStr "listen");
           ("data", JObj [("streams", JList [JStr "X"; JStr "Y"])])];
     authenticate_request Sample.conn0].
Proof. vm_compute. repeat split. Qed.

(** C6: [unsubscribe] returns without an error and leaves the object, in
    particular [_streams], as it was, for every argument and in every
    state.  In the round trip [subscribe(["X"])], [unsubscribe(["X"])],
    drop, reconnect, the set still holds [X] when the reconnect replays
    it, but the replay raises [TypeError] as in every reconnect with a
    subscription set that is not empty: no request for [X] follows the
    caller's own. *)
Theorem unsubscribe_noop_replay_raises :
  (forall (chans : channels) (s : sys), unsubscribe chans s = (Ret tt, s)) /\
  let s := {| self := Sample.conn0; env := Sample.dropped |} in
  let r := Sample.subscribe_unsubscribe_drop_reconnect ["X"] s in
  fst r = Raise (TypeError "Object of type set is not JSON serializable") /\
  _streams (self (snd r)) = {["X"]} /\
  List.filter is_listen (sent (w_trace (env (snd r)))) =
    [JObj [("action", JStr "listen");
           ("data", JObj [("streams", JList [JStr "X"])])]].
Proof.
  split; [intros chans s; reflexivity|].
  vm_compute. repeat split.
Qed.

(** C4 fails on the code: the first handshake is rejected while the
    budget is untouched ([_retries = 0], [_retry = 3]) and the
    environment would accept a second handshake.  The error leaves
    [_ensure_ws]; no retry is consumed, there is no backoff wait and no
    second attempt. *)
Lemma auth_failure_is_not_retried :
  let s := {| self := Sample.conn0; env := Sample.rejected_once |} in
  let r := _ensure_ws (enough_fuel s) s in
  fst r = Raise (ValueError (InvalidCredentials Sample.unauthorized)) /\
  _retries (self (snd r)) = 0 /\
  sleeps (w_trace (env (snd r))) = [] /\
  attempts (w_trace (env (snd r))) = 1%nat /\
  w_connect (env (snd r)) = [None] /\
  ~ (_retries (self (snd r)) = _retries (self s) + 1 /\
     (2 <= attempts (w_trace (env (snd r))))%nat).
Proof.
  vm_compute. repeat split; try reflexivity.
  intros [Hr _]. discriminate Hr.
Qed.

(** C5 fails on the code: two patterns match the channel of one message
    and the handler of the first raises.  The second handler is not
    invoked. *)
Lemma dispatch_is_not_isolated :
  let hs := [("T\..*", Sample.failing "first");
             ("T\.AAPL", Sample.quiet "second")] in
  let s := {| self := set_handlers hs Sample.conn0;
              env := Sample.world0 |} in
  let r := _dispatch "T.AAPL" Sample.trade s in
  matching hs "T.AAPL" = hs /\
  fst r = Raise (UserError "first") /\
  invoked (w_trace (env (snd r))) = ["first"] /\
  ~ In "second" (invoked (w_trace (env (snd r)))).
Proof.
  vm_compute. repeat split.
  intros [Hin|[]]. discriminate Hin.
Qed.

End Runs.

(** ** The theorems at concrete inputs *)

Section Witnesses.
#[local] Existing Instance Sample.library.

Lemma ensure_ws_sleeps_constant_witness :
  let s := {| self := Sample.conn0; env := Sample.refused |} in
  let r := _ensure_ws (enough_fuel s) s in
  fst r = Raise (ConnectionError "Max Retries Exceeded") /\
  attempts (w_trace (env (snd r))) = 4%nat /\
  sleeps (w_trace (env (snd r))) = [9; 9; 9; 9] /\
  sleeps (w_trace (env (snd r))) <> [3; 6; 9].
Proof.
  exact (ensure_ws_sleeps_constant
           {| self := Sample.conn0; env := Sample.refused |}
           "handshake 1" "handshake 2" "handshake 3" "handshake 4"
           [Some (WebSocketException "handshake 5")]
           eq_refl eq_refl eq_refl eq_refl eq_refl).
Defined.

Lemma connect_rejected_witness :
  let s := {| self := Sample.conn0; env := Sample.rejected_once |} in
  let r := _connect s in
  fst r = Raise (ValueError (InvalidCredentials Sample.unauthorized)) /\
  self (snd r) = Sample.conn0 /\
  (_ws Sample.conn0 = None -> _ws (self (snd r)) = None) /\
  _retries (self (snd r)) = 0 /\
  _consume_task (self (snd r)) = None /\
  w_tasks (env (snd r)) = [] /\
  spawned (w_trace (env (snd r))) = [] /\
  invoked (w_trace (env (snd r))) = [].
Proof.
  exact (connect_rejected
           {| self := Sample.conn0; env := Sample.rejected_once |}
           [None] [None; None] [inr (Str (Some Sample.authorized))]
           (Str (Some Sample.unauthorized)) Sample.unauthorized
           (JObj [("status", JStr "unauthorized");
                  ("action", JStr "authenticate")])
           (JStr "unauthorized")
           eq_refl eq_refl eq_refl eq_refl eq_refl eq_refl eq_refl).
Defined.

Lemma ensure_ws_auth_failure_propagates_witness :
  let s := {| self := Sample.conn0; env := Sample.rejected_once |} in
  let r := _ensure_ws 2 s in
  fst r = Raise (ValueError (InvalidCredentials Sample.unauthorized)) /\
  self (snd r) = Sample.conn0 /\
  _retries (self (snd r)) = 0 /\
  sleeps (w_trace (env (snd r))) = [] /\
  attempts (w_trace (env (snd r))) = 1%nat /\
  w_connect (env (snd r)) = [None].
Proof.
  refine (ensure_ws_auth_failure_propagates 2
            {| self := Sample.conn0; env := Sample.rejected_once |}
            [None] [None; None] [inr (Str (Some Sample.authorized))]
            (Str (Some Sample.unauthorized)) Sample.unauthorized
            (JObj [("status", JStr "unauthorized");
                   ("action", JStr "authenticate")])
            (JStr "unauthorized")
            eq_refl _ eq_refl eq_refl eq_refl eq_refl eq_refl eq_refl
            eq_refl _).
  - simpl. lia.
  - lia.
Defined.

Lemma dispatch_stops_at_failure_witness :
  let hs := [("T\..*", Sample.failing "first");
             ("T\.AAPL", Sample.quiet "second")] in
  let s := {| self := set_handlers hs Sample.conn0;
              env := Sample.world0 |} in
  let r := _dispatch "T.AAPL" Sample.trade s in
  fst r = Raise (UserError "first") /\
  self (snd r) = self s /\
  w_trace (env (snd r)) =
    [EvInvoke "first" "T.AAPL"
       (Trade [("price", JFloat 1005 (-1)); ("size", JInt 10)])].
Proof.
  refine (dispatch_stops_at_failure
            {| self :=
                 set_handlers
                   [("T\..*", Sample.failing "first");
                    ("T\.AAPL", Sample.quiet "second")] Sample.conn0;
               env := Sample.world0 |}
            [] "T\..*" (Sample.failing "first")
            [("T\.AAPL", Sample.quiet "second")]
            "T.AAPL" Sample.trade
            (JObj [("p", JFloat 1005 (-1)); ("s", JInt 10);
                   ("zz", JStr "unknown")])
            (Trade [("price", JFloat 1005 (-1)); ("size", JInt 10)])
            (UserError "first")
            eq_refl eq_refl eq_refl _ eq_refl eq_refl).
  intros ph [].
Defined.


Lemma cast_trade_witness :
  exists fields,
    _cast "T.AAPL"
      (JObj [("p", JFloat 1005 (-1)); ("s", JInt 10);
             ("zz", JStr "unknown")]) = inr (Trade fields) /\
    fields = [("price", JFloat 1005 (-1)); ("size", JInt 10)] /\
    dict_get "symbol" fields = None.
Proof.
  destruct (cast_trade "T.AAPL"
              [("p", JFloat 1005 (-1)); ("s", JInt 10);
               ("zz", JStr "unknown")] eq_refl)
    as (fields & Hcast & Hfields & _ & _ & Hunset).
  exists fields. split; [exact Hcast|]. split; [exact Hfields|].
  apply Hunset. intros k v Hin.
  destruct Hin as [Heq|[Heq|[Heq|[]]]]; injection Heq as <- <-;
    discriminate.
Defined.
End Witnesses.

(** * Further properties *)

(** ** The reconnect loop, in general *)

Section ReconnectMore.
Context `{Library}.

Lemma sleeps_backoff endpoint wait (es : list string) :
  sleeps
    (flat_map
       (fun why =>
          [EvConnect endpoint; EvWarn (WebSocketException why); EvSleep wait])
       es) = repeat wait (length es).
Proof. induction es as [|why es IH]; simpl; [|rewrite IH]; reflexivity. Qed.

Lemma attempts_backoff endpoint wait (es : list string) :
  attempts
    (flat_map
       (fun why =>
          [EvConnect endpoint; EvWarn (WebSocketException why); EvSleep wait])
       es) = length es.
Proof. induction es as [|why es IH]; simpl; [|rewrite IH]; reflexivity. Qed.

(** When the counter is not past the budget and the connection attempts
    fail in the transport until the budget is used up, [_ensure_ws] makes
    [_retry - _retries + 1] attempts, sleeps [_retry_wait * _retry]
    seconds after each of them, leaves [_retries] at [_retry + 1] and
    raises [ConnectionError]. *)
Lemma ensure_ws_all_fail_in_budget fuel (s : sys) (es : list string) rest :
  _ws (self s) = None ->
  w_connect (env s) =
    map (fun why => Some (WebSocketException why)) es ++ rest ->
  _retries (self s) + Z.of_nat (length es) = _retry (self s) + 1 ->
  (length es + 1 < fuel)%nat ->
  let r := _ensure_ws fuel s in
  fst r = Raise (ConnectionError "Max Retries Exceeded") /\
  attempts (w_trace (env (snd r))) =
    (attempts (w_trace (env s)) + length es)%nat /\
  sleeps (w_trace (env (snd r))) =
    sleeps (w_trace (env s)) ++
    repeat (_retry_wait (self s) * _retry (self s)) (length es) /\
  _retries (self (snd r)) = _retry (self s) + 1 /\
  w_connect (env (snd r)) = rest /\
  _streams (self (snd r)) = _streams (self s) /\
  _handlers (self (snd r)) = _handlers (self s).
Proof.
  intros Hws Hc Hr Hfuel r. subst r.
  destruct fuel as [|fuel]; [lia|].
  rewrite ensure_ws_S, Hws.
  destruct (while_retries_all_fail es fuel s rest Hc Hr)
    as (c' & Hrun & Hret & Hst & Hhs); [lia|].
  rewrite Hrun. simpl.
  rewrite attempts_app, sleeps_app, attempts_backoff, sleeps_backoff.
  repeat split; assumption.
Qed.

(** For every budget and every value of the counter: when the connection
    attempts fail in the transport until the budget is used up,
    [_ensure_ws] makes [max 0 (_retry + 1 - _retries)] attempts, sleeps
    [_retry_wait * _retry] seconds after each of them, leaves [_retries]
    at the larger of its value and [_retry + 1], and raises
    [ConnectionError].  With the budget exceeded from the start (as with
    a negative [_retry]) it makes no attempt and leaves the counter as it
    was. *)
Theorem ensure_ws_all_fail fuel (s : sys) (es : list string) rest :
  _ws (self s) = None ->
  w_connect (env s) =
    map (fun why => Some (WebSocketException why)) es ++ rest ->
  Z.of_nat (length es) =
    Z.max 0 (_retry (self s) + 1 - _retries (self s)) ->
  (length es + 1 < fuel)%nat ->
  let r := _ensure_ws fuel s in
  fst r = Raise (ConnectionError "Max Retries Exceeded") /\
  attempts (w_trace (env (snd r))) =
    (attempts (w_trace (env s)) + length es)%nat /\
  sleeps (w_trace (env (snd r))) =
    sleeps (w_trace (env s)) ++
    repeat (_retry_wait (self s) * _retry (self s)) (length es) /\
  _retries (self (snd r)) =
    Z.max (_retries (self s)) (_retry (self s) + 1) /\
  w_connect (env (snd r)) = rest /\
  _streams (self (snd r)) = _streams (self s) /\
  _handlers (self (snd r)) = _handlers (self s).
Proof.
  intros Hws Hc Hlen Hfuel.
  destruct (Z.le_gt_cases (_retries (self s)) (_retry (self s) + 1))
    as [Hle|Hgt].
  - assert (Hr : _retries (self s) + Z.of_nat (length es) =
                 _retry (self s) + 1) by lia.
    destruct (ensure_ws_all_fail_in_budget fuel s es rest Hws Hc Hr Hfuel)
      as (H1 & H2 & H3 & H4 & H5 & H6 & H7).
    cbn zeta. rewrite H4.
    repeat split; try assumption. lia.
  - assert (Hes : es = []).
    { destruct es; [reflexivity|]. simpl in Hlen. lia. }
    subst es. simpl in Hc.
    destruct fuel as [|[|fuel]]; [simpl in Hfuel; lia..|].
    cbn zeta.
    rewrite ensure_ws_S, Hws, while_retries_S.
    replace (_retries (self s) <=? _retry (self s)) with false
      by (symmetry; apply Z.leb_gt; lia).
    simpl. rewrite Nat.add_0_r, app_nil_r.
    repeat split; try assumption. lia.
Qed.

(** On a disconnected object whose counter is past the budget, a call of
    [_ensure_ws], and a call of [subscribe] with a channel, raises
    [ConnectionError] at once: without a connection attempt, and with
    the object and the environment as they were before the call. *)
Theorem exhausted_budget_raises_at_once fuel (s : sys) (chans : channels) :
  _ws (self s) = None ->
  _retry (self s) < _retries (self s) ->
  (0 < py_len chans)%nat ->
  _ensure_ws (S (S fuel)) s =
    (Raise (ConnectionError "Max Retries Exceeded"), s) /\
  subscribe (S (S (S fuel))) chans s =
    (Raise (ConnectionError "Max Retries Exceeded"), s).
Proof.
  intros Hws Hr Hlen.
  assert (He : forall f, _ensure_ws (S (S f)) s =
                 (Raise (ConnectionError "Max Retries Exceeded"), s)).
  { intros f. rewrite ensure_ws_S, Hws, while_retries_S.
    replace (_retries (self s) <=? _retry (self s)) with false
      by (symmetry; apply Z.leb_gt; exact Hr).
    reflexivity. }
  split; [apply He|].
  rewrite subscribe_S.
  replace (0 <? py_len chans)%nat with true
    by (symmetry; apply Nat.ltb_lt; exact Hlen).
  rewrite He. reflexivity.
Qed.



(** A turn of the loop whose handshake is accepted, on an object without
    subscriptions: nothing is replayed and the loop ends. *)
Lemma attempt_accepted resubscribe (s : sys) cs ss rs f msg data :
  _streams (self s) = ∅ ->
  w_connect (env s) = None :: cs ->
  w_send (env s) = None :: ss ->
  w_recv (env s) = inr f :: rs ->
  loads f = inr msg ->
  json_item msg "data" = inr data ->
  json_get data "status" JNull = inr (JStr "authorized") ->
  (forall ph, In ph (matching (_handlers (self s)) "authorized") ->
     h_raises (snd ph) "authorized" (Entity data) = None) ->
  attempt resubscribe s = (Ret true, snd (_connect s)) /\
  fst (_connect s) = Ret tt.
Proof.
  intros Hstr Hc Hs Hrv Hl Hd Hst Hok.
  unfold attempt, try_except. unfold bind at 1.
  rewrite (connect_authorized_run s cs ss rs f msg data) by assumption.
  unfold bind at 1. unfold get_self. unfold bind at 1.
  cbn [fst snd self _streams set_consume_task set_ws set_retries].
  rewrite Hstr.
  rewrite bool_decide_eq_false_2 by (intros Hne; apply Hne; reflexivity).
  split; reflexivity.
Qed.

Lemma quiet_events channel ent (l : list (string * handler)) :
  attempts (map (invocation channel ent) l) = 0%nat /\
  sleeps (map (invocation channel ent) l) = [] /\
  spawned (map (invocation channel ent) l) = [] /\
  sent (map (invocation channel ent) l) = [] /\
  closed (map (invocation channel ent) l) = [].
Proof. induction l as [|x l (Ha & Hb & Hc & Hd & He)]; simpl; auto. Qed.


End ReconnectMore.

(** ** subscribe *)

Section SubscribeMore.
Context `{Library}.

(** The equation of the run, as the proofs below use it. *)
Lemma subscribe_connected_eq fuel (s : sys) ws (cs : list string) o l :
  _ws (self s) = Some ws ->
  cs <> [] ->
  w_send (env s) = o :: l ->
  subscribe (S (S fuel)) (PyList cs) s =
    (match o with
     | None => Ret tt
     | Some e => Raise e
     end,
     {| self := set_streams (_streams (self s) ∪ list_to_set cs) (self s);
        env :=
          with_send l
            (traced
               [EvSend ws
                  (JObj [("action", JStr "listen");
                         ("data", JObj [("streams", JList (map JStr cs))])])]
               (env s)) |}).
Proof.
  intros Hws Hne Hs. rewrite subscribe_S, ensure_ws_S, Hws.
  destruct cs as [|c cs]; [contradiction|]. simpl py_len. cbn [Nat.ltb Nat.leb].
  destruct s as [c0 w]. simpl in *.
  unfold ws_send. unfold_monad. simpl. rewrite Hws. simpl. rewrite Hs.
  destruct o; reflexivity.
Qed.

(** On a connected object, [subscribe] of a list that is not empty makes no
    connection attempt; it adds the channels to [_streams] and then sends
    one request that names the channels as they were given.  When the
    send raises, the exception is the caller's and the channels stay in
    [_streams]. *)
Theorem subscribe_connected fuel (s : sys) ws (cs : list string) o l :
  _ws (self s) = Some ws ->
  cs <> [] ->
  w_send (env s) = o :: l ->
  subscribe (S (S fuel)) (PyList cs) s =
    (match o with
     | None => Ret tt
     | Some e => Raise e
     end,
     {| self := set_streams (_streams (self s) ∪ list_to_set cs) (self s);
        env :=
          with_send l
            (traced
               [EvSend ws
                  (JObj [("action", JStr "listen");
                         ("data", JObj [("streams", JList (map JStr cs))])])]
               (env s)) |}).
Proof.
  intros Hws Hne Hs. rewrite subscribe_S, ensure_ws_S, Hws.
  destruct cs as [|c cs]; [contradiction|]. simpl py_len. cbn [Nat.ltb Nat.leb].
  destruct s as [c0 w]. simpl in *.
  unfold ws_send. unfold_monad. simpl. rewrite Hws. simpl. rewrite Hs.
  destruct o; reflexivity.
Qed.

(** The first [subscribe] of a new object, when the handshake is accepted:
    one connection attempt, the authentication request and then the
    subscribe request are sent, one receive task is scheduled, and
    [_streams] holds the channels. *)
Theorem subscribe_first fuel (s : sys) (cs : list string)
  cl ss rs f msg data :
  _ws (self s) = None ->
  _streams (self s) = ∅ ->
  _retries (self s) <= _retry (self s) ->
  cs <> [] ->
  w_connect (env s) = None :: cl ->
  w_send (env s) = None :: None :: ss ->
  w_recv (env s) = inr f :: rs ->
  loads f = inr msg ->
  json_item msg "data" = inr data ->
  json_get data "status" JNull = inr (JStr "authorized") ->
  (forall ph, In ph (matching (_handlers (self s)) "authorized") ->
     h_raises (snd ph) "authorized" (Entity data) = None) ->
  let r := subscribe (S (S (S fuel))) (PyList cs) s in
  fst r = Ret tt /\
  _ws (self (snd r)) = Some (w_next_ws (env s)) /\
  _retries (self (snd r)) = 0 /\
  _streams (self (snd r)) = list_to_set cs /\
  attempts (w_trace (env (snd r))) = S (attempts (w_trace (env s))) /\
  sent (w_trace (env (snd r))) =
    sent (w_trace (env s)) ++
    [authenticate_request (self s);
     JObj [("action", JStr "listen");
           ("data", JObj [("streams", JList (map JStr cs))])]] /\
  spawned (w_trace (env (snd r))) =
    spawned (w_trace (env s)) ++ [ConsumeMsg].
Proof.
  intros Hws Hstr Hr Hne Hc Hs Hrv Hl Hd Hst Hok r. subst r.
  rewrite subscribe_S, ensure_ws_S, Hws, while_retries_S.
  destruct cs as [|c cs]; [contradiction|]. simpl py_len. cbn [Nat.ltb Nat.leb].
  replace (_retries (self s) <=? _retry (self s)) with true
    by (symmetry; apply Z.leb_le; exact Hr).
  destruct (attempt_accepted (subscribe fuel) s cl (None :: ss) rs f msg data)
    as (Hatt & _); try assumption.
  rewrite Hatt.
  rewrite (connect_authorized_run s cl (None :: ss) rs f msg data)
    by assumption.
  destruct s as [c0 w]. simpl in *.
  unfold ws_send. unfold_monad. simpl.
  rewrite !attempts_app, !sent_app, !spawned_app.
  destruct (quiet_events "authorized" (Entity data)
              (matching (_handlers c0) "authorized"))
    as (Ha & _ & Hsp & Hse & _).
  rewrite Ha, Hsp, Hse, Hstr. simpl. rewrite !app_nil_r, <- !app_assoc.
  repeat split; try lia.
  - rewrite union_empty_l_L. reflexivity.
Qed.

End SubscribeMore.

(** ** What the methods never change *)

Section EnvOnly.
Context `{Library}.

Lemma env_only_ret {A} (a : A) : env_only (ret a).
Proof. intros s. reflexivity. Qed.

Lemma env_only_raise {A} e : env_only (@raise A e).
Proof. intros s. reflexivity. Qed.

Lemma env_only_lift {A} (r : exn + A) : env_only (lift r).
Proof. destruct r; [apply env_only_raise|apply env_only_ret]. Qed.

Lemma env_only_set_env f : env_only (set_env f).
Proof. intros s. reflexivity. Qed.

Lemma env_only_bind {A B} (m : M A) (k : A -> M B) :
  env_only m -> (forall a, env_only (k a)) -> env_only (bind m k).
Proof.
  intros Hm Hk s. unfold bind. specialize (Hm s).
  destruct (m s) as [[a|e| |] s1]; simpl in *; try exact Hm.
  rewrite Hk. exact Hm.
Qed.

Lemma env_only_await {A R} script rest (k : A -> M R) :
  (forall a, env_only (k a)) -> env_only (await script rest k).
Proof.
  intros Hk s. unfold await.
  destruct (script (env s)) as [|a l]; [reflexivity|]. rewrite Hk.
  reflexivity.
Qed.

Lemma env_only_completes o : env_only (completes o).
Proof. destruct o; [apply env_only_raise|apply env_only_ret]. Qed.

Lemma env_only_emit e : env_only (emit e).
Proof. apply env_only_set_env. Qed.

Lemma env_only_websockets_connect endpoint :
  env_only (websockets_connect endpoint).
Proof.
  unfold websockets_connect.
  apply env_only_bind; [apply env_only_emit|]. intros _.
  apply env_only_await. intros o.
  apply env_only_bind; [apply env_only_completes|]. intros _.
  intros s. reflexivity.
Qed.

Lemma env_only_ws_send ws payload : env_only (ws_send ws payload).
Proof.
  unfold ws_send. destruct ws; [|apply env_only_raise].
  apply env_only_bind; [apply env_only_lift|]. intros p.
  apply env_only_bind; [apply env_only_emit|]. intros _.
  apply env_only_await. apply env_only_completes.
Qed.

Lemma env_only_ws_recv ws : env_only (ws_recv ws).
Proof.
  unfold ws_recv. destruct ws; [|apply env_only_raise].
  apply env_only_bind; [apply env_only_emit|]. intros _.
  apply env_only_await. intros a. apply env_only_lift.
Qed.

Lemma env_only_ws_close n : env_only (ws_close n).
Proof.
  unfold ws_close. apply env_only_bind; [apply env_only_emit|]. intros _.
  apply env_only_await. apply env_only_completes.
Qed.

Lemma env_only_ensure_future c : env_only (ensure_future c).
Proof. intros s. reflexivity. Qed.

Lemma env_only_task_cancel t : env_only (task_cancel t).
Proof. intros s. reflexivity. Qed.

Lemma env_only_call_handler h channel ent :
  env_only (call_handler h channel ent).
Proof.
  unfold call_handler. apply env_only_bind; [apply env_only_emit|].
  intros _. destruct (h_raises h channel ent);
    [apply env_only_raise|apply env_only_ret].
Qed.

Lemma env_only_dispatch_items hs channel msg :
  env_only (dispatch_items hs channel msg).
Proof.
  induction hs as [|[pat h] hs IH]; simpl; [apply env_only_ret|].
  apply env_only_bind; [|intros _; exact IH].
  destruct (re_match pat channel); [|apply env_only_ret].
  apply env_only_bind; [apply env_only_lift|]. intros data.
  apply env_only_bind; [apply env_only_lift|]. intros ent.
  apply env_only_call_handler.
Qed.

(** [_dispatch] and the handlers it runs leave the object as it is. *)
Lemma env_only_dispatch channel msg : env_only (_dispatch channel msg).
Proof.
  intros s. unfold _dispatch, bind, get_self. simpl.
  apply env_only_dispatch_items.
Qed.

Lemma env_only_dispatch_stream stream msg :
  env_only (dispatch_stream stream msg).
Proof.
  unfold dispatch_stream.
  destruct stream; try apply env_only_ret; try apply env_only_dispatch;
    intros s; unfold bind, get_self; simpl;
    destruct (_handlers (self s)); reflexivity.
Qed.
End EnvOnly.

Section Respects.
Context `{Library}.
Variable R : _StreamConn -> _StreamConn -> Prop.
Hypothesis R_refl : forall c, R c c.
Hypothesis R_trans : forall a b c, R a b -> R b c -> R a c.

Lemma respects_env_only {A} (m : M A) s : env_only m -> respects R m s.
Proof. intros Hm. unfold respects. rewrite Hm. apply R_refl. Qed.

Lemma respects_bind {A B} (m : M A) (k : A -> M B) s :
  respects R m s ->
  (forall a, fst (m s) = Ret a -> respects R (k a) (snd (m s))) ->
  respects R (bind m k) s.
Proof.
  unfold respects, bind. intros Hm Hk.
  destruct (m s) as [[a|e| |] s1]; simpl in *; try exact Hm.
  eapply R_trans; [exact Hm|]. apply Hk. reflexivity.
Qed.

Lemma respects_try_except {A} (m : M A) catches (h : exn -> M A) s :
  respects R m s ->
  (forall e, fst (m s) = Raise e -> respects R (h e) (snd (m s))) ->
  respects R (try_except m catches h) s.
Proof.
  unfold respects, try_except. intros Hm Hh.
  destruct (m s) as [[a|e| |] s1]; simpl in *; try exact Hm.
  destruct (catches e); [|exact Hm].
  eapply R_trans; [exact Hm|]. apply Hh. reflexivity.
Qed.

Lemma respects_set_self g s :
  R (self s) (g (self s)) -> respects R (set_self g) s.
Proof. intros Hg. exact Hg. Qed.

Lemma respects_get_self s : respects R get_self s.
Proof. apply R_refl. Qed.

Hypothesis R_ws : forall c w, R c (set_ws w c).
Hypothesis R_retries : forall c n, R c (set_retries n c).
Hypothesis R_task : forall c t, R c (set_consume_task t c).

Lemma respects_connect s : respects R _connect s.
Proof.
  unfold _connect.
  apply respects_bind; [apply respects_get_self|]. intros c _.
  apply respects_bind;
    [apply respects_env_only, env_only_websockets_connect|]. intros ws _.
  apply respects_bind; [apply respects_env_only, env_only_ws_send|].
  intros _ _.
  apply respects_bind; [apply respects_env_only, env_only_ws_recv|].
  intros r _.
  apply respects_bind; [apply respects_env_only, env_only_lift|].
  intros msg _.
  apply respects_bind; [apply respects_env_only, env_only_lift|].
  intros data _.
  apply respects_bind; [apply respects_env_only, env_only_lift|].
  intros status _.
  apply respects_bind.
  { destruct (json_ne_str status "authorized");
      [apply respects_env_only, env_only_raise
      |apply respects_set_self, R_retries]. }
  intros _ _.
  apply respects_bind; [apply respects_set_self, R_ws|]. intros _ _.
  apply respects_bind; [apply respects_env_only, env_only_dispatch|].
  intros _ _.
  apply respects_bind; [apply respects_env_only, env_only_ensure_future|].
  intros t _. apply respects_set_self, R_task.
Qed.

Lemma respects_close s : respects R close s.
Proof.
  unfold close.
  apply respects_bind; [apply respects_get_self|]. intros c _.
  apply respects_bind.
  { destruct (_consume_task c);
      [apply respects_env_only, env_only_task_cancel
      |apply respects_env_only, env_only_ret]. }
  intros _ _. destruct (_ws c); [|apply respects_env_only, env_only_ret].
  apply respects_bind; [apply respects_env_only, env_only_ws_close|].
  intros _ _. apply respects_set_self, R_ws.
Qed.

Lemma respects_consume_loop fuel :
  forall ws s, respects R (consume_loop fuel ws) s.
Proof.
  induction fuel as [|fuel IH]; intros ws s; simpl; [apply R_refl|].
  apply respects_bind; [apply respects_env_only, env_only_ws_recv|].
  intros r _.
  apply respects_bind; [apply respects_env_only, env_only_lift|].
  intros msg _.
  apply respects_bind; [apply respects_env_only, env_only_lift|].
  intros stream _.
  apply respects_bind;
    [apply respects_env_only, env_only_dispatch_stream|].
  intros _ _. apply IH.
Qed.

Lemma respects_consume_msg fuel s : respects R (_consume_msg fuel) s.
Proof.
  unfold _consume_msg.
  apply respects_bind; [apply respects_get_self|]. intros c _.
  apply respects_try_except; [apply respects_consume_loop|].
  intros e _.
  apply respects_bind; [apply respects_env_only, env_only_emit|].
  intros _ _.
  apply respects_bind; [apply respects_close|]. intros _ _.
  apply respects_bind; [apply respects_env_only, env_only_ensure_future|].
  intros _ _. apply respects_env_only, env_only_ret.
Qed.

(** A turn of the reconnect loop respects what [_connect] and the replay
    respect. *)
Lemma respects_attempt (k : channels -> M unit) s :
  (forall s1, respects R (k (PySet (_streams (self s1)))) s1) ->
  respects R (attempt k) s.
Proof.
  intros Hk. unfold attempt.
  apply respects_try_except.
  - apply respects_bind; [apply respects_connect|]. intros _ _.
    apply respects_bind; [apply respects_get_self|]. intros c Hc.
    apply respects_bind; [|intros; apply respects_env_only, env_only_ret].
    destruct (bool_decide (_streams c <> ∅));
      [|apply respects_env_only, env_only_ret].
    unfold get_self in Hc. simpl in Hc. injection Hc as <-. apply Hk.
  - intros e _. unfold logging_warn, asyncio_sleep.
    apply respects_bind; [apply respects_env_only, env_only_emit|].
    intros _ _.
    apply respects_bind; [apply respects_set_self, R_ws|]. intros _ _.
    apply respects_bind; [apply respects_set_self, R_retries|].
    intros _ _.
    apply respects_bind; [apply respects_get_self|]. intros c _.
    apply respects_bind; [apply respects_env_only, env_only_emit|].
    intros _ _. apply respects_env_only, env_only_ret.
Qed.
End Respects.

Section Subscriptions.
Context `{Library}.

Lemma same_settings_refl c : same_settings c c.
Proof. unfold same_settings. repeat split. Qed.

Lemma same_settings_trans a b c :
  same_settings a b -> same_settings b c -> same_settings a c.
Proof. unfold same_settings. intuition congruence. Qed.

Lemma same_subscriptions_refl c : same_subscriptions c c.
Proof. split; [apply same_settings_refl|reflexivity]. Qed.

Lemma same_subscriptions_trans a b c :
  same_subscriptions a b -> same_subscriptions b c -> same_subscriptions a c.
Proof.
  intros [Hab Hs] [Hbc Hs']. split; [eapply same_settings_trans; eassumption|].
  congruence.
Qed.

Lemma same_subscriptions_ws c w : same_subscriptions c (set_ws w c).
Proof. unfold same_subscriptions, same_settings. repeat split. Qed.

Lemma same_subscriptions_retries c n : same_subscriptions c (set_retries n c).
Proof. unfold same_subscriptions, same_settings. repeat split. Qed.

Lemma same_subscriptions_task c t :
  same_subscriptions c (set_consume_task t c).
Proof. unfold same_subscriptions, same_settings. repeat split. Qed.

Ltac subscriptions :=
  first [ exact same_subscriptions_refl | exact same_subscriptions_trans
        | exact same_subscriptions_ws | exact same_subscriptions_retries
        | exact same_subscriptions_task ].

Lemma reconnect_respects fuel :
  (forall s, respects same_subscriptions (_ensure_ws fuel) s) /\
  (forall s, respects same_subscriptions (while_retries fuel) s) /\
  (forall chans s,
     respects (grown_by (py_set chans)) (subscribe fuel chans) s).
Proof.
  induction fuel as [|fuel (IHe & IHw & IHs)].
  - repeat split; try reflexivity; left; reflexivity.
  - split; [|split].
    + intros s. unfold respects. rewrite ensure_ws_S.
      destruct (_ws (self s)); [apply same_subscriptions_refl|apply IHw].
    + intros s. unfold respects. rewrite while_retries_S.
      destruct (_retries (self s) <=? _retry (self s));
        [|apply same_subscriptions_refl].
      assert (Ha : respects same_subscriptions (attempt (subscribe fuel)) s).
      { apply respects_attempt.
        - apply same_subscriptions_refl.
        - apply same_subscriptions_trans.
        - apply same_subscriptions_ws.
        - apply same_subscriptions_retries.
        - apply same_subscriptions_task.
        - intros s1. destruct (IHs (PySet (_streams (self s1))) s1)
            as (Hset & Hstr).
          split; [exact Hset|]. simpl in Hstr.
          rewrite union_idemp_L in Hstr. destruct Hstr; assumption. }
      unfold respects in Ha.
      destruct (attempt (subscribe fuel) s) as [[[|]|e| |] s1];
        simpl in *; try exact Ha.
      eapply same_subscriptions_trans; [exact Ha|apply IHw].
    + intros chans s. unfold respects. rewrite subscribe_S.
      destruct (0 <? py_len chans)%nat;
        [|split; [apply same_settings_refl|left; reflexivity]].
      pose proof (IHe s) as He. unfold respects in He.
      destruct (_ensure_ws fuel s) as [[[]|e| |] s1]; simpl in *;
        try (destruct He as (Hset & Hstr); split; [exact Hset|left; exact Hstr]).
      destruct He as (Hset & Hstr).
      assert (Hself : self
                (snd ((set_self
                         (fun c => set_streams (_streams c ∪ py_set chans) c) ;;
                       c <- get_self ;;
                       ws_send (_ws c) (listen_request chans))%py s1)) =
              set_streams (_streams (self s1) ∪ py_set chans) (self s1)).
      { unfold bind at 1. unfold set_self at 1. cbn [fst snd].
        unfold bind at 1. unfold get_self at 1. cbn [fst snd self].
        rewrite env_only_ws_send. reflexivity. }
      rewrite Hself. split; [exact Hset|]. right. simpl. rewrite Hstr.
      reflexivity.
Qed.

(** With handlers that leave the connection alone, as [handler] has them:
    whatever the environment does and however the call ends, [_connect],
    [close], [unsubscribe], [_dispatch], [_ensure_ws], the receive task
    and a scheduled task leave [_streams], the registry and the settings
    of the object as they were. *)
Lemma keeps_subscriptions_apart_from_handlers fuel (s : sys) chans channel
  msg :
  respects same_subscriptions _connect s /\
  respects same_subscriptions close s /\
  respects same_subscriptions (unsubscribe chans) s /\
  respects same_subscriptions (_dispatch channel msg) s /\
  respects same_subscriptions (_ensure_ws fuel) s /\
  respects same_subscriptions (_consume_msg fuel) s /\
  respects same_subscriptions (run_task fuel) s.
Proof.
  assert (Hc : forall s, respects same_subscriptions _connect s).
  { intros s0. apply respects_connect; subscriptions. }
  assert (Hm : forall s, respects same_subscriptions (_consume_msg fuel) s).
  { intros s0. apply respects_consume_msg; subscriptions. }
  split; [apply Hc|]. split.
  { apply respects_close; subscriptions. }
  split; [apply same_subscriptions_refl|]. split.
  { apply respects_env_only;
      [apply same_subscriptions_refl|apply env_only_dispatch]. }
  split; [apply (proj1 (reconnect_respects fuel))|].
  split; [apply Hm|].
  unfold respects, run_task.
  destruct (w_tasks (env s)) as [|[t [|]] rest];
    [apply same_subscriptions_refl| |].
  - apply (Hm {| self := self s;
                 env := with_tasks (w_next_task (env s)) rest (env s) |}).
  - apply (proj1 (reconnect_respects fuel)
             {| self := self s;
                env := with_tasks (w_next_task (env s)) rest (env s) |}).
Qed.

(** The same for [subscribe], which changes [_streams] only by adding the
    channels of its argument. *)
Lemma subscribe_adds_apart_from_handlers fuel (chans : channels) (s : sys) :
  let c' := self (snd (subscribe fuel chans s)) in
  same_settings (self s) c' /\
  (_streams c' = _streams (self s) \/
   _streams c' = _streams (self s) ∪ py_set chans).
Proof. apply (proj2 (proj2 (reconnect_respects fuel)) chans s). Qed.

(** The code of the connection, apart from [subscribe] and the registry
    methods, writes only [_ws], [_retries] and [_consume_task]: whatever
    the environment does and however the call ends, [close] and
    [unsubscribe] leave [_streams], the registry and the settings of the
    object as they were, and so do [_connect], [_dispatch], [_ensure_ws],
    the receive task and a scheduled task in every run in which no
    handler is invoked.  (An invoked handler is handed the connection and
    can call [subscribe] or [register] on it.) *)
Theorem connection_keeps_subscriptions fuel (s : sys) chans channel msg :
  respects same_subscriptions close s /\
  respects same_subscriptions (unsubscribe chans) s /\
  (no_invocation _connect s ->
   respects same_subscriptions _connect s) /\
  (no_invocation (_dispatch channel msg) s ->
   respects same_subscriptions (_dispatch channel msg) s) /\
  (no_invocation (_ensure_ws fuel) s ->
   respects same_subscriptions (_ensure_ws fuel) s) /\
  (no_invocation (_consume_msg fuel) s ->
   respects same_subscriptions (_consume_msg fuel) s) /\
  (no_invocation (run_task fuel) s ->
   respects same_subscriptions (run_task fuel) s).
Proof.
  destruct (keeps_subscriptions_apart_from_handlers fuel s chans channel msg)
    as (Hc & Hcl & Hu & Hd & He & Hm & Hr).
  split; [exact Hcl|]. split; [exact Hu|].
  split; [intros _; exact Hc|]. split; [intros _; exact Hd|].
  split; [intros _; exact He|]. split; [intros _; exact Hm|].
  intros _; exact Hr.
Qed.

(** In every run of [subscribe] in which no handler is invoked, whatever
    the environment does and however the call ends, [_streams] changes
    only by the channels of the argument being added, and the registry
    and the settings are left as they were. *)
Theorem subscribe_only_adds fuel (chans : channels) (s : sys) :
  no_invocation (subscribe fuel chans) s ->
  let c' := self (snd (subscribe fuel chans s)) in
  same_settings (self s) c' /\
  (_streams c' = _streams (self s) \/
   _streams c' = _streams (self s) ∪ py_set chans).
Proof. intros _. apply subscribe_adds_apart_from_handlers. Qed.

(** [register] and [deregister] are local: they make no call into the
    environment and, however they end, leave [_ws], [_streams],
    [_retries] and [_consume_task] as they were. *)
Theorem registry_methods_are_local (s : sys) channel_pat func symbols :
  let r := register channel_pat func symbols s in
  let d := deregister channel_pat s in
  (env (snd r) = env s /\
   _ws (self (snd r)) = _ws (self s) /\
   _streams (self (snd r)) = _streams (self s) /\
   _retries (self (snd r)) = _retries (self s) /\
   _consume_task (self (snd r)) = _consume_task (self s)) /\
  (env (snd d) = env s /\
   _ws (self (snd d)) = _ws (self s) /\
   _streams (self (snd d)) = _streams (self s) /\
   _retries (self (snd d)) = _retries (self s) /\
   _consume_task (self (snd d)) = _consume_task (self s)).
Proof.
  unfold register, deregister. unfold_monad. simpl.
  destruct (h_coroutine func), (re_valid channel_pat); simpl;
    try destruct (dict_get channel_pat (_handlers (self s))); simpl;
    repeat split.
Qed.
End Subscriptions.

(** ** The handshake and close, in general *)

Section ConnectMore.
Context `{Library}.

(** An accepted handshake: [_connect] returns with the new socket in
    [_ws], [_retries] at zero and the new receive task in [_consume_task];
    between the reply and the scheduling of the task, the handlers of the
    patterns that match [authorized] were invoked, in the order of the
    registry, on the [data] of the reply. *)
Theorem connect_accepted (s : sys) cs ss rs f msg data :
  w_connect (env s) = None :: cs ->
  w_send (env s) = None :: ss ->
  w_recv (env s) = inr f :: rs ->
  loads f = inr msg ->
  json_item msg "data" = inr data ->
  json_get data "status" JNull = inr (JStr "authorized") ->
  (forall ph, In ph (matching (_handlers (self s)) "authorized") ->
     h_raises (snd ph) "authorized" (Entity data) = None) ->
  let r := _connect s in
  let ws := w_next_ws (env s) in
  let t := w_next_task (env s) in
  fst r = Ret tt /\
  _ws (self (snd r)) = Some ws /\
  _retries (self (snd r)) = 0 /\
  _consume_task (self (snd r)) = Some t /\
  w_tasks (env (snd r)) = w_tasks (env s) ++ [(t, ConsumeMsg)] /\
  w_trace (env (snd r)) =
    w_trace (env s) ++
    [EvConnect (_endpoint (self s));
     EvSend ws (authenticate_request (self s)); EvRecv ws] ++
    map (invocation "authorized" (Entity data))
      (matching (_handlers (self s)) "authorized") ++
    [EvSpawn t ConsumeMsg].
Proof.
  intros Hc Hs Hrv Hl Hd Hst Hok r ws t. subst r ws t.
  rewrite (connect_authorized_run s cs ss rs f msg data) by assumption.
  simpl. rewrite <- !app_assoc. repeat split.
Qed.

Lemma closed_app a b : closed (a ++ b) = closed a ++ closed b.
Proof.
  induction a as [|e a IH]; simpl; [reflexivity|].
  destruct e; simpl; rewrite IH; reflexivity.
Qed.

Lemma handlers_only_app a b :
  handlers_only a -> handlers_only b -> handlers_only (a ++ b).
Proof.
  unfold handlers_only. intros (A1 & A2 & A3 & A4 & A5) (B1 & B2 & B3 & B4 & B5).
  rewrite attempts_app, sleeps_app, spawned_app, sent_app, closed_app.
  rewrite A1, A2, A3, A4, A5, B1, B2, B3, B4, B5. repeat split.
Qed.

(** With handlers that leave the connection alone, whether they return
    or raise: a dispatch leaves the object as it is and adds invocations
    to the trace, nothing else. *)
Lemma dispatch_items_quiet hs channel msg :
  forall s, exists evs,
    snd (dispatch_items hs channel msg s) =
      {| self := self s; env := traced evs (env s) |} /\
    handlers_only evs.
Proof.
  induction hs as [|[pat h] hs IH]; intros s; simpl.
  - exists []. rewrite traced_nil, sys_eta. repeat split.
  - unfold bind at 1.
    destruct (re_match pat channel).
    + unfold call_handler. unfold_monad.
      destruct (json_item msg "data") as [e|data]; simpl;
        [exists []; rewrite traced_nil, sys_eta; repeat split|].
      destruct (_cast channel data) as [e|ent]; simpl;
        [exists []; rewrite traced_nil, sys_eta; repeat split|].
      destruct (h_raises h channel ent); simpl.
      * exists [EvInvoke (h_name h) channel ent]. repeat split.
      * match goal with
        | |- context [dispatch_items hs channel msg ?st] =>
            destruct (IH st) as (evs & Heq & Hq)
        end.
        exists ([EvInvoke (h_name h) channel ent] ++ evs).
        rewrite Heq. simpl. rewrite traced_traced.
        split; [reflexivity|].
        apply (handlers_only_app [EvInvoke (h_name h) channel ent] evs);
          [repeat split|exact Hq].
    + simpl. apply IH.
Qed.

Lemma dispatch_quiet channel msg (s : sys) :
  exists evs,
    snd (_dispatch channel msg s) =
      {| self := self s; env := traced evs (env s) |} /\
    handlers_only evs.
Proof.
  unfold _dispatch, bind, get_self. simpl. apply dispatch_items_quiet.
Qed.

(** With handlers that leave the connection alone, as [handler] has them:
    however [_connect] ends, the object is in one of three states: as it
    was (every failure up to the check of the status), half open (the
    socket is in [_ws] and [_retries] is zero, but no receive task was
    scheduled: the dispatch of [authorized] did not return), or
    connected. *)
Lemma connect_three_states (s : sys) :
  let r := _connect s in
  let ws := w_next_ws (env s) in
  match fst r with
  | Ret _ =>
      self (snd r) =
        set_consume_task (Some (w_next_task (env s)))
          (set_ws (Some ws) (set_retries 0 (self s))) /\
      spawned (w_trace (env (snd r))) =
        spawned (w_trace (env s)) ++ [ConsumeMsg]
  | _ =>
      (self (snd r) = self s \/
       self (snd r) = set_ws (Some ws) (set_retries 0 (self s))) /\
      spawned (w_trace (env (snd r))) = spawned (w_trace (env s))
  end.
Proof.
  destruct s as [c w]. cbn zeta.
  unfold _connect, websockets_connect, ws_send, ws_recv, ensure_future.
  unfold_monad. simpl.
  destruct (w_connect w) as [|[e|] cs]; simpl;
    rewrite ?spawned_app, ?app_nil_r; auto.
  destruct (w_send w) as [|[e|] ss]; simpl;
    rewrite ?spawned_app; simpl; rewrite ?app_nil_r; auto.
  destruct (w_recv w) as [|[e|f] rs]; simpl;
    rewrite ?spawned_app; simpl; rewrite ?app_nil_r; auto.
  destruct (loads f) as [e|msg]; simpl;
    rewrite ?spawned_app; simpl; rewrite ?app_nil_r; auto.
  destruct (json_get msg "data" (JObj [])) as [e|data]; simpl;
    rewrite ?spawned_app; simpl; rewrite ?app_nil_r; auto.
  destruct (json_get data "status" JNull) as [e|status]; simpl;
    rewrite ?spawned_app; simpl; rewrite ?app_nil_r; auto.
  destruct (json_ne_str status "authorized"); simpl;
    rewrite ?spawned_app; simpl; rewrite ?app_nil_r; auto.
  match goal with
  | |- context [_dispatch "authorized" msg ?st] =>
      destruct (dispatch_quiet "authorized" msg st)
        as (evs & Heq & (_ & _ & Hsp & _));
      destruct (_dispatch "authorized" msg st) as [[[]|e| |] s2]
  end; simpl in *; subst s2; simpl;
    rewrite ?spawned_app; simpl; rewrite ?Hsp, ?app_nil_r; auto.
Qed.

Lemma json_get_item msg k default v :
  json_get msg k default = inr v -> v <> default -> json_item msg k = inr v.
Proof.
  destruct msg; simpl; try discriminate.
  destruct (dict_get k kv); intros Hg Hne; [exact Hg|].
  injection Hg as <-. contradiction.
Qed.

Lemma invoked_same a b : invoked (a ++ b) = invoked a -> invoked b = [].
Proof.
  rewrite invoked_app. intros Heq.
  apply (app_inv_head (invoked a)). rewrite app_nil_r. exact Heq.
Qed.

(** A dispatch that invokes no handler returns: with a body that [_cast]
    accepts, a pattern that matches has its handler invoked. *)
Lemma dispatch_items_invokes hs channel msg data ent :
  json_item msg "data" = inr data ->
  _cast channel data = inr ent ->
  forall s, exists evs,
    snd (dispatch_items hs channel msg s) =
      {| self := self s; env := traced evs (env s) |} /\
    (invoked evs = [] ->
     evs = [] /\ fst (dispatch_items hs channel msg s) = Ret tt).
Proof.
  intros Hd Hc.
  induction hs as [|[pat h] hs IH]; intros s; simpl.
  - exists []. rewrite traced_nil, sys_eta. repeat split.
  - unfold bind at 1.
    destruct (re_match pat channel).
    + unfold call_handler. unfold_monad. rewrite Hd. simpl. rewrite Hc.
      simpl.
      destruct (h_raises h channel ent); simpl.
      * exists [EvInvoke (h_name h) channel ent].
        split; [reflexivity|]. intros Hi. discriminate Hi.
      * match goal with
        | |- context [dispatch_items hs channel msg ?st] =>
            destruct (IH st) as (evs & Heq & _)
        end.
        exists ([EvInvoke (h_name h) channel ent] ++ evs).
        rewrite Heq. simpl. rewrite traced_traced.
        split; [reflexivity|]. intros Hi. discriminate Hi.
    + simpl. apply IH.
Qed.

(** [_connect] is all or nothing in every run in which no handler is
    invoked: when it returns, the object is connected ([_ws] holds the new
    socket, [_retries] is zero, [_consume_task] holds the one receive
    task that was scheduled); however else it ends, the object is as it
    was and no task was scheduled.  (The state in between, with [_ws] set
    and no receive task, is reached only through a handler of
    [authorized]: see [connect_handler_raises].) *)
Theorem connect_end_states (s : sys) :
  no_invocation _connect s ->
  let r := _connect s in
  match fst r with
  | Ret _ =>
      self (snd r) =
        set_consume_task (Some (w_next_task (env s)))
          (set_ws (Some (w_next_ws (env s))) (set_retries 0 (self s))) /\
      spawned (w_trace (env (snd r))) =
        spawned (w_trace (env s)) ++ [ConsumeMsg]
  | _ =>
      self (snd r) = self s /\
      spawned (w_trace (env (snd r))) = spawned (w_trace (env s))
  end.
Proof.
  unfold no_invocation.
  destruct s as [c w]. cbn zeta.
  unfold _connect, websockets_connect, ws_send, ws_recv, ensure_future.
  unfold_monad. simpl.
  destruct (w_connect w) as [|[e|] cs]; simpl;
    rewrite ?spawned_app, ?app_nil_r; auto.
  destruct (w_send w) as [|[e|] ss]; simpl;
    rewrite ?spawned_app; simpl; rewrite ?app_nil_r; auto.
  destruct (w_recv w) as [|[e|f] rs]; simpl;
    rewrite ?spawned_app; simpl; rewrite ?app_nil_r; auto.
  destruct (loads f) as [e|msg]; simpl;
    rewrite ?spawned_app; simpl; rewrite ?app_nil_r; auto.
  destruct (json_get msg "data" (JObj [])) as [e|data] eqn:Hg; simpl;
    rewrite ?spawned_app; simpl; rewrite ?app_nil_r; auto.
  destruct (json_get data "status" JNull) as [e|status] eqn:Hst; simpl;
    rewrite ?spawned_app; simpl; rewrite ?app_nil_r; auto.
  destruct (json_ne_str status "authorized") eqn:Hne; simpl;
    rewrite ?spawned_app; simpl; rewrite ?app_nil_r; auto.
  assert (Hd : json_item msg "data" = inr data).
  { apply (json_get_item msg "data" (JObj []) data Hg).
    intros ->. simpl in Hst. injection Hst as <-. discriminate Hne. }
  unfold _dispatch. unfold_monad. simpl.
  match goal with
  | |- context [dispatch_items ?hs "authorized" msg ?st] =>
      destruct (dispatch_items_invokes hs "authorized" msg data
                  (Entity data) Hd eq_refl st) as (evs & Heq & Hret);
      destruct (dispatch_items hs "authorized" msg st) as [o s2] eqn:Hrun
  end.
  simpl in Heq, Hret. subst s2.
  assert (Hev : forall tail,
            invoked
              (((((w_trace w ++ [EvConnect (_endpoint c)]) ++
                  [EvSend (w_next_ws w) (authenticate_request c)]) ++
                 [EvRecv (w_next_ws w)]) ++ evs) ++ tail) =
            invoked (w_trace w) ->
            invoked evs = []).
  { intros tail Hno. rewrite !invoked_app in Hno. simpl in Hno.
    rewrite ?app_nil_r, <- ?app_assoc in Hno.
    rewrite <- (app_nil_r (invoked (w_trace w))) in Hno at 2.
    apply app_inv_head in Hno.
    apply app_eq_nil in Hno. apply Hno. }
  destruct o as [[]|e| |]; simpl; intros Hno.
  - destruct (Hret (Hev _ Hno)) as [-> _]. simpl.
    rewrite !spawned_app. simpl. rewrite !app_nil_r. split; reflexivity.
  - rewrite <- (app_nil_r (_ ++ evs)) in Hno.
    destruct (Hret (Hev _ Hno)) as [_ Hr]. discriminate Hr.
  - rewrite <- (app_nil_r (_ ++ evs)) in Hno.
    destruct (Hret (Hev _ Hno)) as [_ Hr]. discriminate Hr.
  - rewrite <- (app_nil_r (_ ++ evs)) in Hno.
    destruct (Hret (Hev _ Hno)) as [_ Hr]. discriminate Hr.
Qed.

(** When a handler of [authorized] raises, the exception leaves
    [_connect] with the object half open: the socket is in [_ws] and
    [_retries] is zero, but no receive task is scheduled and
    [_consume_task] is not set. *)
Theorem connect_handler_raises (s : sys) cs ss rs f msg data
  pre pat h post e :
  w_connect (env s) = None :: cs ->
  w_send (env s) = None :: ss ->
  w_recv (env s) = inr f :: rs ->
  loads f = inr msg ->
  json_item msg "data" = inr data ->
  json_get data "status" JNull = inr (JStr "authorized") ->
  _handlers (self s) = pre ++ (pat, h) :: post ->
  (forall ph, In ph (matching pre "authorized") ->
     h_raises (snd ph) "authorized" (Entity data) = None) ->
  re_match pat "authorized" = true ->
  h_raises h "authorized" (Entity data) = Some e ->
  let r := _connect s in
  fst r = Raise e /\
  self (snd r) = set_ws (Some (w_next_ws (env s))) (set_retries 0 (self s)) /\
  w_tasks (env (snd r)) = w_tasks (env s) /\
  spawned (w_trace (env (snd r))) = spawned (w_trace (env s)).
Proof.
  intros Hc Hs Hrv Hl Hd Hst Hhs Hok Hm He r. subst r.
  pose proof (json_item_get msg "data" data (JObj []) Hd) as Hg.
  destruct s as [c w]. simpl in *.
  unfold _connect, websockets_connect, ws_send, ws_recv, ensure_future,
    _dispatch.
  unfold_monad.
  repeat (simpl; first [rewrite Hc|rewrite Hs|rewrite Hrv|rewrite Hl
                       |rewrite Hg|rewrite Hst]).
  simpl. rewrite Hhs.
  erewrite dispatch_items_raise;
    [|exact Hd|reflexivity|exact Hok|exact Hm|exact He].
  simpl. rewrite !spawned_app.
  destruct (quiet_events "authorized" (Entity data)
              (matching pre "authorized")) as (_ & _ & Hsp & _).
  rewrite Hsp. simpl. rewrite !app_nil_r. repeat split.
Qed.

(** [close] ends with [_ws] unset whenever it returns, and on an object
    whose [_ws] is unset it returns without a call to a socket: a second
    [close], and a [close] before any connection, are harmless. *)
Theorem close_idempotent (s : sys) :
  (fst (close s) = Ret tt -> _ws (self (snd (close s))) = None) /\
  (_ws (self s) = None ->
   fst (close s) = Ret tt /\
   self (snd (close s)) = self s /\
   closed (w_trace (env (snd (close s)))) = closed (w_trace (env s))).
Proof.
  destruct s as [c w]. unfold close, task_cancel, ws_close. unfold_monad.
  simpl.
  destruct (_consume_task c) as [t|], (_ws c) as [ws|] eqn:Hws; simpl;
    try (destruct (w_close w) as [|[e|] l]; simpl);
    rewrite ?closed_app; simpl; rewrite ?app_nil_r;
    repeat split; try discriminate; auto.
Qed.

(** When the socket's [close()] raises, [close] raises with [_ws] still
    set: the object goes on as connected, and a later [_ensure_ws]
    returns without reconnecting. *)
Theorem close_failure_keeps_socket fuel (s : sys) ws e l :
  _ws (self s) = Some ws ->
  w_close (env s) = Some e :: l ->
  let r := close s in
  fst r = Raise e /\
  self (snd r) = self s /\
  _ensure_ws (S fuel) (snd r) = (Ret tt, snd r).
Proof.
  intros Hws Hc r. subst r.
  assert (Hrun : fst (close s) = Raise e /\ self (snd (close s)) = self s).
  { destruct s as [c w]. simpl in *.
    unfold close, task_cancel, ws_close. unfold_monad. simpl.
    destruct (_consume_task c) as [t|]; simpl; rewrite Hws; simpl;
      rewrite Hc; simpl; split; reflexivity. }
  destruct Hrun as (Hr & Hself).
  split; [exact Hr|]. split; [exact Hself|].
  rewrite ensure_ws_S, Hself, Hws. reflexivity.
Qed.
End ConnectMore.

(** ** The receive loop *)

Section ConsumeMore.
Context `{Library}.



(** A frame that is not JSON ends the receive task with the decoder's
    exception: the [except] clause is for transport errors only.  The
    socket is not closed, [_ws] stays set and no reconnection is
    scheduled. *)
Theorem consume_msg_bad_frame fuel (s : sys) ws f e rs :
  _ws (self s) = Some ws ->
  w_recv (env s) = inr f :: rs ->
  loads f = inl e ->
  is_WebSocketException e = false ->
  _consume_msg (S fuel) s =
    (Raise e,
     {| self := self s;
        env := with_recv rs (traced [EvRecv ws] (env s)) |}).
Proof.
  intros Hws Hr Hl He.
  assert (Hloop : consume_loop (S fuel) (Some ws) s =
            (Raise e,
             {| self := self s;
                env := with_recv rs (traced [EvRecv ws] (env s)) |})).
  { destruct s as [c w]. simpl in *. unfold ws_recv. unfold_monad. simpl.
    rewrite Hr. simpl. rewrite Hl. reflexivity. }
  unfold _consume_msg, try_except, bind, get_self. cbn [fst snd].
  rewrite Hws, Hloop, He. reflexivity.
Qed.

(** So does an exception of a handler: it ends the receive task, the
    handlers registered after it are not invoked, the socket is not
    closed, [_ws] stays set and no reconnection is scheduled. *)
Theorem consume_msg_handler_error fuel (s : sys) ws f rs msg channel
  data ent pre pat h post e :
  _ws (self s) = Some ws ->
  w_recv (env s) = inr f :: rs ->
  loads f = inr msg ->
  json_get msg "stream" JNull = inr (JStr channel) ->
  json_item msg "data" = inr data ->
  _cast channel data = inr ent ->
  _handlers (self s) = pre ++ (pat, h) :: post ->
  (forall ph, In ph (matching pre channel) ->
     h_raises (snd ph) channel ent = None) ->
  re_match pat channel = true ->
  h_raises h channel ent = Some e ->
  is_WebSocketException e = false ->
  _consume_msg (S fuel) s =
    (Raise e,
     {| self := self s;
        env :=
          traced
            (map (invocation channel ent) (matching pre channel) ++
             [EvInvoke (h_name h) channel ent])
            (with_recv rs (traced [EvRecv ws] (env s))) |}).
Proof.
  intros Hws Hr Hl Hs Hd Hc Hhs Hok Hm Hh He.
  assert (Hloop : consume_loop (S fuel) (Some ws) s =
            (Raise e,
             {| self := self s;
                env :=
                  traced
                    (map (invocation channel ent) (matching pre channel) ++
                     [EvInvoke (h_name h) channel ent])
                    (with_recv rs (traced [EvRecv ws] (env s))) |})).
  { destruct s as [c w]. simpl in *.
    unfold ws_recv, dispatch_stream, _dispatch. unfold_monad. simpl.
    rewrite Hr. simpl. rewrite Hl. simpl. rewrite Hs. simpl. rewrite Hhs.
    rewrite (dispatch_items_raise pre pat h post channel msg data ent e _
               Hd Hc Hok Hm Hh).
    reflexivity. }
  unfold _consume_msg, try_except, bind, get_self. cbn [fst snd].
  rewrite Hws, Hloop, He. reflexivity.
Qed.


End ConsumeMore.

(** ** The registry *)

Section RegistryMore.
Context `{Library}.

Lemma dict_del_set_fresh {V} k (v : V) d :
  ~ In k (dict_keys d) -> dict_del k (dict_set k v d) = d.
Proof.
  induction d as [|[k' v'] d IH]; simpl; intros Hk.
  - rewrite String.eqb_refl. reflexivity.
  - destruct (String.eqb k k') eqn:E.
    + apply String.eqb_eq in E. subst k'. tauto.
    + simpl. rewrite E, IH; [reflexivity|tauto].
Qed.

Lemma dict_set_at {V} k (v v' : V) pre post :
  ~ In k (dict_keys pre) ->
  dict_set k v' (pre ++ (k, v) :: post) = pre ++ (k, v') :: post.
Proof.
  induction pre as [|[k0 v0] pre IH]; simpl; intros Hk.
  - rewrite String.eqb_refl. reflexivity.
  - destruct (String.eqb k k0) eqn:E.
    + apply String.eqb_eq in E. subst k0. tauto.
    + rewrite IH; [reflexivity|tauto].
Qed.

Lemma conn_eta (c : _StreamConn) :
  set_handlers (_handlers c) (set_handler_symbols (_handler_symbols c) c) = c.
Proof. destruct c. reflexivity. Qed.

(** Registering a new pattern with a handler that is new to the object and
    deregistering the pattern gives the object back as it was. *)
Theorem register_deregister (s : sys) channel_pat func symbols :
  h_coroutine func = true ->
  re_valid channel_pat = true ->
  ~ In channel_pat (dict_keys (_handlers (self s))) ->
  ~ In (h_name func) (dict_keys (_handler_symbols (self s))) ->
  (register channel_pat func symbols ;; deregister channel_pat)%py s =
    (Ret tt, s).
Proof.
  intros Hco Hre Hp Hf. unfold bind at 1.
  rewrite register_run by assumption.
  unfold deregister. unfold_monad. rewrite Hre. simpl.
  rewrite dict_get_set_eq. simpl.
  rewrite !dict_del_set_fresh by assumption.
  destruct s as [c w]. destruct c. reflexivity.
Qed.

(** The errors of the registry leave the object as it was: [register]
    refuses a handler that is not a coroutine function before it looks at
    the pattern, and [deregister] raises [KeyError] for a pattern that is
    not registered. *)
Theorem registry_errors (s : sys) channel_pat func symbols :
  (h_coroutine func = false ->
   register channel_pat func symbols s =
     (Raise (ValueError NotACoroutine), s)) /\
  (h_coroutine func = true -> re_valid channel_pat = false ->
   register channel_pat func symbols s = (Raise (ReError channel_pat), s)) /\
  (re_valid channel_pat = true ->
   dict_get channel_pat (_handlers (self s)) = None ->
   deregister channel_pat s = (Raise (KeyError channel_pat), s)).
Proof.
  unfold register, deregister. unfold_monad.
  split; [|split].
  - intros ->. reflexivity.
  - intros -> ->. reflexivity.
  - intros -> Hg. simpl. rewrite Hg. reflexivity.
Qed.

(** Registering a pattern again replaces its handler where the pattern
    stands in the registry: the other entries and the order are kept, so
    that a dispatch invokes the new handler at the place of the old
    one. *)
Theorem register_replaces_in_place (s : sys) pre post channel_pat
  old func symbols :
  h_coroutine func = true ->
  re_valid channel_pat = true ->
  _handlers (self s) = pre ++ (channel_pat, old) :: post ->
  ~ In channel_pat (dict_keys pre) ->
  let r := register channel_pat func symbols s in
  fst r = Ret tt /\
  _handlers (self (snd r)) = pre ++ (channel_pat, func) :: post /\
  dict_get (h_name func) (_handler_symbols (self (snd r))) = Some symbols.
Proof.
  intros Hco Hre Hhs Hp r. subst r.
  rewrite register_run by assumption. simpl.
  rewrite Hhs, dict_set_at by exact Hp.
  rewrite dict_get_set_eq. repeat split.
Qed.

(** A message without [data]: when no pattern matches its channel the
    dispatch does nothing; when one does, the dispatch raises [KeyError]
    at the first matching pattern, before any handler is invoked. *)
Theorem dispatch_without_data (s : sys) channel msg e :
  json_item msg "data" = inl e ->
  _dispatch channel msg s =
    (match matching (_handlers (self s)) channel with
     | [] => Ret tt
     | _ :: _ => Raise e
     end, s).
Proof.
  intros Hd. unfold _dispatch, bind, get_self. cbn [fst snd].
  induction (_handlers (self s)) as [|[pat h] hs IH]; [reflexivity|].
  simpl. unfold matching in *. simpl.
  unfold bind at 1.
  destruct (re_match pat channel).
  - unfold bind, lift. rewrite Hd. reflexivity.
  - simpl. exact IH.
Qed.
End RegistryMore.

(** ** The caster, in general *)

Section CastMore.
Context `{Library}.

Lemma feed_prefixes_disjoint (channel : string) :
  (String.prefix "Q." channel = true ->
   String.prefix "T." channel = false) /\
  (String.prefix "A." channel = true ->
   String.prefix "T." channel = false /\ String.prefix "Q." channel = false) /\
  (String.prefix "AM." channel = true ->
   String.prefix "T." channel = false /\ String.prefix "Q." channel = false).
Proof.
  split; [|split]; intros Hp; apply prefix_cons in Hp;
    destruct Hp as (c1 & -> & Hp); try split; reflexivity.
Qed.

(** The record [_cast] builds from a body that is a dictionary, by the
    name of the channel: [account_updates] gives an [Account] of the raw
    body, the prefixes [T.], [Q.] and [A.] or [AM.] give a [Trade], a
    [Quote] and an [Agg] of the fields renamed by their table, and every
    other channel gives an [Entity] of the raw body.  It never raises. *)
Theorem cast_by_channel (channel : string) (kv : list (string * json)) :
  (channel = "account_updates" ->
   _cast channel (JObj kv) = inr (Account (JObj kv))) /\
  (String.prefix "T." channel = true ->
   _cast channel (JObj kv) = inr (Trade (rename trade_mapping kv))) /\
  (String.prefix "Q." channel = true ->
   _cast channel (JObj kv) = inr (Quote (rename quote_mapping kv))) /\
  (String.prefix "A." channel = true \/ String.prefix "AM." channel = true ->
   _cast channel (JObj kv) = inr (Agg (rename agg_mapping kv))) /\
  (channel <> "account_updates" ->
   String.prefix "T." channel = false -> String.prefix "Q." channel = false ->
   String.prefix "A." channel = false -> String.prefix "AM." channel = false ->
   _cast channel (JObj kv) = inr (Entity (JObj kv))).
Proof.
  destruct (feed_prefixes_disjoint channel) as (HQ & HA & HAM).
  assert (Hacc : String.prefix "T." channel = true \/
                 String.prefix "Q." channel = true \/
                 String.prefix "A." channel = true \/
                 String.prefix "AM." channel = true ->
                 String.eqb channel "account_updates" = false).
  { intros Hor. apply feed_prefix_not_named.
    rewrite !orb_true_iff. tauto. }
  unfold _cast. split; [|split; [|split; [|split]]].
  - intros ->. reflexivity.
  - intros Hp. rewrite Hacc by tauto. rewrite Hp. reflexivity.
  - intros Hp. rewrite Hacc by tauto. rewrite (HQ Hp), Hp. reflexivity.
  - intros Hor. rewrite Hacc by tauto. destruct Hor as [Hp|Hp].
    + destruct (HA Hp) as (-> & ->). rewrite Hp. reflexivity.
    + destruct (HAM Hp) as (-> & ->). rewrite Hp, orb_true_r. reflexivity.
  - intros Hne HT HQ' HA' HAM'. apply String.eqb_neq in Hne.
    rewrite Hne, HT, HQ', HA', HAM'. reflexivity.
Qed.

(** A body that is not a dictionary: the channels of the three feeds raise
    [AttributeError] (the body has no [items]), every other channel wraps
    the body as it is. *)
Theorem cast_not_a_dict (channel : string) (msg : json) e :
  items msg = inl e ->
  _cast channel msg =
    if String.eqb channel "account_updates" then inr (Account msg)
    else if String.prefix "T." channel || String.prefix "Q." channel
            || String.prefix "A." channel || String.prefix "AM." channel
    then inl e
    else inr (Entity msg).
Proof.
  intros Hi. unfold _cast. rewrite Hi.
  destruct (String.eqb channel "account_updates"); [reflexivity|].
  destruct (String.prefix "T." channel); [reflexivity|].
  destruct (String.prefix "Q." channel); [reflexivity|].
  destruct (String.prefix "A." channel); [reflexivity|].
  destruct (String.prefix "AM." channel); reflexivity.
Qed.

Lemma dict_get_In {V} k (v : V) d :
  dict_get k d = Some v -> In (k, v) d.
Proof.
  induction d as [|[k' v'] d IH]; simpl; [discriminate|].
  destruct (String.eqb_spec k k') as [->|Hne].
  - intros [= ->]. left. reflexivity.
  - intros Hg. right. apply IH. exact Hg.
Qed.

Lemma In_dict_get {V} k (v : V) d :
  List.NoDup (dict_keys d) -> In (k, v) d -> dict_get k d = Some v.
Proof.
  induction d as [|[k' v'] d IH]; simpl; intros Hnd Hin; [tauto|].
  inversion Hnd as [|x l Hx Hnd']; subst.
  destruct Hin as [[= -> ->]|Hin].
  - rewrite String.eqb_refl. reflexivity.
  - destruct (String.eqb_spec k k') as [->|Hne]; [|apply IH; assumption].
    exfalso. apply Hx. unfold dict_keys.
    change k' with (fst (k', v)). apply in_map. exact Hin.
Qed.

(** The renaming of a body whose keys are distinct, by a table that sends
    no two keys of the body to one field: a field holds a value exactly
    when the body holds that value under a key the table renames to the
    field. *)
Theorem rename_exact (mapping : list (string * string))
  (kv : list (string * json)) k' v :
  List.NoDup (dict_keys kv) ->
  (forall k1 k2 v1 v2, In (k1, v1) kv -> In (k2, v2) kv ->
     dict_get k1 mapping = Some k' -> dict_get k2 mapping = Some k' ->
     k1 = k2) ->
  dict_get k' (rename mapping kv) = Some v <->
  exists k, dict_get k mapping = Some k' /\ dict_get k kv = Some v.
Proof.
  intros Hnd Hinj. split.
  - intros Hg. unfold rename in Hg. apply rename_sound in Hg.
    destruct Hg as [Hg|(k & Hk & Hin)]; [discriminate|].
    exists k. split; [exact Hk|]. apply In_dict_get; assumption.
  - intros (k & Hk & Hg). apply dict_get_In in Hg.
    unfold rename.
    enough (Hgen : forall acc items,
              (forall k2 v2, In (k2, v2) items ->
                 dict_get k2 mapping = Some k' -> k2 = k /\ v2 = v) ->
              (In (k, v) items \/ dict_get k' acc = Some v) ->
              dict_get k' (fold_left (rename_step mapping) items acc)
              = Some v).
    { apply Hgen; [|left; exact Hg].
      intros k2 v2 Hin2 Hk2.
      assert (k2 = k) by (eapply Hinj; eassumption). subst k2.
      split; [reflexivity|].
      apply In_dict_get in Hin2; [|exact Hnd].
      apply In_dict_get in Hg; [|exact Hnd]. congruence. }
    intros acc items. revert acc.
    induction items as [|[k0 v0] items IH]; intros acc Hall Hor; simpl.
    + destruct Hor as [[]|Hacc]. exact Hacc.
    + apply IH.
      * intros k2 v2 Hin2. apply Hall. right. exact Hin2.
      * unfold rename_step. simpl.
        destruct (dict_get k0 mapping) as [k1|] eqn:Hm.
        -- destruct (String.eqb_spec k1 k') as [->|Hne].
           ++ destruct (Hall k0 v0 (or_introl eq_refl) Hm) as (-> & ->).
              right. apply dict_get_set_eq.
           ++ destruct Hor as [[Heq|Hin]|Hacc].
              ** injection Heq as -> ->. congruence.
              ** left. exact Hin.
              ** right. rewrite dict_get_set_ne by exact Hne. exact Hacc.
        -- destruct Hor as [[Heq|Hin]|Hacc].
           ++ injection Heq as -> ->. congruence.
           ++ left. exact Hin.
           ++ right. exact Hacc.
Qed.
End CastMore.

(** ** __init__ *)

Lemma substring_all (s : string) : String.substring 0 (String.length s) s = s.
Proof. induction s as [|a s IH]; simpl; [|rewrite IH]; reflexivity. Qed.

(** The endpoint of a new object: a leading [http] of the base URL is
    replaced by [ws] (so [https] becomes [wss]), any other URL is kept,
    and [/stream] is appended.  The new object is disconnected, with an
    empty registry, no subscription and an untouched retry budget. *)
Theorem init_endpoint (key_id secret_key rest : string) (retry retry_wait : Z) :
  let c := __init__ key_id secret_key ("http" ++ rest)%string retry retry_wait in
  _endpoint c = ("ws" ++ rest ++ "/stream")%string /\
  (forall url, String.prefix "http" url = false ->
     _endpoint (__init__ key_id secret_key url retry retry_wait) =
     (url ++ "/stream")%string) /\
  _ws c = None /\ _streams c = ∅ /\ _handlers c = [] /\
  _retries c = 0 /\ _retry c = retry /\ _retry_wait c = retry_wait.
Proof.
  cbn zeta. unfold __init__, ws_url. cbn [_endpoint _ws _streams _handlers
    _retries _retry _retry_wait].
  split; [|split; [|repeat split]].
  - change (String.prefix "http" ("http" ++ rest)%string) with (String.prefix "" rest).
    replace (String.prefix "" rest) with true
      by (destruct rest; reflexivity).
    change (String.substring 4 (String.length ("http" ++ rest)%string - 4)
              ("http" ++ rest)%string)
      with (String.substring 0 (String.length rest - 0) rest).
    rewrite Nat.sub_0_r, substring_all. reflexivity.
  - intros url Hp. rewrite Hp. reflexivity.
Qed.

(** ** class StreamConn *)

Section Mux.
Context `{Library} `{PolygonLibrary}.

Ltac unfold_mux :=
  unfold StreamConn.mbind, StreamConn.mret, StreamConn.mraise,
    StreamConn.get_this, StreamConn.set_this, StreamConn.when_conn,
    StreamConn.when_polygon, StreamConn.call, StreamConn.call_polygon in *.

Lemma get_set_conn a b c (o : StreamConn.t) :
  StreamConn.get_conn a (StreamConn.set_conn b c o) =
  match a, b with
  | StreamConn.Trading_ws, StreamConn.Trading_ws
  | StreamConn.Data_ws, StreamConn.Data_ws => c
  | _, _ => StreamConn.get_conn a o
  end.
Proof. destruct a, b; reflexivity. Qed.

(** A method that keeps the registry of a connection. *)
Lemma call_keeps_synced {A} a method (m : M A) (s : StreamConn.state) :
  (forall s0,
     _handlers (self (snd (m s0))) = _handlers (self s0) /\
     _handler_symbols (self (snd (m s0))) = _handler_symbols (self s0)) ->
  StreamConn.synced (StreamConn.this s) ->
  StreamConn.synced (StreamConn.this (snd (StreamConn.call a method m s))).
Proof.
  intros Hm Hsync. unfold StreamConn.call.
  destruct (StreamConn.get_conn a (StreamConn.this s)) as [c|] eqn:Hc;
    [|exact Hsync].
  simpl. intros b c' Hb. rewrite get_set_conn in Hb.
  destruct (Hsync a c Hc) as (Hh & Hs).
  destruct (Hm {| self := c; env := StreamConn.loop s |}) as (Hh' & Hs').
  simpl in Hh', Hs'.
  destruct a, b; simpl in *;
    try (injection Hb as <-; split; congruence);
    first [ apply (Hsync StreamConn.Trading_ws _ Hb)
          | apply (Hsync StreamConn.Data_ws _ Hb) ].
Qed.

Lemma mbind_keeps {A B} (P : StreamConn.t -> Prop)
  (m : StreamConn.MM A) (k : A -> StreamConn.MM B) s :
  P (StreamConn.this (snd (m s))) ->
  (forall a, fst (m s) = Ret a ->
     P (StreamConn.this (snd (k a (snd (m s)))))) ->
  P (StreamConn.this (snd (StreamConn.mbind m k s))).
Proof.
  unfold StreamConn.mbind. intros Hm Hk.
  destruct (m s) as [[a|e| |] s1]; simpl in *; try exact Hm.
  apply Hk. reflexivity.
Qed.

Lemma call_polygon_keeps_synced method m (s : StreamConn.state) :
  StreamConn.synced (StreamConn.this s) ->
  StreamConn.synced
    (StreamConn.this (snd (StreamConn.call_polygon method m s))).
Proof.
  intros Hsync. unfold StreamConn.call_polygon.
  destruct (StreamConn.polygon (StreamConn.this s)); [|exact Hsync].
  simpl. intros a c Ha. apply (Hsync a). destruct a; exact Ha.
Qed.

Lemma conn_subscribe_keeps_registry fuel chans (s0 : sys) :
  _handlers (self (snd (subscribe fuel chans s0))) = _handlers (self s0) /\
  _handler_symbols (self (snd (subscribe fuel chans s0))) =
    _handler_symbols (self s0).
Proof.
  destruct (subscribe_adds_apart_from_handlers fuel chans s0)
    as ((_ & _ & _ & _ & Hh & Hs & _) & _).
  split; assumption.
Qed.

Lemma conn_connect_keeps_registry (s0 : sys) :
  _handlers (self (snd (_connect s0))) = _handlers (self s0) /\
  _handler_symbols (self (snd (_connect s0))) = _handler_symbols (self s0).
Proof.
  destruct (keeps_subscriptions_apart_from_handlers 0 s0 (PyList []) ""
              JNull)
    as (((_ & _ & _ & _ & Hh & Hs & _) & _) & _).
  split; assumption.
Qed.

Lemma conn_close_keeps_registry (s0 : sys) :
  _handlers (self (snd (close s0))) = _handlers (self s0) /\
  _handler_symbols (self (snd (close s0))) = _handler_symbols (self s0).
Proof.
  destruct (keeps_subscriptions_apart_from_handlers 0 s0 (PyList []) ""
              JNull)
    as (_ & ((_ & _ & _ & _ & Hh & Hs & _) & _) & _).
  split; assumption.
Qed.

Lemma ensure_ws_keeps_synced a (s : StreamConn.state) :
  StreamConn.synced (StreamConn.this s) ->
  StreamConn.synced (StreamConn.this (snd (StreamConn._ensure_ws a s))).
Proof.
  intros Hsync. unfold StreamConn._ensure_ws.
  unfold StreamConn.mbind at 1. unfold StreamConn.get_this. cbn [fst snd].
  destruct (StreamConn.get_conn a (StreamConn.this s)) as [c|] eqn:Hc;
    [|exact Hsync].
  destruct (_handlers c) eqn:Hhs; [|exact Hsync].
  unfold StreamConn.mbind, StreamConn.set_this. cbn [fst snd].
  apply call_keeps_synced; [apply conn_connect_keeps_registry|].
  simpl. intros b c' Hb. rewrite get_set_conn in Hb.
  destruct a, b; simpl in *;
    try (injection Hb as <-; simpl; split; reflexivity);
    first [ apply (Hsync StreamConn.Trading_ws _ Hb)
          | apply (Hsync StreamConn.Data_ws _ Hb) ].
Qed.

Lemma synced_set_polygon p (o : StreamConn.t) :
  StreamConn.synced o -> StreamConn.synced (StreamConn.set_polygon p o).
Proof. intros Hs a c Ha. apply (Hs a). destruct a; exact Ha. Qed.

Lemma synced_unset a (o : StreamConn.t) :
  StreamConn.synced o -> StreamConn.synced (StreamConn.set_conn a None o).
Proof.
  intros Hs b c Hb. rewrite get_set_conn in Hb.
  destruct a, b; simpl in *; try discriminate;
    first [ apply (Hs StreamConn.Trading_ws _ Hb)
          | apply (Hs StreamConn.Data_ws _ Hb) ].
Qed.

Lemma ensure_polygon_keeps_synced (s : StreamConn.state) :
  StreamConn.synced (StreamConn.this s) ->
  StreamConn.synced (StreamConn.this (snd (StreamConn._ensure_polygon s))).
Proof.
  intros Hsync. unfold StreamConn._ensure_polygon.
  unfold StreamConn.mbind at 1. unfold StreamConn.get_this. cbn [fst snd].
  destruct (StreamConn.polygon (StreamConn.this s)) as [p|]; [|exact Hsync].
  destruct (polygon_handlers p); [|exact Hsync].
  unfold StreamConn.mbind, StreamConn.set_this. cbn [fst snd].
  apply call_polygon_keeps_synced. simpl.
  apply synced_set_polygon. exact Hsync.
Qed.

Lemma subscribe_keeps_synced fuel channels (s : StreamConn.state) :
  StreamConn.synced (StreamConn.this s) ->
  StreamConn.synced
    (StreamConn.this (snd (StreamConn.subscribe fuel channels s))).
Proof.
  unfold StreamConn.subscribe.
  destruct (partition_channels channels) as [[tc dc] pc].
  assert (Hblock : forall a l s0,
            StreamConn.synced (StreamConn.this s0) ->
            StreamConn.synced
              (StreamConn.this
                 (snd (match l with
                       | _ :: _ =>
                           StreamConn.mbind (StreamConn._ensure_ws a)
                             (fun _ =>
                                StreamConn.call a "subscribe"
                                  (subscribe fuel (PyList l)))
                       | [] => StreamConn.mret tt
                       end s0)))).
  { intros a l s0 Hs0. destruct l; [exact Hs0|].
    apply (mbind_keeps StreamConn.synced).
    - apply ensure_ws_keeps_synced. exact Hs0.
    - intros _ _. apply call_keeps_synced;
        [apply conn_subscribe_keeps_registry|].
      apply ensure_ws_keeps_synced. exact Hs0. }
  intros Hsync.
  apply (mbind_keeps StreamConn.synced); [apply Hblock; exact Hsync|].
  intros _ _.
  apply (mbind_keeps StreamConn.synced);
    [apply Hblock, Hblock; exact Hsync|].
  intros _ _. destruct pc; [apply Hblock, Hblock; exact Hsync|].
  apply (mbind_keeps StreamConn.synced).
  - apply ensure_polygon_keeps_synced, Hblock, Hblock. exact Hsync.
  - intros _ _. apply call_polygon_keeps_synced,
      ensure_polygon_keeps_synced, Hblock, Hblock. exact Hsync.
Qed.

Lemma close_keeps_synced (s : StreamConn.state) :
  StreamConn.synced (StreamConn.this s) ->
  StreamConn.synced (StreamConn.this (snd (StreamConn.close s))).
Proof.
  assert (Hblock : forall a s0,
            StreamConn.synced (StreamConn.this s0) ->
            StreamConn.synced
              (StreamConn.this
                 (snd (StreamConn.mbind (StreamConn.call a "close" close)
                         (fun _ =>
                            StreamConn.set_this (StreamConn.set_conn a None))
                         s0)))).
  { intros a s0 Hs0. apply (mbind_keeps StreamConn.synced).
    - apply call_keeps_synced; [apply conn_close_keeps_registry|exact Hs0].
    - intros _ _. simpl. apply synced_unset.
      apply call_keeps_synced; [apply conn_close_keeps_registry|exact Hs0]. }
  intros Hsync. unfold StreamConn.close.
  unfold StreamConn.mbind at 1. unfold StreamConn.get_this at 1.
  cbn [fst snd].
  apply (mbind_keeps StreamConn.synced).
  { destruct (StreamConn.trading_ws (StreamConn.this s));
      [apply (Hblock StreamConn.Trading_ws)|]; exact Hsync. }
  intros _ _.
  match goal with
  | |- context [snd (?m s)] => set (s1 := snd (m s)) in *;
      assert (Hs1 : StreamConn.synced (StreamConn.this s1))
  end.
  { subst s1. destruct (StreamConn.trading_ws (StreamConn.this s));
      [apply (Hblock StreamConn.Trading_ws)|]; exact Hsync. }
  clearbody s1.
  unfold StreamConn.mbind at 1. unfold StreamConn.get_this at 1.
  cbn [fst snd].
  apply (mbind_keeps StreamConn.synced).
  { destruct (StreamConn.data_ws (StreamConn.this s1));
      [apply (Hblock StreamConn.Data_ws)|]; exact Hs1. }
  intros _ _.
  match goal with
  | |- context [snd (?m s1)] => set (s2 := snd (m s1)) in *;
      assert (Hs2 : StreamConn.synced (StreamConn.this s2))
  end.
  { subst s2. destruct (StreamConn.data_ws (StreamConn.this s1));
      [apply (Hblock StreamConn.Data_ws)|]; exact Hs1. }
  clearbody s2.
  unfold StreamConn.mbind at 1. unfold StreamConn.get_this at 1.
  cbn [fst snd].
  destruct (StreamConn.polygon (StreamConn.this s2)); [|exact Hs2].
  apply (mbind_keeps StreamConn.synced).
  - apply call_polygon_keeps_synced. exact Hs2.
  - intros _ _. simpl. apply synced_set_polygon.
    apply call_polygon_keeps_synced. exact Hs2.
Qed.

(** The equation of the run, as the proofs below use it. *)
Lemma mux_register_eq (s : StreamConn.state) channel_pat func symbols :
  h_coroutine func = true ->
  re_valid channel_pat = true ->
  let o := StreamConn.this s in
  let written c :=
    set_handler_symbols
      (dict_set (h_name func) symbols (_handler_symbols c))
      (set_handlers (dict_set channel_pat func (_handlers c)) c) in
  StreamConn.register channel_pat func symbols s =
    (match StreamConn.polygon o with
     | Some p =>
         match fst (polygon_register channel_pat func symbols p) with
         | Some e => Raise e
         | None => Ret tt
         end
     | None => Ret tt
     end,
     {| StreamConn.this :=
          {| StreamConn.trading_ws :=
               option_map written (StreamConn.trading_ws o);
             StreamConn.data_ws := option_map written (StreamConn.data_ws o);
             StreamConn.polygon :=
               option_map
                 (fun p => snd (polygon_register channel_pat func symbols p))
                 (StreamConn.polygon o);
             StreamConn.handlers :=
               dict_set channel_pat func (StreamConn.handlers o);
             StreamConn.handler_symbols :=
               dict_set (h_name func) symbols (StreamConn.handler_symbols o)
          |};
        StreamConn.loop := StreamConn.loop s |}).
Proof.
  intros Hco Hre. cbn zeta. destruct s as [[tw dw pg hs sy] w].
  unfold StreamConn.register. unfold_mux. rewrite Hco, Hre. simpl.
  destruct tw as [tc|], dw as [dc|], pg as [p|]; simpl;
    rewrite ?register_run by assumption; simpl;
    try (destruct (polygon_register channel_pat func symbols p) as [[e|] p'];
         reflexivity);
    reflexivity.
Qed.

(** [register] of the object, when the handler and the pattern are
    accepted: the entry is written to the registry of the object and to
    the registries of the connections it still owns, without a call into
    the environment; the outcome is that of the polygon connection's
    [register]. *)
Theorem mux_register_run (s : StreamConn.state) channel_pat func symbols :
  h_coroutine func = true ->
  re_valid channel_pat = true ->
  let o := StreamConn.this s in
  let written c :=
    set_handler_symbols
      (dict_set (h_name func) symbols (_handler_symbols c))
      (set_handlers (dict_set channel_pat func (_handlers c)) c) in
  StreamConn.register channel_pat func symbols s =
    (match StreamConn.polygon o with
     | Some p =>
         match fst (polygon_register channel_pat func symbols p) with
         | Some e => Raise e
         | None => Ret tt
         end
     | None => Ret tt
     end,
     {| StreamConn.this :=
          {| StreamConn.trading_ws :=
               option_map written (StreamConn.trading_ws o);
             StreamConn.data_ws := option_map written (StreamConn.data_ws o);
             StreamConn.polygon :=
               option_map
                 (fun p => snd (polygon_register channel_pat func symbols p))
                 (StreamConn.polygon o);
             StreamConn.handlers :=
               dict_set channel_pat func (StreamConn.handlers o);
             StreamConn.handler_symbols :=
               dict_set (h_name func) symbols (StreamConn.handler_symbols o)
          |};
        StreamConn.loop := StreamConn.loop s |}).
Proof.
  intros Hco Hre. cbn zeta. destruct s as [[tw dw pg hs sy] w].
  unfold StreamConn.register. unfold_mux. rewrite Hco, Hre. simpl.
  destruct tw as [tc|], dw as [dc|], pg as [p|]; simpl;
    rewrite ?register_run by assumption; simpl;
    try (destruct (polygon_register channel_pat func symbols p) as [[e|] p'];
         reflexivity);
    reflexivity.
Qed.

(** The equation of the run, as the proofs below use it. *)
Lemma mux_deregister_eq (s : StreamConn.state) channel_pat func :
  re_valid channel_pat = true ->
  StreamConn.synced (StreamConn.this s) ->
  dict_get channel_pat (StreamConn.handlers (StreamConn.this s)) = Some func ->
  let o := StreamConn.this s in
  let removed c :=
    set_handlers (dict_del channel_pat (_handlers c))
      (set_handler_symbols
         (dict_del (h_name func) (_handler_symbols c)) c) in
  StreamConn.deregister channel_pat s =
    (match StreamConn.polygon o with
     | Some p =>
         match fst (polygon_deregister channel_pat p) with
         | Some e => Raise e
         | None => Ret tt
         end
     | None => Ret tt
     end,
     {| StreamConn.this :=
          {| StreamConn.trading_ws :=
               option_map removed (StreamConn.trading_ws o);
             StreamConn.data_ws := option_map removed (StreamConn.data_ws o);
             StreamConn.polygon :=
               option_map (fun p => snd (polygon_deregister channel_pat p))
                 (StreamConn.polygon o);
             StreamConn.handlers :=
               dict_del channel_pat (StreamConn.handlers o);
             StreamConn.handler_symbols :=
               dict_del (h_name func) (StreamConn.handler_symbols o) |};
        StreamConn.loop := StreamConn.loop s |}).
Proof.
  intros Hre Hsync Hg. cbn zeta. destruct s as [[tw dw pg hs sy] w].
  simpl in *.
  assert (Hrun : forall c w0, _handlers c = hs ->
            deregister channel_pat {| self := c; env := w0 |} =
              (Ret tt,
               {| self :=
                    set_handlers (dict_del channel_pat (_handlers c))
                      (set_handler_symbols
                         (dict_del (h_name func) (_handler_symbols c)) c);
                  env := w0 |})).
  { intros c w0 Hc. unfold deregister. unfold_monad. rewrite Hre. simpl.
    rewrite Hc, Hg. simpl. rewrite Hc. reflexivity. }
  unfold StreamConn.deregister. unfold_mux. rewrite Hre. simpl. rewrite Hg.
  simpl.
  destruct tw as [tc|], dw as [dc|], pg as [p|]; simpl;
    try (rewrite (Hrun tc)
           by (apply (Hsync StreamConn.Trading_ws tc eq_refl)));
    simpl;
    try (rewrite (Hrun dc)
           by (apply (Hsync StreamConn.Data_ws dc eq_refl)));
    simpl;
    try (destruct (polygon_deregister channel_pat p) as [[e|] p'];
         reflexivity);
    reflexivity.
Qed.

(** [deregister] of the object, on a pattern of the registry: the entry
    and the symbols of its handler are removed from the registry of the
    object and from the registries of the connections, which hold the
    same entries. *)
Theorem mux_deregister_run (s : StreamConn.state) channel_pat func :
  re_valid channel_pat = true ->
  StreamConn.synced (StreamConn.this s) ->
  dict_get channel_pat (StreamConn.handlers (StreamConn.this s)) = Some func ->
  let o := StreamConn.this s in
  let removed c :=
    set_handlers (dict_del channel_pat (_handlers c))
      (set_handler_symbols
         (dict_del (h_name func) (_handler_symbols c)) c) in
  StreamConn.deregister channel_pat s =
    (match StreamConn.polygon o with
     | Some p =>
         match fst (polygon_deregister channel_pat p) with
         | Some e => Raise e
         | None => Ret tt
         end
     | None => Ret tt
     end,
     {| StreamConn.this :=
          {| StreamConn.trading_ws :=
               option_map removed (StreamConn.trading_ws o);
             StreamConn.data_ws := option_map removed (StreamConn.data_ws o);
             StreamConn.polygon :=
               option_map (fun p => snd (polygon_deregister channel_pat p))
                 (StreamConn.polygon o);
             StreamConn.handlers :=
               dict_del channel_pat (StreamConn.handlers o);
             StreamConn.handler_symbols :=
               dict_del (h_name func) (StreamConn.handler_symbols o) |};
        StreamConn.loop := StreamConn.loop s |}).
Proof.
  intros Hre Hsync Hg. cbn zeta. destruct s as [[tw dw pg hs sy] w].
  simpl in *.
  assert (Hrun : forall c w0, _handlers c = hs ->
            deregister channel_pat {| self := c; env := w0 |} =
              (Ret tt,
               {| self :=
                    set_handlers (dict_del channel_pat (_handlers c))
                      (set_handler_symbols
                         (dict_del (h_name func) (_handler_symbols c)) c);
                  env := w0 |})).
  { intros c w0 Hc. unfold deregister. unfold_monad. rewrite Hre. simpl.
    rewrite Hc, Hg. simpl. rewrite Hc. reflexivity. }
  unfold StreamConn.deregister. unfold_mux. rewrite Hre. simpl. rewrite Hg.
  simpl.
  destruct tw as [tc|], dw as [dc|], pg as [p|]; simpl;
    try (rewrite (Hrun tc)
           by (apply (Hsync StreamConn.Trading_ws tc eq_refl)));
    simpl;
    try (rewrite (Hrun dc)
           by (apply (Hsync StreamConn.Data_ws dc eq_refl)));
    simpl;
    try (destruct (polygon_deregister channel_pat p) as [[e|] p'];
         reflexivity);
    reflexivity.
Qed.

Lemma register_keeps_synced (s : StreamConn.state) channel_pat func symbols :
  StreamConn.synced (StreamConn.this s) ->
  StreamConn.synced
    (StreamConn.this (snd (StreamConn.register channel_pat func symbols s))).
Proof.
  intros Hsync.
  destruct (h_coroutine func) eqn:Hco;
    [|unfold StreamConn.register; unfold_mux; rewrite Hco; exact Hsync].
  destruct (re_valid channel_pat) eqn:Hre;
    [|unfold StreamConn.register; unfold_mux; rewrite Hco, Hre; exact Hsync].
  rewrite mux_register_eq by assumption. cbn zeta. simpl.
  intros a c Ha.
  destruct a; simpl in Ha;
    [destruct (StreamConn.trading_ws (StreamConn.this s)) as [c0|] eqn:Hc
    |destruct (StreamConn.data_ws (StreamConn.this s)) as [c0|] eqn:Hc];
    simpl in Ha; try discriminate; injection Ha as <-; simpl;
    [destruct (Hsync StreamConn.Trading_ws c0 Hc) as (-> & ->)
    |destruct (Hsync StreamConn.Data_ws c0 Hc) as (-> & ->)];
    split; reflexivity.
Qed.

Lemma deregister_keeps_synced (s : StreamConn.state) channel_pat :
  StreamConn.synced (StreamConn.this s) ->
  StreamConn.synced
    (StreamConn.this (snd (StreamConn.deregister channel_pat s))).
Proof.
  intros Hsync.
  destruct (re_valid channel_pat) eqn:Hre;
    [|unfold StreamConn.deregister; unfold_mux; rewrite Hre; exact Hsync].
  destruct (dict_get channel_pat (StreamConn.handlers (StreamConn.this s)))
    as [func|] eqn:Hg;
    [|unfold StreamConn.deregister; unfold_mux; rewrite Hre; simpl;
      rewrite Hg; exact Hsync].
  rewrite (mux_deregister_eq s channel_pat func) by assumption.
  cbn zeta. simpl. intros a c Ha.
  destruct a; simpl in Ha;
    [destruct (StreamConn.trading_ws (StreamConn.this s)) as [c0|] eqn:Hc
    |destruct (StreamConn.data_ws (StreamConn.this s)) as [c0|] eqn:Hc];
    simpl in Ha; try discriminate; injection Ha as <-; simpl;
    [destruct (Hsync StreamConn.Trading_ws c0 Hc) as (-> & ->)
    |destruct (Hsync StreamConn.Data_ws c0 Hc) as (-> & ->)];
    split; reflexivity.
Qed.

(** The registries of the two connections are those of the object: this
    holds for a new object and is kept, whatever the environment does
    and however the method ends, by [unsubscribe], [close], [register]
    and [deregister], which invoke no handler, and by every run of
    [subscribe] in which no handler is invoked.  (A handler invoked in
    the handshake of a connection is handed that connection and can
    register on it alone.) *)
Theorem registries_stay_synced :
  (forall key_id secret_key base_url data_url retry retry_wait,
     StreamConn.synced
       (StreamConn.__init__ key_id secret_key base_url data_url
          retry retry_wait)) /\
  (forall (s : StreamConn.state),
     StreamConn.synced (StreamConn.this s) ->
     (forall fuel channels,
        StreamConn.no_invocation (StreamConn.subscribe fuel channels) s ->
        StreamConn.synced
          (StreamConn.this (snd (StreamConn.subscribe fuel channels s)))) /\
     (forall channels,
        StreamConn.synced
          (StreamConn.this (snd (StreamConn.unsubscribe channels s)))) /\
     StreamConn.synced (StreamConn.this (snd (StreamConn.close s))) /\
     (forall channel_pat func symbols,
        StreamConn.synced
          (StreamConn.this
             (snd (StreamConn.register channel_pat func symbols s)))) /\
     (forall channel_pat,
        StreamConn.synced
          (StreamConn.this (snd (StreamConn.deregister channel_pat s))))).
Proof.
  split.
  - intros key_id secret_key base_url data_url retry retry_wait a c Ha.
    destruct a; simpl in Ha; injection Ha as <-; split; reflexivity.
  - intros s Hsync. split; [|split; [|split; [|split]]].
    + intros fuel channels _. apply subscribe_keeps_synced. exact Hsync.
    + intros channels. unfold StreamConn.unsubscribe.
      destruct (unsubscribe_channels channels); [exact Hsync|].
      apply call_polygon_keeps_synced. exact Hsync.
    + apply close_keeps_synced. exact Hsync.
    + intros. apply register_keeps_synced. exact Hsync.
    + intros. apply deregister_keeps_synced. exact Hsync.
Qed.

Lemma conn_eta_registry (c : _StreamConn) :
  set_handler_symbols (_handler_symbols c) (set_handlers (_handlers c) c) = c.
Proof. destruct c. reflexivity. Qed.

Lemma set_conn_same a c (o : StreamConn.t) :
  StreamConn.get_conn a o = Some c -> StreamConn.set_conn a (Some c) o = o.
Proof. destruct o, a; simpl; intros ->; reflexivity. Qed.

(** The equation of the run, as the proofs below use it. *)
Lemma mux_ensure_ws_eq (s : StreamConn.state) a c :
  StreamConn.synced (StreamConn.this s) ->
  StreamConn.get_conn a (StreamConn.this s) = Some c ->
  StreamConn._ensure_ws a s =
    match StreamConn.handlers (StreamConn.this s) with
    | [] => StreamConn.call a "_connect" _connect s
    | _ :: _ => (Ret tt, s)
    end.
Proof.
  intros Hsync Hc. destruct (Hsync a c Hc) as (Hh & Hs).
  unfold StreamConn._ensure_ws.
  unfold StreamConn.mbind at 1. unfold StreamConn.get_this. cbn [fst snd].
  rewrite Hc, Hh.
  destruct (StreamConn.handlers (StreamConn.this s)) eqn:Hhs;
    [|reflexivity].
  assert (Hc' : set_handler_symbols
                  (StreamConn.handler_symbols (StreamConn.this s))
                  (set_handlers [] c) = c).
  { rewrite <- Hs. rewrite <- Hh. apply conn_eta_registry. }
  rewrite Hc'.
  unfold StreamConn.mbind, StreamConn.set_this. cbn [fst snd].
  rewrite set_conn_same by exact Hc.
  destruct s as [o w]. reflexivity.
Qed.

(** [_ensure_ws(conn)] of the object connects exactly when the registry is
    empty: with a handler registered it does nothing (the connection is
    then made by the connection's own [_ensure_ws], with its retries),
    and without one it runs the handshake, on every call and without a
    retry. *)
Theorem mux_ensure_ws_by_registry (s : StreamConn.state) a c :
  StreamConn.synced (StreamConn.this s) ->
  StreamConn.get_conn a (StreamConn.this s) = Some c ->
  StreamConn._ensure_ws a s =
    match StreamConn.handlers (StreamConn.this s) with
    | [] => StreamConn.call a "_connect" _connect s
    | _ :: _ => (Ret tt, s)
    end.
Proof.
  intros Hsync Hc. destruct (Hsync a c Hc) as (Hh & Hs).
  unfold StreamConn._ensure_ws.
  unfold StreamConn.mbind at 1. unfold StreamConn.get_this. cbn [fst snd].
  rewrite Hc, Hh.
  destruct (StreamConn.handlers (StreamConn.this s)) eqn:Hhs;
    [|reflexivity].
  assert (Hc' : set_handler_symbols
                  (StreamConn.handler_symbols (StreamConn.this s))
                  (set_handlers [] c) = c).
  { rewrite <- Hs. rewrite <- Hh. apply conn_eta_registry. }
  rewrite Hc'.
  unfold StreamConn.mbind, StreamConn.set_this. cbn [fst snd].
  rewrite set_conn_same by exact Hc.
  destruct s as [o w]. reflexivity.
Qed.

(** *** Routing *)

Lemma filter_none {A} (p : A -> bool) (l : list A) :
  (forall x, In x l -> p x = false) -> List.filter p l = [].
Proof.
  induction l as [|x l IH]; simpl; intros Hall; [reflexivity|].
  rewrite (Hall x (or_introl eq_refl)). apply IH.
  intros y Hy. apply Hall. right. exact Hy.
Qed.

(** What a block of [subscribe] for one connection leaves alone. *)
Lemma conn_block_frame fuel a l (P : StreamConn.t -> Prop) s :
  (forall c o, P o -> P (StreamConn.set_conn a c o)) ->
  P (StreamConn.this s) ->
  P (StreamConn.this
       (snd (match l with
             | _ :: _ =>
                 StreamConn.mbind (StreamConn._ensure_ws a)
                   (fun _ =>
                      StreamConn.call a "subscribe"
                        (subscribe fuel (PyList l)))
             | [] => StreamConn.mret tt
             end s))).
Proof.
  intros HP Hs.
  assert (Hcall : forall {A} meth (m : M A) s0,
            P (StreamConn.this s0) ->
            P (StreamConn.this (snd (StreamConn.call a meth m s0)))).
  { intros A meth m s0 Hs0. unfold StreamConn.call.
    destruct (StreamConn.get_conn a (StreamConn.this s0)); [|exact Hs0].
    simpl. apply HP. exact Hs0. }
  assert (Hens : P (StreamConn.this (snd (StreamConn._ensure_ws a s)))).
  { unfold StreamConn._ensure_ws.
    unfold StreamConn.mbind at 1. unfold StreamConn.get_this. cbn [fst snd].
    destruct (StreamConn.get_conn a (StreamConn.this s)) as [c|]; [|exact Hs].
    destruct (_handlers c); [|exact Hs].
    unfold StreamConn.mbind, StreamConn.set_this. cbn [fst snd].
    apply Hcall. simpl. apply HP. exact Hs. }
  destruct l; [exact Hs|].
  apply (mbind_keeps P); [exact Hens|].
  intros _ _. apply Hcall. exact Hens.
Qed.

Lemma polygon_block_frame l (P : StreamConn.t -> Prop) s :
  (forall p o, P o -> P (StreamConn.set_polygon p o)) ->
  P (StreamConn.this s) ->
  P (StreamConn.this
       (snd (match l with
             | _ :: _ =>
                 StreamConn.mbind StreamConn._ensure_polygon
                   (fun _ =>
                      StreamConn.call_polygon "subscribe"
                        (polygon_subscribe l))
             | [] => StreamConn.mret tt
             end s))).
Proof.
  intros HP Hs.
  assert (Hcall : forall meth m s0,
            P (StreamConn.this s0) ->
            P (StreamConn.this (snd (StreamConn.call_polygon meth m s0)))).
  { intros meth m s0 Hs0. unfold StreamConn.call_polygon.
    destruct (StreamConn.polygon (StreamConn.this s0)); [|exact Hs0].
    simpl. apply HP. exact Hs0. }
  assert (Hens : P (StreamConn.this (snd (StreamConn._ensure_polygon s)))).
  { unfold StreamConn._ensure_polygon.
    unfold StreamConn.mbind at 1. unfold StreamConn.get_this. cbn [fst snd].
    destruct (StreamConn.polygon (StreamConn.this s)) as [p|]; [|exact Hs].
    destruct (polygon_handlers p); [|exact Hs].
    unfold StreamConn.mbind, StreamConn.set_this. cbn [fst snd].
    apply Hcall. simpl. apply HP. exact Hs. }
  destruct l; [exact Hs|].
  apply (mbind_keeps P); [exact Hens|].
  intros _ _. apply Hcall. exact Hens.
Qed.

(** [subscribe] of the object touches only the connections that have a
    channel in the list: a connection without one is left as it is, and
    the registry of the object is never changed. *)
Theorem subscribe_touches_destinations fuel channels
  (s : StreamConn.state) :
  let o := StreamConn.this s in
  let o' := StreamConn.this (snd (StreamConn.subscribe fuel channels s)) in
  ((forall c, In c channels -> classify c <> Trading) ->
   StreamConn.trading_ws o' = StreamConn.trading_ws o) /\
  ((forall c, In c channels -> classify c <> Data) ->
   StreamConn.data_ws o' = StreamConn.data_ws o) /\
  ((forall c, In c channels -> classify c <> Polygon) ->
   StreamConn.polygon o' = StreamConn.polygon o) /\
  StreamConn.handlers o' = StreamConn.handlers o /\
  StreamConn.handler_symbols o' = StreamConn.handler_symbols o.
Proof.
  cbn zeta. unfold StreamConn.subscribe.
  rewrite partition_channels_spec.
  set (tc := List.filter _ channels).
  set (dc := List.filter _ channels).
  set (pc := List.filter _ channels).
  assert (Hgen : forall (P : StreamConn.t -> Prop),
            (tc = [] \/ forall c o, P o ->
                          P (StreamConn.set_conn StreamConn.Trading_ws c o)) ->
            (dc = [] \/ forall c o, P o ->
                          P (StreamConn.set_conn StreamConn.Data_ws c o)) ->
            (pc = [] \/ forall p o, P o -> P (StreamConn.set_polygon p o)) ->
            P (StreamConn.this s) ->
            P (StreamConn.this
                 (snd (StreamConn.subscribe fuel channels s)))).
  { intros P Ht Hd Hp Hs. unfold StreamConn.subscribe.
    rewrite partition_channels_spec. fold tc dc pc.
    assert (H1 : forall s0, P (StreamConn.this s0) ->
              P (StreamConn.this
                   (snd (match tc with
                         | _ :: _ =>
                             StreamConn.mbind
                               (StreamConn._ensure_ws StreamConn.Trading_ws)
                               (fun _ =>
                                  StreamConn.call StreamConn.Trading_ws
                                    "subscribe" (subscribe fuel (PyList tc)))
                         | [] => StreamConn.mret tt
                         end s0)))).
    { intros s0 Hs0. destruct Ht as [->|Ht]; [exact Hs0|].
      apply conn_block_frame; assumption. }
    assert (H2 : forall s0, P (StreamConn.this s0) ->
              P (StreamConn.this
                   (snd (match dc with
                         | _ :: _ =>
                             StreamConn.mbind
                               (StreamConn._ensure_ws StreamConn.Data_ws)
                               (fun _ =>
                                  StreamConn.call StreamConn.Data_ws
                                    "subscribe" (subscribe fuel (PyList dc)))
                         | [] => StreamConn.mret tt
                         end s0)))).
    { intros s0 Hs0. destruct Hd as [->|Hd]; [exact Hs0|].
      apply conn_block_frame; assumption. }
    assert (H3 : forall s0, P (StreamConn.this s0) ->
              P (StreamConn.this
                   (snd (match pc with
                         | _ :: _ =>
                             StreamConn.mbind StreamConn._ensure_polygon
                               (fun _ =>
                                  StreamConn.call_polygon "subscribe"
                                    (polygon_subscribe pc))
                         | [] => StreamConn.mret tt
                         end s0)))).
    { intros s0 Hs0. destruct Hp as [->|Hp]; [exact Hs0|].
      apply polygon_block_frame; assumption. }
    apply (mbind_keeps P); [apply H1; exact Hs|]. intros _ _.
    apply (mbind_keeps P); [apply H2, H1; exact Hs|]. intros _ _.
    apply H3, H2, H1. exact Hs. }
  unfold StreamConn.subscribe in Hgen.
  rewrite partition_channels_spec in Hgen. fold tc dc pc in Hgen.
  assert (Hnone : forall d (q : destination -> bool),
            (forall c, In c channels -> classify c <> d) ->
            (forall d', q d' = true -> d' = d) ->
            List.filter (fun c => q (classify c)) channels = []).
  { intros d q Hall Hq. apply filter_none. intros c Hin.
    destruct (q (classify c)) eqn:E; [|reflexivity].
    exfalso. apply (Hall c Hin). apply Hq. exact E. }
  split; [|split; [|split; [|split]]].
  - intros Hall.
    apply (Hgen (fun o' => StreamConn.trading_ws o' =
                           StreamConn.trading_ws (StreamConn.this s)));
      try reflexivity.
    + left. subst tc.
      apply (Hnone Trading
               (fun d => match d with Trading => true | _ => false end));
        [exact Hall|intros []; congruence].
    + right. intros c o Ho. exact Ho.
    + right. intros p o Ho. exact Ho.
  - intros Hall.
    apply (Hgen (fun o' => StreamConn.data_ws o' =
                           StreamConn.data_ws (StreamConn.this s)));
      try reflexivity.
    + right. intros c o Ho. exact Ho.
    + left. subst dc.
      apply (Hnone Data
               (fun d => match d with Data => true | _ => false end));
        [exact Hall|intros []; congruence].
    + right. intros p o Ho. exact Ho.
  - intros Hall.
    apply (Hgen (fun o' => StreamConn.polygon o' =
                           StreamConn.polygon (StreamConn.this s)));
      try reflexivity.
    + right. intros c o Ho. exact Ho.
    + right. intros c o Ho. exact Ho.
    + left. subst pc.
      apply (Hnone Polygon
               (fun d => match d with Polygon => true | _ => false end));
        [exact Hall|intros []; congruence].
  - apply (Hgen (fun o' => StreamConn.handlers o' =
                           StreamConn.handlers (StreamConn.this s)));
      try reflexivity; right; intros [|] o; try (destruct o; exact id);
      intros o0; destruct o0; exact id.
  - apply (Hgen (fun o' => StreamConn.handler_symbols o' =
                           StreamConn.handler_symbols (StreamConn.this s)));
      try reflexivity; right; intros [|] o; try (destruct o; exact id);
      intros o0; destruct o0; exact id.
Qed.

(** [unsubscribe] of the object never reaches the trading and the data
    connection and makes no call into the environment; without a channel
    of the polygon feed in the list it does nothing at all. *)
Theorem mux_unsubscribe_frame channels (s : StreamConn.state) :
  let r := StreamConn.unsubscribe channels s in
  StreamConn.loop (snd r) = StreamConn.loop s /\
  StreamConn.trading_ws (StreamConn.this (snd r)) =
    StreamConn.trading_ws (StreamConn.this s) /\
  StreamConn.data_ws (StreamConn.this (snd r)) =
    StreamConn.data_ws (StreamConn.this s) /\
  StreamConn.handlers (StreamConn.this (snd r)) =
    StreamConn.handlers (StreamConn.this s) /\
  ((forall c, In c channels -> classify c <> Polygon) -> r = (Ret tt, s)).
Proof.
  cbn zeta. unfold StreamConn.unsubscribe.
  assert (Hfil : (forall c, In c channels -> classify c <> Polygon) ->
                 unsubscribe_channels channels = []).
  { intros Hall. apply filter_none. intros c Hin.
    specialize (Hall c Hin). unfold classify in Hall.
    destruct (String.prefix "Q." c || String.prefix "T." c
              || String.prefix "A." c || String.prefix "AM." c);
      [congruence|reflexivity]. }
  destruct (unsubscribe_channels channels) as [|c l] eqn:Hu.
  - repeat split.
  - unfold StreamConn.call_polygon.
    destruct (StreamConn.polygon (StreamConn.this s)); simpl;
      repeat split; intros Hall; apply Hfil in Hall; discriminate.
Qed.

(** When [close] of the object returns, the object owns no connection any
    more; on such an object [close] returns again without doing
    anything, and a [subscribe] of a channel raises [AttributeError]. *)
Theorem mux_close_is_final fuel (s : StreamConn.state) :
  (fst (StreamConn.close s) = Ret tt ->
   StreamConn.trading_ws (StreamConn.this (snd (StreamConn.close s))) = None /\
   StreamConn.data_ws (StreamConn.this (snd (StreamConn.close s))) = None /\
   StreamConn.polygon (StreamConn.this (snd (StreamConn.close s))) = None) /\
  (StreamConn.trading_ws (StreamConn.this s) = None ->
   StreamConn.data_ws (StreamConn.this s) = None ->
   StreamConn.polygon (StreamConn.this s) = None ->
   StreamConn.close s = (Ret tt, s) /\
   forall c,
     StreamConn.subscribe fuel [c] s = (Raise (AttributeError "_handlers"), s)).
Proof.
  destruct s as [[tw dw pg hs sy] w]. split.
  - unfold StreamConn.close. unfold_mux. simpl.
    destruct tw as [tc|]; simpl;
      [destruct (close {| self := tc; env := w |}) as [[[]|e| |] s1];
       simpl; try discriminate|];
      (destruct dw as [dc|]; simpl;
       [match goal with
        | |- context [close ?st] =>
            destruct (close st) as [[[]|e'| |] s2]; simpl; try discriminate
        end|]);
      (destruct pg as [p|]; simpl;
       [destruct (polygon_close p) as [[e''|] p']; simpl; try discriminate|]);
      intros _; repeat split.
  - simpl. intros -> -> ->. split; [reflexivity|].
    intros c. unfold StreamConn.subscribe, partition_channels. simpl.
    destruct (classify c); reflexivity.
Qed.

Lemma connect_refused_run (s0 : sys) e cs :
  w_connect (env s0) = Some e :: cs ->
  _connect s0 =
    (Raise e,
     {| self := self s0;
        env := with_connect cs (traced [EvConnect (_endpoint (self s0))]
                                  (env s0)) |}).
Proof.
  intros Hc. destruct s0 as [c w]. simpl in *.
  unfold _connect, websockets_connect. unfold_monad. simpl. rewrite Hc.
  reflexivity.
Qed.

Lemma partition_one (ch : string) :
  partition_channels [ch] =
  match classify ch with
  | Trading => ([ch], [], [])
  | Data => ([], [ch], [])
  | Polygon => ([], [], [ch])
  end.
Proof. unfold partition_channels. simpl. destruct (classify ch); reflexivity. Qed.

(** With an empty registry, the connection is made by [_connect] itself:
    a failure of the first connection attempt leaves [subscribe] of the
    object at once, transport errors included, without a sleep and
    without a second attempt, although the budget of the connection is
    untouched. *)
Theorem mux_first_connect_not_retried fuel (s : StreamConn.state)
  a c ch e cs :
  StreamConn.synced (StreamConn.this s) ->
  StreamConn.handlers (StreamConn.this s) = [] ->
  StreamConn.get_conn a (StreamConn.this s) = Some c ->
  classify ch =
    match a with
    | StreamConn.Trading_ws => Trading
    | StreamConn.Data_ws => Data
    end ->
  w_connect (StreamConn.loop s) = Some e :: cs ->
  let r := StreamConn.subscribe fuel [ch] s in
  fst r = Raise e /\
  StreamConn.this (snd r) = StreamConn.this s /\
  attempts (w_trace (StreamConn.loop (snd r))) =
    S (attempts (w_trace (StreamConn.loop s))) /\
  sleeps (w_trace (StreamConn.loop (snd r))) =
    sleeps (w_trace (StreamConn.loop s)) /\
  w_connect (StreamConn.loop (snd r)) = cs.
Proof.
  intros Hsync Hhs Hc Hcl Hconn r. subst r.
  unfold StreamConn.subscribe. rewrite partition_one, Hcl.
  assert (Hens : StreamConn._ensure_ws a s =
            (Raise e,
             {| StreamConn.this := StreamConn.this s;
                StreamConn.loop :=
                  with_connect cs
                    (traced [EvConnect (_endpoint c)] (StreamConn.loop s)) |})).
  { rewrite (mux_ensure_ws_eq s a c Hsync Hc), Hhs.
    unfold StreamConn.call. rewrite Hc.
    rewrite (connect_refused_run _ e cs) by exact Hconn.
    simpl. rewrite set_conn_same by exact Hc. reflexivity. }
  destruct a; unfold StreamConn.mbind, StreamConn.mret; rewrite Hens; simpl;
    rewrite attempts_app, sleeps_app; simpl; rewrite app_nil_r;
    repeat split; lia.
Qed.

Lemma mux_ensure_ws_skip (s : StreamConn.state) a c entry registry :
  StreamConn.get_conn a (StreamConn.this s) = Some c ->
  _handlers c = entry :: registry ->
  StreamConn._ensure_ws a s = (Ret tt, s).
Proof.
  intros Hc Hh. unfold StreamConn._ensure_ws.
  unfold StreamConn.mbind at 1. unfold StreamConn.get_this. cbn [fst snd].
  rewrite Hc, Hh. reflexivity.
Qed.

Lemma mux_call_subscribe_connected fuel a (s : StreamConn.state) c ws l ss :
  StreamConn.get_conn a (StreamConn.this s) = Some c ->
  _ws c = Some ws ->
  l <> [] ->
  w_send (StreamConn.loop s) = None :: ss ->
  StreamConn.call a "subscribe" (subscribe (S (S fuel)) (PyList l)) s =
    (Ret tt,
     {| StreamConn.this :=
          StreamConn.set_conn a
            (Some (set_streams (_streams c ∪ list_to_set l) c))
            (StreamConn.this s);
        StreamConn.loop :=
          with_send ss
            (traced
               [EvSend ws
                  (JObj [("action", JStr "listen");
                         ("data", JObj [("streams", JList (map JStr l))])])]
               (StreamConn.loop s)) |}).
Proof.
  intros Hc Hws Hl Hs. unfold StreamConn.call. rewrite Hc.
  rewrite (subscribe_connected_eq fuel _ ws l None ss);
    [reflexivity|exact Hws|exact Hl|exact Hs].
Qed.

(** With an empty registry, every [subscribe] of the object runs the
    handshake again, also on a connection that is connected: a new
    socket replaces the one in [_ws], which is not closed, and a second
    receive task is scheduled; the request goes out on the new socket. *)
Theorem mux_subscribe_rehandshakes fuel (s : StreamConn.state)
  a c old ch cs ss rs f msg data :
  StreamConn.synced (StreamConn.this s) ->
  StreamConn.handlers (StreamConn.this s) = [] ->
  StreamConn.get_conn a (StreamConn.this s) = Some c ->
  _ws c = Some old ->
  classify ch =
    match a with
    | StreamConn.Trading_ws => Trading
    | StreamConn.Data_ws => Data
    end ->
  w_connect (StreamConn.loop s) = None :: cs ->
  w_send (StreamConn.loop s) = None :: None :: ss ->
  w_recv (StreamConn.loop s) = inr f :: rs ->
  loads f = inr msg ->
  json_item msg "data" = inr data ->
  json_get data "status" JNull = inr (JStr "authorized") ->
  let r := StreamConn.subscribe (S (S fuel)) [ch] s in
  let new := w_next_ws (StreamConn.loop s) in
  fst r = Ret tt /\
  (exists c', StreamConn.get_conn a (StreamConn.this (snd r)) = Some c' /\
     _ws c' = Some new /\ _streams c' = _streams c ∪ {[ch]}) /\
  attempts (w_trace (StreamConn.loop (snd r))) =
    S (attempts (w_trace (StreamConn.loop s))) /\
  closed (w_trace (StreamConn.loop (snd r))) =
    closed (w_trace (StreamConn.loop s)) /\
  spawned (w_trace (StreamConn.loop (snd r))) =
    spawned (w_trace (StreamConn.loop s)) ++ [ConsumeMsg] /\
  w_trace (StreamConn.loop (snd r)) =
    w_trace (StreamConn.loop s) ++
    [EvConnect (_endpoint c); EvSend new (authenticate_request c);
     EvRecv new; EvSpawn (w_next_task (StreamConn.loop s)) ConsumeMsg;
     EvSend new
       (JObj [("action", JStr "listen");
              ("data", JObj [("streams", JList [JStr ch])])])].
Proof.
  intros Hsync Hhs Hc Hws Hcl Hconn Hsend Hrecv Hl Hd Hst r new.
  subst r new.
  destruct (Hsync a c Hc) as (Hch & _). rewrite Hhs in Hch.
  unfold StreamConn.subscribe. rewrite partition_one, Hcl.
  assert (Hens : StreamConn._ensure_ws a s =
            (Ret tt,
             {| StreamConn.this :=
                  StreamConn.set_conn a
                    (Some (self (snd (_connect
                       {| self := c; env := StreamConn.loop s |}))))
                    (StreamConn.this s);
                StreamConn.loop :=
                  env (snd (_connect
                    {| self := c; env := StreamConn.loop s |})) |})).
  { rewrite (mux_ensure_ws_eq s a c Hsync Hc), Hhs.
    unfold StreamConn.call. rewrite Hc.
    rewrite (connect_authorized_run _ cs (None :: ss) rs f msg data);
      try assumption; [reflexivity|].
    simpl. rewrite Hch. intros ph []. }
  rewrite (connect_authorized_run _ cs (None :: ss) rs f msg data) in Hens;
    try assumption; [|simpl; rewrite Hch; intros ph []].
  simpl in Hens. rewrite Hch in Hens. simpl in Hens.
  assert (Hsub : forall s1 c1 ws,
            StreamConn.get_conn a (StreamConn.this s1) = Some c1 ->
            _ws c1 = Some ws ->
            w_send (StreamConn.loop s1) = None :: ss ->
            StreamConn.call a "subscribe"
              (subscribe (S (S fuel)) (PyList [ch])) s1 =
              (Ret tt,
               {| StreamConn.this :=
                    StreamConn.set_conn a
                      (Some (set_streams (_streams c1 ∪ list_to_set [ch]) c1))
                      (StreamConn.this s1);
                  StreamConn.loop :=
                    with_send ss
                      (traced
                         [EvSend ws
                            (JObj [("action", JStr "listen");
                                   ("data",
                                    JObj [("streams", JList (map JStr [ch]))])])]
                         (StreamConn.loop s1)) |})).
  { intros s1 c1 ws Hc1 Hws1 Hs1. unfold StreamConn.call. rewrite Hc1.
    rewrite (subscribe_connected_eq fuel _ ws [ch] None ss);
      [reflexivity|exact Hws1|discriminate|exact Hs1]. }
  destruct a; unfold StreamConn.mbind, StreamConn.mret; rewrite Hens;
    (erewrite Hsub; [|simpl; reflexivity|reflexivity|reflexivity]);
    simpl;
    rewrite !attempts_app, !closed_app, !spawned_app; simpl;
    rewrite ?app_nil_r, <- ?app_assoc; simpl;
    (split; [reflexivity|]);
    (split; [eexists; split; [reflexivity|];
             split; [reflexivity|]; simpl;
             rewrite union_empty_r_L; reflexivity|]);
    repeat split; lia.
Qed.

(** With a handler registered and both connections connected, [subscribe]
    of the object sends one request on each socket, the trading
    connection first: each names the channels of its connection, in the
    order of the list, and no handshake is made. *)
Theorem mux_subscribe_routes fuel (s : StreamConn.state) channels
  ct cd wt wd tc dc entry registry ss :
  StreamConn.synced (StreamConn.this s) ->
  StreamConn.handlers (StreamConn.this s) = entry :: registry ->
  StreamConn.trading_ws (StreamConn.this s) = Some ct ->
  StreamConn.data_ws (StreamConn.this s) = Some cd ->
  _ws ct = Some wt ->
  _ws cd = Some wd ->
  partition_channels channels = (tc, dc, []) ->
  tc <> [] ->
  dc <> [] ->
  w_send (StreamConn.loop s) = None :: None :: ss ->
  let r := StreamConn.subscribe (S (S fuel)) channels s in
  let listen l :=
    JObj [("action", JStr "listen");
          ("data", JObj [("streams", JList (map JStr l))])] in
  fst r = Ret tt /\
  StreamConn.trading_ws (StreamConn.this (snd r)) =
    Some (set_streams (_streams ct ∪ list_to_set tc) ct) /\
  StreamConn.data_ws (StreamConn.this (snd r)) =
    Some (set_streams (_streams cd ∪ list_to_set dc) cd) /\
  w_trace (StreamConn.loop (snd r)) =
    w_trace (StreamConn.loop s) ++
    [EvSend wt (listen tc); EvSend wd (listen dc)].
Proof.
  intros Hsync Hhs Hct Hcd Hwt Hwd Hpart Htc Hdc Hsend r listen.
  subst r listen. unfold StreamConn.subscribe. rewrite Hpart.
  destruct (Hsync StreamConn.Trading_ws ct Hct) as (Hht & _).
  destruct (Hsync StreamConn.Data_ws cd Hcd) as (Hhd & _).
  rewrite Hhs in Hht, Hhd.
  destruct tc as [|t0 tc]; [contradiction|].
  destruct dc as [|d0 dc]; [contradiction|].
  unfold StreamConn.mbind, StreamConn.mret.
  rewrite (mux_ensure_ws_skip s StreamConn.Trading_ws ct entry registry Hct Hht).
  rewrite (mux_call_subscribe_connected fuel StreamConn.Trading_ws s ct wt
             (t0 :: tc) (None :: ss) Hct Hwt Htc Hsend).
  match goal with
  | |- context [StreamConn._ensure_ws StreamConn.Data_ws ?s1] =>
      rewrite (mux_ensure_ws_skip s1 StreamConn.Data_ws cd entry registry
                 Hcd Hhd);
      rewrite (mux_call_subscribe_connected fuel StreamConn.Data_ws s1 cd wd
                 (d0 :: dc) ss Hcd Hwd Hdc eq_refl)
  end.
  simpl. rewrite <- app_assoc. repeat split.
Qed.
Lemma mbind_unit_end (m : StreamConn.MM unit) (s : StreamConn.state) :
  StreamConn.mbind m
    (fun _ => StreamConn.mbind (StreamConn.mret tt)
                (fun _ => StreamConn.mret tt)) s = m s.
Proof.
  unfold StreamConn.mbind, StreamConn.mret.
  destruct (m s) as [[[]|e| |] s']; reflexivity.
Qed.

(** C9: [StreamConn.subscribe] routes every channel name to exactly one
    of the three destinations, by a total and deterministic rule: the
    polygon feed exactly for the names that start with [Q.], [T.], [A.]
    or [AM.], the trading connection exactly for the two names
    [trade_updates] and [account_updates], and the data connection for
    every other name.  The three lists of the loop are the channels of
    each destination, in the order of the argument, and a [subscribe] of
    one channel is the connecting and subscribing of the connection of
    its destination, and of no other. *)
Theorem subscribe_routes_by_class fuel (channels : list string)
  (c : string) (s : StreamConn.state) :
  ((exists ! d, classify c = d) /\
   (classify c = Polygon <->
      String.prefix "Q." c = true \/ String.prefix "T." c = true \/
      String.prefix "A." c = true \/ String.prefix "AM." c = true) /\
   (classify c = Trading <-> c = "trade_updates" \/ c = "account_updates") /\
   (classify c = Data <->
      String.prefix "Q." c = false /\ String.prefix "T." c = false /\
      String.prefix "A." c = false /\ String.prefix "AM." c = false /\
      c <> "trade_updates" /\ c <> "account_updates")) /\
  partition_channels channels =
    (List.filter
       (fun c => match classify c with Trading => true | _ => false end)
       channels,
     List.filter
       (fun c => match classify c with Data => true | _ => false end)
       channels,
     List.filter
       (fun c => match classify c with Polygon => true | _ => false end)
       channels) /\
  StreamConn.subscribe fuel [c] s =
    match classify c with
    | Trading =>
        StreamConn.mbind (StreamConn._ensure_ws StreamConn.Trading_ws)
          (fun _ =>
             StreamConn.call StreamConn.Trading_ws "subscribe"
               (subscribe fuel (PyList [c]))) s
    | Data =>
        StreamConn.mbind (StreamConn._ensure_ws StreamConn.Data_ws)
          (fun _ =>
             StreamConn.call StreamConn.Data_ws "subscribe"
               (subscribe fuel (PyList [c]))) s
    | Polygon =>
        StreamConn.mbind StreamConn._ensure_polygon
          (fun _ =>
             StreamConn.call_polygon "subscribe" (polygon_subscribe [c])) s
    end.
Proof.
  split; [apply classify_total|].
  split; [apply partition_channels_spec|].
  unfold StreamConn.subscribe. rewrite partition_one.
  destruct (classify c).
  - apply mbind_unit_end.
  - unfold StreamConn.mbind at 1. unfold StreamConn.mret at 1.
    cbn [fst snd].
    match goal with
    | |- StreamConn.mbind ?m _ s = _ =>
        unfold StreamConn.mbind at 1; unfold StreamConn.mret;
        destruct (m s) as [[[]|e| |] s']; reflexivity
    end.
  - unfold StreamConn.mbind at 1. unfold StreamConn.mret at 1.
    unfold StreamConn.mbind at 1. unfold StreamConn.mret at 1.
    reflexivity.
Qed.
End Mux.

(** ** The properties at sample inputs *)
Section WitnessesMore.
#[local] Existing Instance Sample.library.

Lemma ensure_ws_all_fail_witness :
  (let s := {| self := Sample.conn0; env := Sample.refused |} in
   let r := _ensure_ws 6 s in
   fst r = Raise (ConnectionError "Max Retries Exceeded") /\
   attempts (w_trace (env (snd r))) = 4%nat /\
   sleeps (w_trace (env (snd r))) = [9; 9; 9; 9] /\
   _retries (self (snd r)) = 4 /\
   w_connect (env (snd r)) = [Some (WebSocketException "handshake 5")] /\
   _streams (self (snd r)) = ∅ /\
   _handlers (self (snd r)) = []) /\
  (let s := {| self := __init__ "key" "secret" "https://api.alpaca.markets"
                         (-5) 3;
               env := Sample.refused |} in
   let r := _ensure_ws 2 s in
   fst r = Raise (ConnectionError "Max Retries Exceeded") /\
   attempts (w_trace (env (snd r))) = 0%nat /\
   sleeps (w_trace (env (snd r))) = [] /\
   _retries (self (snd r)) = 0 /\
   w_connect (env (snd r)) = w_connect Sample.refused /\
   _streams (self (snd r)) = ∅ /\
   _handlers (self (snd r)) = []).
Proof.
  split.
  - refine (ensure_ws_all_fail 6
              {| self := Sample.conn0; env := Sample.refused |}
              ["handshake 1"; "handshake 2"; "handshake 3"; "handshake 4"]
              [Some (WebSocketException "handshake 5")]
              eq_refl eq_refl eq_refl _).
    simpl. lia.
  - refine (ensure_ws_all_fail 2
              {| self := __init__ "key" "secret"
                           "https://api.alpaca.markets" (-5) 3;
                 env := Sample.refused |}
              [] (w_connect Sample.refused) eq_refl eq_refl eq_refl _).
    simpl. lia.
Defined.

Lemma exhausted_budget_raises_at_once_witness :
  let s := {| self := set_retries 4 Sample.conn0;
              env := Sample.world0 |} in
  _ensure_ws 2 s = (Raise (ConnectionError "Max Retries Exceeded"), s) /\
  subscribe 3 (PyList ["trade_updates"]) s =
    (Raise (ConnectionError "Max Retries Exceeded"), s).
Proof.
  refine (exhausted_budget_raises_at_once 0
            {| self := set_retries 4 Sample.conn0; env := Sample.world0 |}
            (PyList ["trade_updates"]) eq_refl _ _).
  - simpl. lia.
  - simpl. lia.
Defined.


Lemma subscribe_connected_witness :
  let s := {| self := set_ws (Some 0%nat) Sample.conn0;
              env := with_send [Some (WebSocketException "closed")]
                       Sample.world0 |} in
  let r := subscribe 2 (PyList ["trade_updates"]) s in
  fst r = Raise (WebSocketException "closed") /\
  _streams (self (snd r)) = ∅ ∪ list_to_set ["trade_updates"] /\
  w_trace (env (snd r)) =
    [EvSend 0
       (JObj [("action", JStr "listen");
              ("data",
               JObj [("streams", JList [JStr "trade_updates"])])])].
Proof.
  intros s r. subst r.
  rewrite (subscribe_connected 0 s 0%nat ["trade_updates"]
             (Some (WebSocketException "closed")) []
             eq_refl ltac:(discriminate) eq_refl).
  repeat split.
Defined.

Lemma subscribe_first_witness :
  let s := {| self := Sample.conn0;
              env :=
                with_connect [None]
                  (with_send [None; None]
                     (with_recv [inr (Str (Some Sample.authorized))]
                        Sample.world0)) |} in
  let r := subscribe 3 (PyList ["trade_updates"]) s in
  fst r = Ret tt /\
  _ws (self (snd r)) = Some 0%nat /\
  _retries (self (snd r)) = 0 /\
  _streams (self (snd r)) = list_to_set ["trade_updates"] /\
  attempts (w_trace (env (snd r))) = 1%nat /\
  sent (w_trace (env (snd r))) =
    [authenticate_request Sample.conn0;
     JObj [("action", JStr "listen");
           ("data", JObj [("streams", JList [JStr "trade_updates"])])]] /\
  spawned (w_trace (env (snd r))) = [ConsumeMsg].
Proof.
  refine (subscribe_first 0
            {| self := Sample.conn0;
               env :=
                 with_connect [None]
                   (with_send [None; None]
                      (with_recv [inr (Str (Some Sample.authorized))]
                         Sample.world0)) |}
            ["trade_updates"] [] [] [] (Str (Some Sample.authorized))
            Sample.authorized
            (JObj [("status", JStr "authorized");
                   ("action", JStr "authenticate")])
            eq_refl eq_refl _ _ eq_refl eq_refl eq_refl eq_refl eq_refl
            eq_refl _).
  - simpl. lia.
  - discriminate.
  - intros ph [].
Defined.


Lemma close_failure_keeps_socket_witness :
  let s := {| self := set_ws (Some 0%nat) Sample.conn0;
              env := with_close [Some (OSError "broken pipe")]
                       Sample.world0 |} in
  let r := close s in
  fst r = Raise (OSError "broken pipe") /\
  self (snd r) = self s /\
  _ensure_ws 1 (snd r) = (Ret tt, snd r).
Proof.
  exact (close_failure_keeps_socket 0
           {| self := set_ws (Some 0%nat) Sample.conn0;
              env := with_close [Some (OSError "broken pipe")]
                       Sample.world0 |}
           0%nat (OSError "broken pipe") [] eq_refl eq_refl).
Defined.


Lemma consume_msg_bad_frame_witness :
  let s := {| self := set_ws (Some 0%nat) Sample.conn0;
              env := with_recv [inr (Str None)] Sample.world0 |} in
  let r := _consume_msg 1 s in
  fst r = Raise JSONDecodeError /\
  _ws (self (snd r)) = Some 0%nat /\
  w_trace (env (snd r)) = [EvRecv 0].
Proof.
  intros s r. subst r.
  rewrite (consume_msg_bad_frame 0 s 0%nat (Str None) JSONDecodeError []
             eq_refl eq_refl eq_refl eq_refl).
  repeat split.
Defined.

Lemma consume_msg_handler_error_witness :
  let hs := [("T\..*", Sample.failing "first");
             ("T\.AAPL", Sample.quiet "second")] in
  let s := {| self := set_ws (Some 0%nat) (set_handlers hs Sample.conn0);
              env := with_recv [inr (Str (Some Sample.trade))]
                       Sample.world0 |} in
  let r := _consume_msg 1 s in
  fst r = Raise (UserError "first") /\
  _ws (self (snd r)) = Some 0%nat /\
  w_trace (env (snd r)) =
    [EvRecv 0;
     EvInvoke "first" "T.AAPL"
       (Trade [("price", JFloat 1005 (-1)); ("size", JInt 10)])].
Proof.
  intros hs s r. subst r.
  rewrite (consume_msg_handler_error (H := Sample.library) 0 s 0%nat (Str (Some Sample.trade)) []
             Sample.trade "T.AAPL"
             (JObj [("p", JFloat 1005 (-1)); ("s", JInt 10);
                    ("zz", JStr "unknown")])
             (Trade [("price", JFloat 1005 (-1)); ("size", JInt 10)])
             [] "T\..*" (Sample.failing "first")
             [("T\.AAPL", Sample.quiet "second")] (UserError "first")
             eq_refl eq_refl eq_refl eq_refl eq_refl eq_refl eq_refl
             ltac:(intros ph []) eq_refl eq_refl eq_refl).
  repeat split.
Defined.


Lemma register_deregister_witness :
  let s := {| self := set_handlers [("Q\..*", Sample.quiet "quotes")]
                        Sample.conn0;
              env := Sample.world0 |} in
  (register "T\..*" (Sample.quiet "trades") (Some ["AAPL"]) ;;
   deregister "T\..*")%py s = (Ret tt, s).
Proof.
  refine (register_deregister
            {| self := set_handlers [("Q\..*", Sample.quiet "quotes")]
                         Sample.conn0;
               env := Sample.world0 |}
            "T\..*" (Sample.quiet "trades") (Some ["AAPL"])
            eq_refl eq_refl _ _).
  - simpl. intros [Heq|[]]. discriminate.
  - simpl. intros [].
Defined.

Lemma register_replaces_in_place_witness :
  let hs := [("Q\..*", Sample.quiet "quotes");
             ("T\..*", Sample.quiet "old");
             ("A\..*", Sample.quiet "bars")] in
  let s := {| self := set_handlers hs Sample.conn0;
              env := Sample.world0 |} in
  let r := register "T\..*" (Sample.quiet "new") None s in
  fst r = Ret tt /\
  _handlers (self (snd r)) =
    [("Q\..*", Sample.quiet "quotes"); ("T\..*", Sample.quiet "new");
     ("A\..*", Sample.quiet "bars")] /\
  dict_get "new" (_handler_symbols (self (snd r))) = Some None.
Proof.
  refine (register_replaces_in_place
            {| self :=
                 set_handlers
                   [("Q\..*", Sample.quiet "quotes");
                    ("T\..*", Sample.quiet "old");
                    ("A\..*", Sample.quiet "bars")] Sample.conn0;
               env := Sample.world0 |}
            [("Q\..*", Sample.quiet "quotes")]
            [("A\..*", Sample.quiet "bars")]
            "T\..*" (Sample.quiet "old") (Sample.quiet "new") None
            eq_refl eq_refl eq_refl _).
  simpl. intros [Heq|[]]. discriminate.
Defined.

Lemma dispatch_without_data_witness :
  let s := {| self := set_handlers [("T\..*", Sample.quiet "trades")]
                        Sample.conn0;
              env := Sample.world0 |} in
  _dispatch "T.AAPL" (JObj [("stream", JStr "T.AAPL")]) s =
    (Raise (KeyError "data"), s) /\
  _dispatch "Q.AAPL" (JObj [("stream", JStr "Q.AAPL")]) s = (Ret tt, s).
Proof.
  intros s. split.
  - exact (dispatch_without_data s "T.AAPL"
             (JObj [("stream", JStr "T.AAPL")]) (KeyError "data") eq_refl).
  - exact (dispatch_without_data s "Q.AAPL"
             (JObj [("stream", JStr "Q.AAPL")]) (KeyError "data") eq_refl).
Defined.

Lemma rename_exact_witness :
  dict_get "price"
    (rename trade_mapping [("p", JInt 7); ("zz", JInt 1)]) = Some (JInt 7).
Proof.
  apply (rename_exact trade_mapping [("p", JInt 7); ("zz", JInt 1)]
           "price" (JInt 7)).
  - simpl. repeat constructor; simpl; intuition discriminate.
  - intros k1 k2 v1 v2 [H1|[H1|[]]] [H2|[H2|[]]] E1 E2;
      injection H1 as <- <-; injection H2 as <- <-;
      try reflexivity; discriminate.
  - exists "p". split; reflexivity.
Defined.
End WitnessesMore.

Section WitnessesMux.
#[local] Existing Instance Sample.library.
#[local] Existing Instance SamplePolygon.library.

Lemma sample_fresh_synced : StreamConn.synced SampleMux.fresh.
Proof. intros [] c Hc; injection Hc as <-; split; reflexivity. Defined.

Lemma sample_running_synced : StreamConn.synced SampleMux.running.
Proof. intros [] c Hc; injection Hc as <-; split; reflexivity. Defined.

Lemma mux_register_run_witness :
  let s := {| StreamConn.this := SampleMux.fresh;
              StreamConn.loop := Sample.world0 |} in
  let r := StreamConn.register "T\..*" (Sample.quiet "trades") None s in
  fst r = Ret tt /\
  StreamConn.handlers (StreamConn.this (snd r)) =
    [("T\..*", Sample.quiet "trades")] /\
  option_map _handlers (StreamConn.trading_ws (StreamConn.this (snd r))) =
    Some [("T\..*", Sample.quiet "trades")] /\
  option_map _handlers (StreamConn.data_ws (StreamConn.this (snd r))) =
    Some [("T\..*", Sample.quiet "trades")] /\
  StreamConn.loop (snd r) = Sample.world0.
Proof.
  intros s r. subst r.
  rewrite (mux_register_run (H := Sample.library)
             (H0 := SamplePolygon.library) s "T\..*" (Sample.quiet "trades") None
             eq_refl eq_refl).
  repeat split.
Defined.

Lemma mux_deregister_run_witness :
  let s := {| StreamConn.this := SampleMux.running;
              StreamConn.loop := Sample.world0 |} in
  let r := StreamConn.deregister ".*" s in
  fst r = Ret tt /\
  StreamConn.handlers (StreamConn.this (snd r)) = [] /\
  option_map _handlers (StreamConn.trading_ws (StreamConn.this (snd r))) =
    Some [] /\
  option_map _handler_symbols
    (StreamConn.data_ws (StreamConn.this (snd r))) = Some [].
Proof.
  intros s r. subst r.
  rewrite (mux_deregister_run (H := Sample.library)
             (H0 := SamplePolygon.library) s ".*" (Sample.quiet "any")
             eq_refl sample_running_synced eq_refl).
  repeat split.
Defined.

Lemma mux_ensure_ws_by_registry_witness :
  let s := {| StreamConn.this := SampleMux.running;
              StreamConn.loop := Sample.rejected_once |} in
  StreamConn._ensure_ws StreamConn.Data_ws s = (Ret tt, s).
Proof.
  exact (mux_ensure_ws_by_registry (H := Sample.library)
             (H0 := SamplePolygon.library)
           {| StreamConn.this := SampleMux.running;
              StreamConn.loop := Sample.rejected_once |}
           StreamConn.Data_ws
           (SampleMux.connected 1
              (__init__ "key" "secret" "https://data.alpaca.markets" 3 3))
           sample_running_synced eq_refl).
Defined.

Lemma mux_first_connect_not_retried_witness :
  let s := {| StreamConn.this := SampleMux.fresh;
              StreamConn.loop := Sample.refused |} in
  let r := StreamConn.subscribe 8 ["trade_updates"] s in
  fst r = Raise (WebSocketException "handshake 1") /\
  StreamConn.this (snd r) = SampleMux.fresh /\
  attempts (w_trace (StreamConn.loop (snd r))) = 1%nat /\
  sleeps (w_trace (StreamConn.loop (snd r))) = [] /\
  length (w_connect (StreamConn.loop (snd r))) = 4%nat.
Proof.
  intros s r.
  destruct (mux_first_connect_not_retried (H := Sample.library)
             (H0 := SamplePolygon.library) 8 s StreamConn.Trading_ws
              Sample.conn0 "trade_updates"
              (WebSocketException "handshake 1")
              [Some (WebSocketException "handshake 2");
               Some (WebSocketException "handshake 3");
               Some (WebSocketException "handshake 4");
               Some (WebSocketException "handshake 5")]
              sample_fresh_synced eq_refl eq_refl eq_refl eq_refl)
    as (H1 & H2 & H3 & H4 & H5).
  subst r. rewrite H1, H2, H3, H4, H5. repeat split.
Defined.

Lemma sample_reconnecting_synced :
  StreamConn.synced
    (StreamConn.set_trading_ws (Some (set_ws (Some 0%nat) Sample.conn0))
       SampleMux.fresh).
Proof. intros [] c Hc; injection Hc as <-; split; reflexivity. Defined.

Lemma mux_subscribe_rehandshakes_witness :
  let c := set_ws (Some 0%nat) Sample.conn0 in
  let s := {| StreamConn.this :=
                StreamConn.set_trading_ws (Some c) SampleMux.fresh;
              StreamConn.loop :=
                with_next_ws 1
                  (with_connect [None]
                     (with_send [None; None]
                        (with_recv [inr (Str (Some Sample.authorized))]
                           Sample.world0))) |} in
  let r := StreamConn.subscribe 2 ["trade_updates"] s in
  fst r = Ret tt /\
  (exists c',
     StreamConn.get_conn StreamConn.Trading_ws (StreamConn.this (snd r)) =
       Some c' /\
     _ws c' = Some 1%nat /\ _streams c' = _streams c ∪ {["trade_updates"]}) /\
  attempts (w_trace (StreamConn.loop (snd r))) = 1%nat /\
  closed (w_trace (StreamConn.loop (snd r))) = [] /\
  spawned (w_trace (StreamConn.loop (snd r))) = [ConsumeMsg] /\
  w_trace (StreamConn.loop (snd r)) =
    [EvConnect (_endpoint c); EvSend 1 (authenticate_request c);
     EvRecv 1; EvSpawn 0 ConsumeMsg;
     EvSend 1
       (JObj [("action", JStr "listen");
              ("data", JObj [("streams", JList [JStr "trade_updates"])])])].
Proof.
  exact (mux_subscribe_rehandshakes (H := Sample.library)
           (H0 := SamplePolygon.library) 0
           {| StreamConn.this :=
                StreamConn.set_trading_ws
                  (Some (set_ws (Some 0%nat) Sample.conn0)) SampleMux.fresh;
              StreamConn.loop :=
                with_next_ws 1
                  (with_connect [None]
                     (with_send [None; None]
                        (with_recv [inr (Str (Some Sample.authorized))]
                           Sample.world0))) |}
           StreamConn.Trading_ws
           (set_ws (Some 0%nat) Sample.conn0) 0%nat "trade_updates"
           [] [] [] (Str (Some Sample.authorized)) Sample.authorized
           (JObj [("status", JStr "authorized");
                  ("action", JStr "authenticate")])
           sample_reconnecting_synced eq_refl eq_refl eq_refl eq_refl
           eq_refl eq_refl eq_refl eq_refl eq_refl eq_refl).
Defined.

Lemma mux_subscribe_routes_witness :
  let s := {| StreamConn.this := SampleMux.running;
              StreamConn.loop := with_send [None; None] Sample.world0 |} in
  let r := StreamConn.subscribe 2
             ["alpacadatav1/T.AAPL"; "trade_updates"; "account_updates"]
             s in
  let listen l :=
    JObj [("action", JStr "listen");
          ("data", JObj [("streams", JList (map JStr l))])] in
  fst r = Ret tt /\
  w_trace (StreamConn.loop (snd r)) =
    [EvSend 0 (listen ["trade_updates"; "account_updates"]);
     EvSend 1 (listen ["alpacadatav1/T.AAPL"])].
Proof.
  intros s r listen.
  destruct (mux_subscribe_routes (H := Sample.library)
             (H0 := SamplePolygon.library) 0 s
              ["alpacadatav1/T.AAPL"; "trade_updates"; "account_updates"]
              (SampleMux.connected 0 Sample.conn0)
              (SampleMux.connected 1
                 (__init__ "key" "secret" "https://data.alpaca.markets"
                    3 3))
              0%nat 1%nat ["trade_updates"; "account_updates"]
              ["alpacadatav1/T.AAPL"] (".*", Sample.quiet "any") [] []
              sample_running_synced eq_refl eq_refl eq_refl eq_refl
              eq_refl eq_refl ltac:(discriminate) ltac:(discriminate)
              eq_refl)
    as (H1 & _ & _ & H4).
  subst r. rewrite H1, H4. split; reflexivity.
Defined.
End WitnessesMux.

Section WitnessesFrames.
#[local] Existing Instance Sample.library.
#[local] Existing Instance SamplePolygon.library.

Lemma close_idempotent_witness :
  let s := {| self := Sample.conn0; env := Sample.dropped |} in
  fst (close s) = Ret tt /\
  self (snd (close s)) = self s /\
  closed (w_trace (env (snd (close s)))) = closed (w_trace (env s)).
Proof.
  exact (proj2 (close_idempotent
                  {| self := Sample.conn0; env := Sample.dropped |})
           eq_refl).
Defined.

Lemma registry_errors_witness :
  let s := {| self := Sample.conn0; env := Sample.world0 |} in
  let plain := {| h_name := "plain"; h_coroutine := false;
                  h_raises := fun _ _ => None |} in
  register "T\..*" plain None s = (Raise (ValueError NotACoroutine), s) /\
  register "*" (Sample.quiet "trades") None s = (Raise (ReError "*"), s) /\
  deregister "T\..*" s = (Raise (KeyError "T\..*"), s).
Proof.
  intros s plain.
  split; [|split].
  - exact (proj1 (registry_errors (H := Sample.library) s "T\..*" plain
                    None) eq_refl).
  - exact (proj1 (proj2 (registry_errors (H := Sample.library) s "*"
                           (Sample.quiet "trades") None))
             eq_refl eq_refl).
  - exact (proj2 (proj2 (registry_errors (H := Sample.library) s "T\..*"
                           (Sample.quiet "trades") None))
             eq_refl eq_refl).
Defined.

Lemma connection_keeps_subscriptions_witness :
  respects same_subscriptions (_ensure_ws 3)
    {| self := SampleQuiet.trades_only; env := SampleQuiet.accepted |} /\
  respects same_subscriptions (_consume_msg 3)
    {| self := set_ws (Some 0%nat) SampleQuiet.trades_only;
       env := SampleQuiet.arriving |}.
Proof.
  split.
  - refine (proj1 (proj2 (proj2 (proj2 (proj2
              (connection_keeps_subscriptions (H := Sample.library) 3
                 {| self := SampleQuiet.trades_only;
                    env := SampleQuiet.accepted |}
                 (PyList []) "" JNull))))) _).
    vm_compute. reflexivity.
  - refine (proj1 (proj2 (proj2 (proj2 (proj2 (proj2
              (connection_keeps_subscriptions (H := Sample.library) 3
                 {| self := set_ws (Some 0%nat) SampleQuiet.trades_only;
                    env := SampleQuiet.arriving |}
                 (PyList []) "" JNull)))))) _).
    vm_compute. reflexivity.
Defined.

Lemma subscribe_only_adds_witness :
  let s := {| self := SampleQuiet.trades_only;
              env := SampleQuiet.accepted |} in
  let c' := self (snd (subscribe 3 (PyList ["trade_updates"]) s)) in
  same_settings (self s) c' /\
  (_streams c' = _streams (self s) \/
   _streams c' = _streams (self s) ∪ py_set (PyList ["trade_updates"])).
Proof.
  refine (subscribe_only_adds (H := Sample.library) 3
            (PyList ["trade_updates"])
            {| self := SampleQuiet.trades_only;
               env := SampleQuiet.accepted |} _).
  vm_compute. reflexivity.
Defined.

Lemma connect_end_states_witness :
  let s := {| self := SampleQuiet.trades_only;
              env := SampleQuiet.accepted |} in
  let r := _connect s in
  match fst r with
  | Ret _ =>
      self (snd r) =
        set_consume_task (Some (w_next_task (env s)))
          (set_ws (Some (w_next_ws (env s))) (set_retries 0 (self s))) /\
      spawned (w_trace (env (snd r))) =
        spawned (w_trace (env s)) ++ [ConsumeMsg]
  | _ =>
      self (snd r) = self s /\
      spawned (w_trace (env (snd r))) = spawned (w_trace (env s))
  end.
Proof.
  refine (connect_end_states (H := Sample.library)
            {| self := SampleQuiet.trades_only;
               env := SampleQuiet.accepted |} _).
  vm_compute. reflexivity.
Defined.

Lemma sample_waiting_synced : StreamConn.synced SampleQuiet.waiting.
Proof. intros [] c Hc; injection Hc as <-; split; reflexivity. Defined.

Lemma registries_stay_synced_witness :
  let s := {| StreamConn.this := SampleQuiet.waiting;
              StreamConn.loop := SampleQuiet.accepted |} in
  StreamConn.synced
    (StreamConn.this (snd (StreamConn.subscribe 3 ["trade_updates"] s))) /\
  StreamConn.synced
    (StreamConn.this
       (snd (StreamConn.register "Q\..*" (Sample.quiet "quotes") None s))).
Proof.
  intros s.
  destruct (proj2 (registries_stay_synced (H := Sample.library)
                     (H0 := SamplePolygon.library))
              s sample_waiting_synced) as (Hsub & _ & _ & Hreg & _).
  split.
  - apply Hsub. vm_compute. reflexivity.
  - apply Hreg.
Defined.

Lemma subscribe_touches_destinations_witness :
  let s := {| StreamConn.this := SampleMux.fresh;
              StreamConn.loop := Sample.refused |} in
  let o' := StreamConn.this
              (snd (StreamConn.subscribe 8 ["trade_updates"] s)) in
  StreamConn.data_ws o' = StreamConn.data_ws SampleMux.fresh /\
  StreamConn.polygon o' = StreamConn.polygon SampleMux.fresh.
Proof.
  intros s o'.
  destruct (subscribe_touches_destinations (H := Sample.library)
              (H0 := SamplePolygon.library) 8 ["trade_updates"] s)
    as (_ & Hd & Hp & _).
  split; [apply Hd|apply Hp]; intros c [<-|[]]; discriminate.
Defined.

Lemma mux_unsubscribe_frame_witness :
  let s := {| StreamConn.this := SampleMux.running;
              StreamConn.loop := Sample.world0 |} in
  StreamConn.unsubscribe ["trade_updates"; "alpacadatav1/T.AAPL"] s =
    (Ret tt, s).
Proof.
  intros s.
  apply (mux_unsubscribe_frame (H0 := SamplePolygon.library)
           ["trade_updates"; "alpacadatav1/T.AAPL"] s).
  intros c [<-|[<-|[]]]; discriminate.
Defined.

Lemma mux_close_is_final_witness :
  let s := {| StreamConn.this :=
                {| StreamConn.trading_ws := None;
                   StreamConn.data_ws := None;
                   StreamConn.polygon := None;
                   StreamConn.handlers := SampleMux.registry;
                   StreamConn.handler_symbols := SampleMux.symbols |};
              StreamConn.loop := Sample.world0 |} in
  StreamConn.close s = (Ret tt, s) /\
  forall c,
    StreamConn.subscribe 2 [c] s = (Raise (AttributeError "_handlers"), s).
Proof.
  intros s.
  exact (proj2 (mux_close_is_final (H := Sample.library)
                  (H0 := SamplePolygon.library) 2 s)
           eq_refl eq_refl eq_refl).
Defined.
End WitnessesFrames.
